(** * Maan: the session coordination core of [app.py]

    A shallow embedding of the in-memory session registry
    ([active_sessions]), of the HTTP routes and Socket.IO handlers that
    read or mutate it, and of the events they emit.  Handlers are pure
    functions from a [World] (project table, registry, room membership,
    files) to a [Result] (new world, emitted events in order, reply).

    What the process takes from its environment is passed as an argument:
    [request.sid] and the Flask session's [user_id] in a [Request], the
    value of [secrets.token_hex(8)], the draw of [random.choice], whether
    [open] succeeds for writing or for reading, [os.path.getmtime],
    [datetime.utcnow().isoformat()] and whether the connection an approved
    join is for is still connected.

    Beside the session core the file embeds the path check
    ([is_safe_path] over a model of POSIX [os.path]), the file tree walk
    ([get_file_tree]), the account routes with [make_admin.py], project
    creation, the session page and the admin dashboard's counters. *)

From Stdlib Require Import List String Ascii ZArith Bool Lia Sorted Permutation.
Import ListNotations.
Local Open Scope string_scope.
Local Open Scope list_scope.
Local Open Scope Z_scope.

Set Implicit Arguments.

(** ** Small helpers on Python values *)

(** [x == y] where both are [None] or a [str]. *)
Definition opt_eqb (x y : option string) : bool :=
  match x, y with
  | None, None => true
  | Some a, Some b => String.eqb a b
  | _, _ => false
  end.

(** [len(xs) >= n] *)
Definition len_ge {A} (xs : list A) (n : Z) : bool :=
  n <=? Z.of_nat (List.length xs).

(** Rewrite the first element satisfying [p]: the code mutates, in place,
    the dict that a [for ... break] loop or [next(...)] returned. *)
Fixpoint update_first {A} (p : A -> bool) (f : A -> A) (xs : list A) : list A :=
  match xs with
  | [] => []
  | x :: rest => if p x then f x :: rest else x :: update_first p f rest
  end.

(** ** POSIX [os.path] as used by [is_safe_path] *)

Module posixpath.

Definition slash : ascii := "/"%char.

Definition startswith_slash (s : string) : bool :=
  match s with
  | String c _ => Ascii.eqb c slash
  | EmptyString => false
  end.

Fixpoint endswith_slash (s : string) : bool :=
  match s with
  | EmptyString => false
  | String c EmptyString => Ascii.eqb c slash
  | String _ rest => endswith_slash rest
  end.

(** [s.split('/')] *)
Fixpoint split (s : string) : list string :=
  match s with
  | EmptyString => [EmptyString]
  | String c rest =>
      if Ascii.eqb c slash then EmptyString :: split rest
      else match split rest with
           | [] => [String c EmptyString]
           | h :: t => String c h :: t
           end
  end.

(** ['/'.join(comps)] *)
Fixpoint join_comps (comps : list string) : string :=
  match comps with
  | [] => EmptyString
  | [c] => c
  | c :: rest => (c ++ "/" ++ join_comps rest)%string
  end.

(** [os.path.join(a, b)] *)
Definition join (a b : string) : string :=
  if startswith_slash b then b
  else if (String.eqb a EmptyString || endswith_slash a)%bool then (a ++ b)%string
  else (a ++ "/" ++ b)%string.

(** The number of leading slashes [normpath] keeps: 0, 1, or 2 when the
    path starts with exactly two. *)
Definition initial_slashes (path : string) : nat :=
  match path with
  | String a (String b (String c _)) =>
      if Ascii.eqb a slash then
        if Ascii.eqb b slash then (if Ascii.eqb c slash then 1 else 2)%nat
        else 1%nat
      else 0%nat
  | String a (String b EmptyString) =>
      if Ascii.eqb a slash then (if Ascii.eqb b slash then 2 else 1)%nat
      else 0%nat
  | String a EmptyString => if Ascii.eqb a slash then 1%nat else 0%nat
  | EmptyString => 0%nat
  end.

(** The component loop of [normpath]; [new_comps] is kept reversed, so
    its head is [new_comps[-1]]. *)
Fixpoint norm_comps (init : nat) (comps new_comps : list string) : list string :=
  match comps with
  | [] => rev new_comps
  | comp :: rest =>
      if (String.eqb comp "" || String.eqb comp ".")%bool then
        norm_comps init rest new_comps
      else if (negb (String.eqb comp "..")
               || (Nat.eqb init 0 && match new_comps with [] => true | _ => false end)
               || match new_comps with
                  | last :: _ => String.eqb last ".."
                  | [] => false
                  end)%bool
      then norm_comps init rest (comp :: new_comps)
      else match new_comps with
           | _ :: popped => norm_comps init rest popped
           | [] => norm_comps init rest new_comps
           end
  end.

Fixpoint slashes (n : nat) : string :=
  match n with
  | O => EmptyString
  | S k => String slash (slashes k)
  end.

Definition normpath (path : string) : string :=
  if String.eqb path EmptyString then "."
  else
    let init := initial_slashes path in
    let p := (slashes init ++ join_comps (norm_comps init (split path) []))%string in
    if String.eqb p EmptyString then "." else p.

(** [os.path.abspath(path)], with [cwd] the value of [os.getcwd()]. *)
Definition abspath (cwd path : string) : string :=
  normpath (if startswith_slash path then path else join cwd path).

(** [os.path.commonprefix([a, b])]: the longest common leading substring,
    compared character by character. *)
Fixpoint commonprefix (a b : string) : string :=
  match a, b with
  | String x a', String y b' =>
      if Ascii.eqb x y then String x (commonprefix a' b') else EmptyString
  | _, _ => EmptyString
  end.

End posixpath.

(** [is_safe_path(workspace_path, relative_path)] *)
Definition is_safe_path (cwd workspace_path relative_path : string) : bool :=
  let full_path := posixpath.abspath cwd (posixpath.join workspace_path relative_path) in
  String.eqb (posixpath.commonprefix full_path workspace_path) workspace_path.

(** ** Data model *)

(** A row of the [Project] table (the columns the core reads). *)
Module Project.
Record t := mk {
  session_id : string;
  admin_id : Z;
  workspace_path : string;
  max_users : Z;
  active : bool
}.
Definition set_active (b : bool) (p : t) : t :=
  mk (session_id p) (admin_id p) (workspace_path p) (max_users p) b.
End Project.

(** An entry of [active_sessions[session_id]['users']]. *)
Module UserData.
Record t := mk {
  sid : string;
  username : string;
  color : string;
  current_file : option string;
  is_anonymous : bool;
  sessionId : option string;
  is_admin : bool
}.
Definition set_sid (s : string) (u : t) : t :=
  mk s (username u) (color u) (current_file u) (is_anonymous u) (sessionId u) (is_admin u).
Definition set_is_admin (b : bool) (u : t) : t :=
  mk (sid u) (username u) (color u) (current_file u) (is_anonymous u) (sessionId u) b.
Definition set_current_file (f : option string) (u : t) : t :=
  mk (sid u) (username u) (color u) f (is_anonymous u) (sessionId u) (is_admin u).
End UserData.

(** An entry of [active_sessions[session_id]['pending_approvals']]: a dict
    whose ['type'] is ['save'] (keys id, type, path, content, user) or
    ['join'] (keys id, type, username, is_anonymous, sessionId, sid). *)
Module Approval.
Inductive kind := save | join.
Inductive t :=
| Save (id path content user : string)
| Join (id username : string) (is_anonymous : bool) (sessionId : option string) (sid : string).

Definition id (a : t) : string :=
  match a with Save i _ _ _ => i | Join i _ _ _ _ => i end.
Definition type (a : t) : kind :=
  match a with Save _ _ _ _ => save | Join _ _ _ _ _ => join end.
Definition is_join (a : t) : bool :=
  match a with Join _ _ _ _ _ => true | Save _ _ _ _ => false end.
Definition is_save (a : t) : bool := negb (is_join a).
(** [a.get('sessionId')]: [None] when the key is absent. *)
Definition get_sessionId (a : t) : option string :=
  match a with Join _ _ _ s _ => s | Save _ _ _ _ => None end.
(** [a.get('sid')]: [None] when the key is absent. *)
Definition get_sid (a : t) : option string :=
  match a with Join _ _ _ _ s => Some s | Save _ _ _ _ => None end.
(** [a['sid'] = s]; only ever applied to a dict found with type join. *)
Definition set_sid (s : string) (a : t) : t :=
  match a with
  | Join i u an si _ => Join i u an si s
  | Save _ _ _ _ => a
  end.
End Approval.

(** A value of [active_sessions]: [{'users': [...], 'pending_approvals': [...]}]. *)
Record SessionData := mkSession {
  users : list UserData.t;
  pending_approvals : list Approval.t
}.

Definition new_session : SessionData := mkSession [] [].

(** [active_sessions]: a dict, kept in insertion order (which
    [handle_disconnect] iterates). *)
Definition Registry := list (string * SessionData).

Fixpoint reg_get (k : string) (r : Registry) : option SessionData :=
  match r with
  | [] => None
  | (k', v) :: rest => if String.eqb k' k then Some v else reg_get k rest
  end.

(** [active_sessions[k] = v] and mutation of the dict stored under [k]:
    an existing key keeps its place, a new one goes last. *)
Fixpoint reg_set (k : string) (v : SessionData) (r : Registry) : Registry :=
  match r with
  | [] => [(k, v)]
  | (k', v') :: rest =>
      if String.eqb k' k then (k', v) :: rest else (k', v') :: reg_set k v rest
  end.

(** [if session_id not in active_sessions: active_sessions[session_id] = {...}] *)
Definition reg_ensure (k : string) (r : Registry) : Registry :=
  match reg_get k r with
  | Some _ => r
  | None => reg_set k new_session r
  end.

(** The session read after [reg_ensure]. *)
Definition reg_get_or_new (k : string) (r : Registry) : SessionData :=
  match reg_get k r with
  | Some sd => sd
  | None => new_session
  end.

(** Socket.IO rooms: the pairs (room, sid) set up by [join_room] and
    [enter_room]; besides, every connection is alone in the room named by
    its own sid. *)
Definition Rooms := list (string * string).

Definition in_room (rooms : Rooms) (room sid : string) : bool :=
  (String.eqb room sid
   || existsb (fun m => String.eqb (fst m) room && String.eqb (snd m) sid) rooms)%bool.

Definition join_room (room sid : string) (rooms : Rooms) : Rooms :=
  if existsb (fun m => String.eqb (fst m) room && String.eqb (snd m) sid)%bool rooms
  then rooms else rooms ++ [(room, sid)].

Definition leave_room (room sid : string) (rooms : Rooms) : Rooms :=
  filter (fun m => negb (String.eqb (fst m) room && String.eqb (snd m) sid)) rooms.

Definition admin_room (session_id : string) : string := (session_id ++ "_admin")%string.

(** The file system as [open] finds it.  A file has one entry whatever the
    spelling of the path that leads to it: the key is [os.path.abspath] of
    a path that leads there, taken in the process's working directory (the
    tree holds no symbolic link).  The value is the text the file stores.
    Whether a given spelling leads anywhere ([sub/../f] needs [sub], [f/]
    needs a directory) is the file system's answer, a [WriteOutcome] or a
    [ReadOutcome]. *)
Definition Files := list (string * string).

Fixpoint store (key content : string) (fs : Files) : Files :=
  match fs with
  | [] => [(key, content)]
  | (p, c) :: rest =>
      if String.eqb p key then (p, content) :: rest else (p, c) :: store key content rest
  end.

Fixpoint stored (key : string) (fs : Files) : option string :=
  match fs with
  | [] => None
  | (p, c) :: rest => if String.eqb p key then Some c else stored key rest
  end.

(** [open(path, 'w', encoding='utf-8')] then [f.write(content)] when they
    succeed: on POSIX the text is stored as it is (['\n'] is written as
    [os.linesep], which is ['\n']). *)
Definition write_file (cwd path content : string) (fs : Files) : Files :=
  store (posixpath.abspath cwd path) content fs.

(** The text stored in the file [path] leads to, if there is one. *)
Definition read_file (cwd path : string) (fs : Files) : option string :=
  stored (posixpath.abspath cwd path) fs.

Definition CR : ascii := Ascii.ascii_of_nat 13.
Definition LF : ascii := Ascii.ascii_of_nat 10.

(** What reading in text mode does to the stored text (universal
    newlines): ['\r\n'] and a ['\r'] on its own both come out as ['\n']. *)
Fixpoint universal_newlines (s : string) : string :=
  match s with
  | EmptyString => EmptyString
  | String c rest =>
      if Ascii.eqb c CR then
        match rest with
        | String c' rest' =>
            if Ascii.eqb c' LF then String LF (universal_newlines rest')
            else String LF (universal_newlines rest)
        | EmptyString => String LF EmptyString
        end
      else String c (universal_newlines rest)
  end.

(** [open(path, 'r', encoding='utf-8')] then [f.read()]: [None] when the
    file is not there. *)
Definition read_text (cwd path : string) (fs : Files) : option string :=
  option_map universal_newlines (read_file cwd path fs).

(** ['\r' in s] *)
Fixpoint has_cr (s : string) : bool :=
  match s with
  | EmptyString => false
  | String c rest => (Ascii.eqb c CR || has_cr rest)%bool
  end.

Record World := mkWorld {
  projects : list Project.t;
  active_sessions : Registry;
  rooms : Rooms;
  files : Files;
  cwd : string
}.

Definition set_projects (ps : list Project.t) (w : World) : World :=
  mkWorld ps (active_sessions w) (rooms w) (files w) (cwd w).
Definition set_sessions (r : Registry) (w : World) : World :=
  mkWorld (projects w) r (rooms w) (files w) (cwd w).
Definition set_rooms (rm : Rooms) (w : World) : World :=
  mkWorld (projects w) (active_sessions w) rm (files w) (cwd w).
Definition set_files (fs : Files) (w : World) : World :=
  mkWorld (projects w) (active_sessions w) (rooms w) fs (cwd w).

(** [Project.query.filter_by(session_id=session_id).first()] *)
Definition find_project (w : World) (session_id : string) : option Project.t :=
  find (fun p => String.eqb (Project.session_id p) session_id) (projects w).

(** What a handler knows of its caller: [request.sid] (Socket.IO handlers)
    and [session.get('user_id')] (the Flask login cookie). *)
Record Request := mkRequest {
  req_sid : string;
  req_user_id : option Z
}.

(** ['user_id' in session and session['user_id'] == project.admin_id] *)
Definition is_project_admin (uid : option Z) (project : Project.t) : bool :=
  match uid with
  | Some u => u =? Project.admin_id project
  | None => false
  end.

(** ** Emitted events *)

Inductive Payload :=
| error (message : string)
| waiting_approval (message : string)
| user_connected (user : UserData.t)
| session_state (users : list UserData.t)
| user_joined (username color : string) (user : UserData.t) (users : list UserData.t)
| join_approval_request (id username : string)
| join_approved (user : UserData.t)
| join_rejected (message : string)
| user_left (sid username : string)
| cursor_update (sid position file color username : string)
| content_update (sid changes file : string) (version : Z)
| user_file_change (sid file : string)
| chat_message (username color message timestamp : string)
| approval_request (id : string) (type : Approval.kind) (path user : string)
| approval_result (id : string) (approved : bool)
| file_saved (path user content : string) (mtime : Z)
| kicked (message : string)
| session_closed (message : string).

(** One [emit]: the room it is addressed to and, for [include_self=False],
    the sender's sid as [skip_sid]. *)
Record Emit := mkEmit {
  payload : Payload;
  room : string;
  skip_sid : option string
}.

(** [emit(event, data)] inside a handler: to the caller alone. *)
Definition emit_self (rq : Request) (p : Payload) : Emit :=
  mkEmit p (req_sid rq) None.
(** [emit(event, data, room=r)] and [socketio.emit(event, data, room=r)]. *)
Definition emit_room (r : string) (p : Payload) : Emit :=
  mkEmit p r None.
(** [emit(event, data, room=r, include_self=False)] *)
Definition emit_others (rq : Request) (r : string) (p : Payload) : Emit :=
  mkEmit p r (Some (req_sid rq)).

(** Whether connection [c] receives emit [e]. *)
Definition delivered (rm : Rooms) (e : Emit) (c : string) : bool :=
  (in_room rm (room e) c && negb (opt_eqb (skip_sid e) (Some c)))%bool.

(** How a handler ends: a Socket.IO handler returns nothing, a route
    returns [jsonify({key: value}), code], and either may raise. *)
Inductive Reply :=
| Done
| Http (code : Z) (key value : string)
| Raised (exn : string).

Record Result := mkResult {
  world : World;
  emits : list Emit;
  reply : Reply
}.

(** [random.choice(user_colors)], [draw] being the random index. *)
Definition user_colors : list string :=
  ["#FF6B6B"; "#4ECDC4"; "#45B7D1"; "#FFA07A"; "#98D8C8"; "#F7DC6F"; "#BB8FCE"; "#85C1E2"].

Definition assign_color (draw : nat) : string :=
  nth (draw mod List.length user_colors) user_colors "#FF6B6B".

(** ** Pieces shared by the handlers *)

(** [[a for a in pending if a['id'] != approval_id]] *)
Definition remove_approval (approval_id : string) (pending : list Approval.t) : list Approval.t :=
  filter (fun a => negb (String.eqb (Approval.id a) approval_id)) pending.

(** [[u for u in users if u['sid'] != sid]] *)
Definition remove_sid (sid : string) (us : list UserData.t) : list UserData.t :=
  filter (fun u => negb (String.eqb (UserData.sid u) sid)) us.

(** [[a for a in pending if a.get('sid') != sid]] *)
Definition purge_sid (sid : string) (pending : list Approval.t) : list Approval.t :=
  filter (fun a => negb (opt_eqb (Approval.get_sid a) (Some sid))) pending.

(** [user.get('sessionId') == user_session_id] *)
Definition same_identity (user_session_id : option string) (u : UserData.t) : bool :=
  opt_eqb (UserData.sessionId u) user_session_id.

(** [a.get('sessionId') == user_session_id and a.get('type') == 'join'] *)
Definition pending_join (user_session_id : option string) (a : Approval.t) : bool :=
  (opt_eqb (Approval.get_sessionId a) user_session_id && Approval.is_join a)%bool.

(** [next((u for u in users if u['sid'] == sid), None)] *)
Definition user_by_sid (sid : string) (us : list UserData.t) : option UserData.t :=
  find (fun u => String.eqb (UserData.sid u) sid) us.

(** The outcome of [open(full_path, 'w')], [f.write(content)] and
    [os.path.getmtime(full_path)], decided by the file system.  [open]
    empties the file before anything is written to it: after a failure the
    file is as it was ([partial] is [None]: [open] itself raised) or holds
    what got written before the exception ([Some text], the empty text
    when [f.write] raised at once). *)
Inductive WriteOutcome :=
| Written (mtime : Z)
| Failed (reason : string) (partial : option string).

Definition after_failure (cwd full_path : string) (partial : option string) (fs : Files)
    : Files :=
  match partial with
  | None => fs
  | Some text => write_file cwd full_path text fs
  end.

Definition msg_inactive : string := "Session not found or inactive".
Definition msg_full : string := "Session is full".
Definition msg_waiting : string := "Waiting for admin approval...".

(** ** Routes *)

(** [POST /api/session/<session_id>/files/save] *)
Definition save_file (w : World) (uid : option Z) (session_id path content user_info : string)
    (token : string) (io : WriteOutcome) : Result :=
  match find_project w session_id with
  | None => mkResult w [] (Http 404 "error" "Project not found")
  | Some project =>
      if is_project_admin uid project then
        if negb (is_safe_path (cwd w) (Project.workspace_path project) path) then
          mkResult w [] (Http 400 "error" "Invalid path")
        else
          let full_path := posixpath.join (Project.workspace_path project) path in
          match io with
          | Failed reason partial =>
              mkResult (set_files (after_failure (cwd w) full_path partial (files w)) w)
                       [] (Raised reason)
          | Written mtime =>
              mkResult (set_files (write_file (cwd w) full_path content (files w)) w)
                       [emit_room session_id (file_saved path user_info content mtime)]
                       (Http 200 "status" "success")
          end
      else
        let reg := reg_ensure session_id (active_sessions w) in
        let sd := reg_get_or_new session_id (active_sessions w) in
        let approval_id := token in
        let sd' := mkSession (users sd)
                     (pending_approvals sd ++ [Approval.Save approval_id path content user_info]) in
        mkResult (set_sessions (reg_set session_id sd' reg) w)
                 [emit_room (admin_room session_id)
                    (approval_request approval_id Approval.save path user_info)]
                 (Http 200 "status" "pending_approval")
  end.

(** [POST /api/admin/kick-user/<session_id>/<sid>] *)
Definition kick_user (w : World) (uid : option Z) (session_id sid : string) : Result :=
  match uid with
  | None => mkResult w [] (Http 401 "error" "Not authenticated")
  | Some u =>
      match find_project w session_id with
      | None => mkResult w [] (Http 403 "error" "Not authorized")
      | Some project =>
          if negb (u =? Project.admin_id project) then
            mkResult w [] (Http 403 "error" "Not authorized")
          else
            let notice := emit_room sid (kicked "You have been removed from the session") in
            match reg_get session_id (active_sessions w) with
            | None => mkResult w [notice] (Http 200 "status" "success")
            | Some sd =>
                match user_by_sid sid (users sd) with
                | None => mkResult w [notice] (Http 200 "status" "success")
                | Some user =>
                    let sd' := mkSession (remove_sid sid (users sd)) (pending_approvals sd) in
                    mkResult (set_sessions (reg_set session_id sd' (active_sessions w)) w)
                             [emit_room session_id (user_left sid (UserData.username user)); notice]
                             (Http 200 "status" "success")
                end
            end
      end
  end.

(** [project.active = False] on the row [first()] returned. *)
Definition deactivate (session_id : string) (ps : list Project.t) : list Project.t :=
  update_first (fun p => String.eqb (Project.session_id p) session_id)
    (Project.set_active false) ps.

(** [POST /api/admin/close-session/<session_id>] *)
Definition close_session (w : World) (uid : option Z) (session_id : string) : Result :=
  match uid with
  | None => mkResult w [] (Http 401 "error" "Not authenticated")
  | Some u =>
      match find_project w session_id with
      | None => mkResult w [] (Http 403 "error" "Not authorized")
      | Some project =>
          if negb (u =? Project.admin_id project) then
            mkResult w [] (Http 403 "error" "Not authorized")
          else
            mkResult (set_projects (deactivate session_id (projects w)) w)
                     [emit_room session_id (session_closed "Session has been closed")]
                     (Http 200 "status" "success")
      end
  end.

(** ** Socket.IO handlers *)

(** [@socketio.on('join_session')].  [draw] is the index [random.choice]
    picks and [token] the value of [secrets.token_hex(8)]. *)
Definition handle_join_session (w : World) (rq : Request)
    (session_id username : string) (is_anonymous : bool) (user_session_id : option string)
    (draw : nat) (token : string) : Result :=
  match find_project w session_id with
  | None => mkResult w [emit_self rq (error msg_inactive)] Done
  | Some project =>
    if negb (Project.active project) then
      mkResult w [emit_self rq (error msg_inactive)] Done
    else
      let reg := reg_ensure session_id (active_sessions w) in
      let sd := reg_get_or_new session_id (active_sessions w) in
      let is_user_admin := is_project_admin (req_user_id rq) project in
      match find (pending_join user_session_id) (pending_approvals sd) with
      | Some _ =>
          (* reload while pending: rewrite the sid, wait again *)
          let sd' := mkSession (users sd)
                       (update_first (pending_join user_session_id) (Approval.set_sid (req_sid rq))
                          (pending_approvals sd)) in
          mkResult (set_sessions (reg_set session_id sd' reg) w)
                   [emit_self rq (waiting_approval msg_waiting)] Done
      | None =>
        match find (same_identity user_session_id) (users sd) with
        | Some existing_user =>
            (* reconnection: rewrite the sid *)
            let touch := fun u =>
              let u1 := UserData.set_sid (req_sid rq) u in
              if is_user_admin then UserData.set_is_admin true u1 else u1 in
            let user_data := touch existing_user in
            let users' := update_first (same_identity user_session_id) touch (users sd) in
            let sd' := mkSession users' (pending_approvals sd) in
            let rooms1 := join_room session_id (req_sid rq) (rooms w) in
            let rooms2 := if is_user_admin
                          then join_room (admin_room session_id) (req_sid rq) rooms1
                          else rooms1 in
            mkResult (set_rooms rooms2 (set_sessions (reg_set session_id sd' reg) w))
                     [emit_self rq (user_connected user_data);
                      emit_self rq (session_state users')] Done
        | None =>
          if is_user_admin then
            (* admin joins directly *)
            if len_ge (users sd) (Project.max_users project) then
              mkResult (set_sessions reg w) [emit_self rq (error msg_full)] Done
            else
              let color := assign_color draw in
              let user_data := UserData.mk (req_sid rq) username color None
                                 is_anonymous user_session_id true in
              let users' := users sd ++ [user_data] in
              let sd' := mkSession users' (pending_approvals sd) in
              let rooms' := join_room (admin_room session_id) (req_sid rq)
                              (join_room session_id (req_sid rq) (rooms w)) in
              mkResult (set_rooms rooms' (set_sessions (reg_set session_id sd' reg) w))
                       [emit_self rq (user_connected user_data);
                        emit_room session_id
                          (user_joined username (UserData.color user_data) user_data users')] Done
          else
            (* non-admin requires approval *)
            if len_ge (users sd) (Project.max_users project) then
              mkResult (set_sessions reg w) [emit_self rq (error msg_full)] Done
            else
              match find (pending_join user_session_id) (pending_approvals sd) with
              | Some _ =>
                  let sd' := mkSession (users sd)
                               (update_first (pending_join user_session_id) (Approval.set_sid (req_sid rq))
                                  (pending_approvals sd)) in
                  mkResult (set_sessions (reg_set session_id sd' reg) w)
                           [emit_self rq (waiting_approval msg_waiting)] Done
              | None =>
                  let approval_id := token in
                  let sd' := mkSession (users sd)
                               (pending_approvals sd ++
                                [Approval.Join approval_id username is_anonymous
                                   user_session_id (req_sid rq)]) in
                  mkResult (set_sessions (reg_set session_id sd' reg) w)
                           [emit_room (admin_room session_id)
                              (join_approval_request approval_id username);
                            emit_self rq (waiting_approval msg_waiting)] Done
              end
        end
      end
  end.

(** [@socketio.on('join_approval_response')].  [connected] tells whether
    [approval['sid']] is still a connection of the Socket.IO server:
    [socketio.server.enter_room] looks the sid up among the connected
    clients and raises [KeyError] for one that has gone.  By then the
    participant has been appended; nothing has been emitted and the
    approval is still pending. *)
Definition handle_join_approval_response (w : World) (rq : Request)
    (session_id approval_id : string) (approved : bool) (draw : nat) (connected : bool)
    : Result :=
  match reg_get session_id (active_sessions w) with
  | None => mkResult w [] Done
  | Some sd =>
    match find (fun a => (String.eqb (Approval.id a) approval_id && Approval.is_join a)%bool)
               (pending_approvals sd) with
    | None => mkResult w [] Done
    | Some (Approval.Save _ _ _ _) =>
        (* not selected by the search above; a save dict has no ['sid'] *)
        mkResult w [] (Raised "KeyError")
    | Some (Approval.Join _ a_username a_is_anonymous a_sessionId a_sid) =>
        let removed := remove_approval approval_id (pending_approvals sd) in
        if approved then
          match find_project w session_id with
          | None => mkResult w [] (Raised "AttributeError")
          | Some project =>
              if len_ge (users sd) (Project.max_users project) then
                let sd' := mkSession (users sd) removed in
                mkResult (set_sessions (reg_set session_id sd' (active_sessions w)) w)
                         [emit_room a_sid (error msg_full)] Done
              else
                let color := assign_color draw in
                let user_data := UserData.mk a_sid a_username color None
                                   a_is_anonymous a_sessionId false in
                let users' := users sd ++ [user_data] in
                if connected then
                  let sd' := mkSession users' removed in
                  mkResult (set_rooms (join_room session_id a_sid (rooms w))
                              (set_sessions (reg_set session_id sd' (active_sessions w)) w))
                           [emit_room a_sid (join_approved user_data);
                            emit_room a_sid (session_state users');
                            emit_room session_id
                              (user_joined a_username (UserData.color user_data) user_data users')]
                           Done
                else
                  let sd' := mkSession users' (pending_approvals sd) in
                  mkResult (set_sessions (reg_set session_id sd' (active_sessions w)) w)
                           [] (Raised "KeyError")
          end
        else
          let sd' := mkSession (users sd) removed in
          mkResult (set_sessions (reg_set session_id sd' (active_sessions w)) w)
                   [emit_room a_sid (join_rejected "Your request to join was denied")] Done
    end
  end.

(** [@socketio.on('leave_session')] *)
Definition handle_leave_session (w : World) (rq : Request) (session_id : string) : Result :=
  match reg_get session_id (active_sessions w) with
  | None => mkResult w [] Done
  | Some sd =>
      let user := user_by_sid (req_sid rq) (users sd) in
      let sd' := mkSession (remove_sid (req_sid rq) (users sd)) (pending_approvals sd) in
      let w' := set_rooms (leave_room session_id (req_sid rq) (rooms w))
                  (set_sessions (reg_set session_id sd' (active_sessions w)) w) in
      match user with
      | Some u =>
          mkResult w' [emit_room session_id (user_left (req_sid rq) (UserData.username u))] Done
      | None => mkResult w' [] Done
      end
  end.

(** [@socketio.on('cursor_move')] *)
Definition handle_cursor_move (w : World) (rq : Request)
    (session_id position file : string) : Result :=
  match reg_get session_id (active_sessions w) with
  | None => mkResult w [] Done
  | Some sd =>
      match user_by_sid (req_sid rq) (users sd) with
      | None => mkResult w [] Done
      | Some user =>
          mkResult w
            [emit_others rq session_id
               (cursor_update (req_sid rq) position file (UserData.color user) (UserData.username user))]
            Done
      end
  end.

(** [@socketio.on('file_change')] *)
Definition handle_file_change (w : World) (rq : Request)
    (session_id changes file : string) (version : Z) : Result :=
  mkResult w [emit_others rq session_id (content_update (req_sid rq) changes file version)] Done.

(** [@socketio.on('file_open')] *)
Definition handle_file_open (w : World) (rq : Request) (session_id file_path : string) : Result :=
  let w' :=
    match reg_get session_id (active_sessions w) with
    | None => w
    | Some sd =>
        let sd' := mkSession
                     (update_first (fun u => String.eqb (UserData.sid u) (req_sid rq))
                        (UserData.set_current_file (Some file_path)) (users sd))
                     (pending_approvals sd) in
        set_sessions (reg_set session_id sd' (active_sessions w)) w
    end in
  mkResult w' [emit_room session_id (user_file_change (req_sid rq) file_path)] Done.

(** [@socketio.on('chat_message')]; [data_color] is [data.get('color', '#999')]
    and [timestamp] is [datetime.utcnow().isoformat()]. *)
Definition handle_chat_message (w : World) (rq : Request)
    (session_id username message data_color timestamp : string) : Result :=
  let user_color :=
    match reg_get session_id (active_sessions w) with
    | None => data_color
    | Some sd =>
        match find (fun u => String.eqb (UserData.username u) username) (users sd) with
        | Some user => UserData.color user
        | None => data_color
        end
    end in
  mkResult w [emit_room session_id (chat_message username user_color message timestamp)] Done.

(** [@socketio.on('approval_response')] *)
Definition handle_approval_response (w : World) (rq : Request)
    (session_id approval_id : string) (approved : bool) (io : WriteOutcome) : Result :=
  match reg_get session_id (active_sessions w) with
  | None => mkResult w [] Done
  | Some sd =>
    match find (fun a => String.eqb (Approval.id a) approval_id) (pending_approvals sd) with
    | None => mkResult w [] Done
    | Some approval =>
        (* the tail of the handler: drop the entry, tell the room *)
        let finish := fun (w1 : World) (es : list Emit) =>
          let sd' := mkSession (users sd) (remove_approval approval_id (pending_approvals sd)) in
          mkResult (set_sessions (reg_set session_id sd' (active_sessions w1)) w1)
                   (es ++ [emit_room session_id (approval_result approval_id approved)]) Done in
        match approval with
        | Approval.Save _ a_path a_content a_user =>
            if approved then
              match find_project w session_id with
              | None => mkResult w [] (Raised "AttributeError")
              | Some project =>
                  if negb (is_safe_path (cwd w) (Project.workspace_path project) a_path) then
                    mkResult w [emit_self rq (error "Invalid path")] Done
                  else
                    let full_path := posixpath.join (Project.workspace_path project) a_path in
                    match io with
                    | Written mtime =>
                        finish (set_files (write_file (cwd w) full_path a_content (files w)) w)
                               [emit_room session_id (file_saved a_path a_user a_content mtime)]
                    | Failed reason partial =>
                        finish (set_files (after_failure (cwd w) full_path partial (files w)) w)
                               [emit_self rq (error ("Failed to save: " ++ reason)%string)]
                    end
              end
            else finish w []
        | Approval.Join _ _ _ _ _ => finish w []
        end
    end
  end.

(** The loop of [handle_disconnect] over [active_sessions.items()]: it
    stops at the first session whose roster holds the sid. *)
Fixpoint disconnect_loop (rq : Request) (reg : Registry) : Registry * list Emit :=
  match reg with
  | [] => ([], [])
  | (session_id, session_data) :: rest =>
      match user_by_sid (req_sid rq) (users session_data) with
      | Some user =>
          ((session_id,
            mkSession (remove_sid (req_sid rq) (users session_data))
                      (pending_approvals session_data)) :: rest,
           [emit_others rq session_id (user_left (req_sid rq) (UserData.username user))])
      | None =>
          let (rest', es) := disconnect_loop rq rest in
          ((session_id,
            mkSession (users session_data)
                      (purge_sid (req_sid rq) (pending_approvals session_data))) :: rest',
           es)
      end
  end.

(** [@socketio.on('disconnect')] *)
Definition handle_disconnect (w : World) (rq : Request) : Result :=
  let (reg', es) := disconnect_loop rq (active_sessions w) in
  mkResult (set_sessions reg' w) es Done.

(** ** Runs of the server *)

(** One inbound request or Socket.IO event, with what the environment
    supplies while it is handled.  These are the routes and handlers that
    read or write [active_sessions] or [project.active], and [save_file].
    Not among them: [create_project] (the project table is taken as it is
    at boot and sessions come into the registry on first use), and the
    admin-only routes [create_file], [delete_file] and [rename_file], which
    touch the file tree alone. *)
Inductive Event :=
| SaveFile (uid : option Z) (session_id path content user_info token : string) (io : WriteOutcome)
| KickUser (uid : option Z) (session_id sid : string)
| CloseSession (uid : option Z) (session_id : string)
| JoinSession (rq : Request) (session_id username : string) (is_anonymous : bool)
    (user_session_id : option string) (draw : nat) (token : string)
| JoinApprovalResponse (rq : Request) (session_id approval_id : string) (approved : bool)
    (draw : nat) (connected : bool)
| LeaveSession (rq : Request) (session_id : string)
| CursorMove (rq : Request) (session_id position file : string)
| FileChange (rq : Request) (session_id changes file : string) (version : Z)
| FileOpen (rq : Request) (session_id file_path : string)
| ChatMessage (rq : Request) (session_id username message data_color timestamp : string)
| ApprovalResponse (rq : Request) (session_id approval_id : string) (approved : bool)
    (io : WriteOutcome)
| Disconnect (rq : Request).

Definition step (w : World) (e : Event) : Result :=
  match e with
  | SaveFile uid s path content user_info token io =>
      save_file w uid s path content user_info token io
  | KickUser uid s sid => kick_user w uid s sid
  | CloseSession uid s => close_session w uid s
  | JoinSession rq s username anon ident draw token =>
      handle_join_session w rq s username anon ident draw token
  | JoinApprovalResponse rq s a approved draw connected =>
      handle_join_approval_response w rq s a approved draw connected
  | LeaveSession rq s => handle_leave_session w rq s
  | CursorMove rq s position file => handle_cursor_move w rq s position file
  | FileChange rq s changes file version => handle_file_change w rq s changes file version
  | FileOpen rq s file_path => handle_file_open w rq s file_path
  | ChatMessage rq s username message data_color timestamp =>
      handle_chat_message w rq s username message data_color timestamp
  | ApprovalResponse rq s a approved io => handle_approval_response w rq s a approved io
  | Disconnect rq => handle_disconnect w rq
  end.

(** The world after handling the events one at a time, in order. *)
Fixpoint run (w : World) (es : list Event) : World :=
  match es with
  | [] => w
  | e :: rest => run (world (step w e)) rest
  end.

(** A freshly started process: [active_sessions = {}], no room. *)
Definition boot (ps : list Project.t) (fs : Files) (dir : string) : World :=
  mkWorld ps [] [] fs dir.

(** ** Predicates the properties are stated with *)

(** The roster and the pending list of a session, empty when the registry
    has no such key. *)
Definition roster (w : World) (session_id : string) : list UserData.t :=
  users (reg_get_or_new session_id (active_sessions w)).

Definition pending (w : World) (session_id : string) : list Approval.t :=
  pending_approvals (reg_get_or_new session_id (active_sessions w)).

(** [len(participants) <= capacity], for every session of the registry. *)
Definition within_capacity (w : World) : Prop :=
  forall session_id sd project,
    reg_get session_id (active_sessions w) = Some sd ->
    find_project w session_id = Some project ->
    Z.of_nat (List.length (users sd)) <= Project.max_users project.

(** No project row holds a negative [max_users] (the column defaults to 5
    and no route writes it). *)
Definition capacities_nonneg (w : World) : Prop :=
  forall project, In project (projects w) -> 0 <= Project.max_users project.

(** The join-kind entries of a pending list that carry identity [ident]. *)
Definition joins_of (ident : option string) (ps : list Approval.t) : list Approval.t :=
  filter (pending_join ident) ps.

(** At most one outstanding join-kind approval per stable identity, in
    every session. *)
Definition one_join_per_identity (w : World) : Prop :=
  forall session_id sd ident,
    reg_get session_id (active_sessions w) = Some sd ->
    (List.length (joins_of ident (pending_approvals sd)) <= 1)%nat.

(** Some session still holds a pending approval whose ['sid'] is [sid]. *)
Definition dangling_approval (w : World) (sid : string) : Prop :=
  exists session_id sd a,
    reg_get session_id (active_sessions w) = Some sd /\
    In a (pending_approvals sd) /\
    Approval.get_sid a = Some sid.

(** Some roster of the registry holds connection [sid]. *)
Definition connected_somewhere (w : World) (sid : string) : Prop :=
  exists session_id sd u,
    In (session_id, sd) (active_sessions w) /\ In u (users sd) /\ UserData.sid u = sid.

Definition is_error (p : Payload) : bool :=
  match p with error _ => true | _ => false end.

(** The notices that conclude the join workflow for the requester. *)
Definition is_join_notice (p : Payload) : bool :=
  match p with
  | join_approved _ | join_rejected _ => true
  | _ => false
  end.

(** How one event may change the data of session [k]: the shapes the
    handlers produce, with the guard each is taken under. *)
Inductive session_change (w : World) (k : string) (sd : SessionData) : SessionData -> Prop :=
| sc_same : session_change w k sd sd
| sc_rewrite_user p f :
    (forall u, UserData.sessionId (f u) = UserData.sessionId u) ->
    session_change w k sd (mkSession (update_first p f (users sd)) (pending_approvals sd))
| sc_remove_user sid :
    session_change w k sd (mkSession (remove_sid sid (users sd)) (pending_approvals sd))
| sc_filter_pending q :
    session_change w k sd (mkSession (users sd) (filter q (pending_approvals sd)))
| sc_rewrite_pending p sid :
    session_change w k sd
      (mkSession (users sd) (update_first p (Approval.set_sid sid) (pending_approvals sd)))
| sc_request_save i path content user :
    session_change w k sd
      (mkSession (users sd) (pending_approvals sd ++ [Approval.Save i path content user]))
| sc_request_join i username anon ident sid :
    find (pending_join ident) (pending_approvals sd) = None ->
    find (same_identity ident) (users sd) = None ->
    session_change w k sd
      (mkSession (users sd)
         (pending_approvals sd ++ [Approval.Join i username anon ident sid]))
| sc_enter_direct u project :
    find_project w k = Some project ->
    Z.of_nat (List.length (users sd)) < Project.max_users project ->
    find (pending_join (UserData.sessionId u)) (pending_approvals sd) = None ->
    find (same_identity (UserData.sessionId u)) (users sd) = None ->
    session_change w k sd (mkSession (users sd ++ [u]) (pending_approvals sd))
| sc_enter_approved u project approval_id i username anon sid :
    find_project w k = Some project ->
    Z.of_nat (List.length (users sd)) < Project.max_users project ->
    find (fun a => (String.eqb (Approval.id a) approval_id && Approval.is_join a)%bool)
         (pending_approvals sd)
      = Some (Approval.Join i username anon (UserData.sessionId u) sid) ->
    session_change w k sd
      (mkSession (users sd ++ [u]) (remove_approval approval_id (pending_approvals sd))).

(** What one event may do to session [k], the approval cut short by
    [enter_room] included: there the participant is in the roster and the
    approval still in the pending list. *)
Inductive session_step (w : World) (k : string) (sd : SessionData) : SessionData -> Prop :=
| ss_change sd' : session_change w k sd sd' -> session_step w k sd sd'
| ss_enter_raised u project :
    find_project w k = Some project ->
    Z.of_nat (List.length (users sd)) < Project.max_users project ->
    session_step w k sd (mkSession (users sd ++ [u]) (pending_approvals sd)).

(** The events that do not run into a vanished connection: every event
    but a [join_approval_response] for a requester who is gone. *)
Definition finds_connection (e : Event) : bool :=
  match e with
  | JoinApprovalResponse _ _ _ _ _ connected => connected
  | _ => true
  end.

(** Per-session forms of the invariants. *)
Definition sess_one_join (sd : SessionData) : Prop :=
  forall ident, (List.length (joins_of ident (pending_approvals sd)) <= 1)%nat.

(** No stable identity is at once in the roster and waiting to join. *)
Definition sess_exclusive (sd : SessionData) : Prop :=
  forall a u,
    In a (pending_approvals sd) -> Approval.is_join a = true ->
    In u (users sd) -> Approval.get_sessionId a <> UserData.sessionId u.

(** At most one participant per stable identity. *)
Definition sess_roster_unique (sd : SessionData) : Prop :=
  forall ident, (List.length (filter (same_identity ident) (users sd)) <= 1)%nat.

Definition sess_consistent (sd : SessionData) : Prop :=
  sess_one_join sd /\ sess_exclusive sd /\ sess_roster_unique sd.

(** Every session of the registry is consistent. *)
Definition consistent (w : World) : Prop :=
  forall session_id sd,
    reg_get session_id (active_sessions w) = Some sd -> sess_consistent sd.

(** The events that read or write [project.active]. *)
Definition touches_active (e : Event) : bool :=
  match e with
  | JoinSession _ _ _ _ _ _ _ | CloseSession _ _ => true
  | _ => false
  end.

(** The world with the project of [session_id] flagged inactive. *)
Definition closed (session_id : string) (w : World) : World :=
  set_projects (deactivate session_id (projects w)) w.

(** ** A concrete deployment used in the examples *)

Module Demo.

Definition s1 : string := "s1".
Definition project1 : Project.t :=
  Project.mk s1 1 "/srv/app/workspaces/s1" 5 true.

Definition w0 : World := boot [project1] [] "/srv/app".

(** The admin's browser (logged in as user 1) and a guest's. *)
Definition alice : Request := mkRequest "conn-a" (Some 1).
Definition bob : Request := mkRequest "conn-b" None.
Definition bob_as_admin : Request := mkRequest "conn-b2" (Some 1).

Definition alice_joins : Event := JoinSession alice s1 "alice" false (Some "tab-a") 0%nat "t0".
Definition bob_asks : Event := JoinSession bob s1 "bob" true (Some "tab-b") 1%nat "j1".
Definition alice_lets_bob_in : Event := JoinApprovalResponse alice s1 "j1" true 1%nat true.

(** Roster [alice; bob], nothing pending. *)
Definition w_joined : World := run w0 [alice_joins; bob_asks; alice_lets_bob_in].

(** Bob, not the admin, saves to a path that leaves the workspace. *)
Definition bob_saves_outside : Event :=
  SaveFile None s1 "../../secret.txt" "x=1" "bob" "a1" (Written 0).
Definition w_outside_pending : World := run w_joined [bob_saves_outside].

(** Bob's connection, already in the roster, asks to join once more under
    another tab identity, then drops. *)
Definition bob_asks_again : Event := JoinSession bob s1 "bob" true (Some "tab-b2") 2%nat "j2".
Definition w_bob_twice : World := run w_joined [bob_asks_again].

(** Bob's connection has dropped, its second request still pending; the
    admin approves that request all the same. *)
Definition bob_drops : Event := Disconnect bob.
Definition w_bob_gone : World := run w_bob_twice [bob_drops].
Definition alice_lets_gone_bob_in : Event :=
  JoinApprovalResponse alice s1 "j2" true 3%nat false.
Definition w_half_joined : World := run w_bob_gone [alice_lets_gone_bob_in].

(** Bob is still waiting for the admin's decision. *)
Definition w_waiting : World := run w0 [alice_joins; bob_asks].

(** Bob's tab comes back on a new connection. *)
Definition bob_again : Request := mkRequest "conn-b9" None.

(** The admin closes the session. *)
Definition alice_closes : Event := CloseSession (Some 1) s1.
Definition w_closed : World := run w_joined [alice_closes].

End Demo.

(** ** Read-only routes *)

(** What [get_file_content] returns: [jsonify({'content': ..., 'mtime': ...})]
    or [jsonify({'error': message}), code]. *)
Inductive ContentReply :=
| Content (content : string) (mtime : Z)
| ContentError (code : Z) (message : string).

(** The outcome of [open(full_path, 'r')], [f.read()] and
    [os.path.getmtime(full_path)], decided by the file system: [Read] for
    a path that leads to a file which is there and can be read,
    [ReadFailed] with the text of the exception otherwise (a directory on
    the way is missing, a name followed by a slash is a plain file, the
    bytes are not UTF-8, ...). *)
Inductive ReadOutcome :=
| Read (mtime : Z)
| ReadFailed (reason : string).

(** [GET /api/session/<session_id>/files/content]; [path] is
    [request.args.get('path')].  For a file that is not there [open]
    raises [FileNotFoundError], whose text names the path handed to it. *)
Definition get_file_content (w : World) (session_id : string) (path : option string)
    (io : ReadOutcome) : ContentReply :=
  match find_project w session_id with
  | None => ContentError 404 "Project not found"
  | Some project =>
      match path with
      | None => ContentError 400 "Invalid path"
      | Some p =>
          if (String.eqb p "" || negb (is_safe_path (cwd w) (Project.workspace_path project) p))%bool
          then ContentError 400 "Invalid path"
          else
            let full_path := posixpath.join (Project.workspace_path project) p in
            match io with
            | ReadFailed reason => ContentError 500 reason
            | Read mtime =>
                match read_text (cwd w) full_path (files w) with
                | Some content => Content content mtime
                | None =>
                    ContentError 500
                      ("[Errno 2] No such file or directory: '" ++ full_path ++ "'")%string
                end
            end
      end
  end.

(** What a page route returns: a rendered template or a text with a
    status code. *)
Inductive PageReply :=
| Rendered (template session_id : string)
| PageError (code : Z) (text : string).

(** [GET /session/<session_id>] *)
Definition session_page (w : World) (session_id : string) : PageReply :=
  match find_project w session_id with
  | None => PageError 404 "Session not found or inactive"
  | Some project =>
      if negb (Project.active project) then PageError 404 "Session not found or inactive"
      else Rendered "session.html" session_id
  end.


(** What the sweep does to a session scanned before the one that holds
    the sid. *)
Definition purged (sid : string) (entry : string * SessionData) : string * SessionData :=
  (fst entry, mkSession (users (snd entry)) (purge_sid sid (pending_approvals (snd entry)))).

(** ** Path components *)

(** ['/' in s] *)
Fixpoint contains_slash (s : string) : bool :=
  match s with
  | EmptyString => false
  | String c rest => (Ascii.eqb c posixpath.slash || contains_slash rest)%bool
  end.

(** An ordinary name: not empty, not ['.'], not ['..'], no slash. *)
Definition plain_name (c : string) : bool :=
  (negb (String.eqb c "") && negb (String.eqb c ".") && negb (String.eqb c "..")
   && negb (contains_slash c))%bool.

(** ** Creating a project *)

(** [WORKSPACE_BASE = os.path.abspath('./workspaces')] *)
Definition WORKSPACE_BASE (w : World) : string :=
  posixpath.abspath (cwd w) "./workspaces".

(** [get_workspace_dir(session_id)] *)
Definition get_workspace_dir (w : World) (session_id : string) : string :=
  posixpath.join (WORKSPACE_BASE w) session_id.

(** What [git.Repo.clone_from(github_url, workspace_path)] does: it writes
    the repository's files (path relative to the workspace, content) or
    raises. *)
Inductive CloneOutcome :=
| Cloned (tree : list (string * string))
| CloneFailed (reason : string).

Definition write_tree (cwd workspace_path : string) (tree : list (string * string))
    (fs : Files) : Files :=
  fold_left (fun acc entry => write_file cwd (posixpath.join workspace_path (fst entry))
                                (snd entry) acc)
            tree fs.

(** What [create_project] returns: the JSON with [session_id] and
    [join_url], an error JSON with its code, or an exception. *)
Inductive CreateReply :=
| Created (session_id join_url : string)
| CreateError (code : Z) (message : string)
| CreateRaised (exn : string).

(** [POST /api/projects/create].  [token] is [secrets.token_urlsafe(16)];
    [github_url] is [None] for a missing or empty field; the commit raises
    when the unique [session_id] column already holds the token. *)
Definition create_project (w : World) (uid : option Z) (name : string)
    (github_url : option string) (token : string) (clone : CloneOutcome)
    : World * CreateReply :=
  match uid with
  | None => (w, CreateError 401 "Not authenticated")
  | Some u =>
      let session_id := token in
      let workspace_path := get_workspace_dir w session_id in
      let cloned :=
        match github_url with
        | None => Cloned []
        | Some _ => clone
        end in
      match cloned with
      | CloneFailed reason => (w, CreateError 400 ("Failed to clone: " ++ reason)%string)
      | Cloned tree =>
          let w1 := set_files (write_tree (cwd w) workspace_path tree (files w)) w in
          match find_project w session_id with
          | Some _ => (w1, CreateRaised "IntegrityError")
          | None =>
              let project := Project.mk session_id u workspace_path 5 true in
              (set_sessions (reg_set session_id new_session (active_sessions w1))
                 (set_projects (projects w1 ++ [project]) w1),
               Created session_id ("/session/" ++ session_id)%string)
          end
      end
  end.

(** Any request the model handles: an [Event] or a project creation. *)
Inductive Action :=
| Core (e : Event)
| CreateProject (uid : option Z) (name : string) (github_url : option string)
    (token : string) (clone : CloneOutcome).

Definition act (w : World) (a : Action) : World :=
  match a with
  | Core e => world (step w e)
  | CreateProject uid name github_url token clone =>
      fst (create_project w uid name github_url token clone)
  end.

Fixpoint play (w : World) (acts : list Action) : World :=
  match acts with
  | [] => w
  | a :: rest => play (act w a) rest
  end.

Definition action_finds_connection (a : Action) : bool :=
  match a with
  | Core e => finds_connection e
  | CreateProject _ _ _ _ _ => true
  end.

(** ** Accounts *)

(** A row of the [User] table. *)
Module Account.
Record t := mk {
  id : Z;
  username : string;
  email : string;
  password_hash : string;
  is_admin : bool
}.
Definition set_is_admin (b : bool) (a : t) : t :=
  mk (id a) (username a) (email a) (password_hash a) b.
End Account.

(** [User.query.get(user_id)] *)
Definition get_account (user_id : Z) (accounts : list Account.t) : option Account.t :=
  find (fun a => Account.id a =? user_id) accounts.

(** The id SQLite gives a new row of an [INTEGER PRIMARY KEY] table: 1 in
    an empty table, else one more than the largest id in use. *)
Definition next_id (accounts : list Account.t) : Z :=
  match accounts with
  | [] => 1
  | a :: rest => 1 + fold_left Z.max (map Account.id rest) (Account.id a)
  end.

(** What an account route returns: the user JSON of [register] (no
    [is_admin] key) and [login], [{'status': 'success'}], an error JSON
    with its code, or an exception. *)
Inductive AuthReply :=
| AuthUser (user_id : Z) (username : string) (is_admin : option bool)
| AuthSuccess
| AuthError (code : Z) (message : string)
| AuthRaised (exn : string).

(** The [User] table, the caller's [session.get('user_id')] and the reply,
    after a route has run. *)
Record AuthResult := mkAuth {
  accounts_after : list Account.t;
  cookie_after : option Z;
  auth_reply : AuthReply
}.

Section Auth.

(** werkzeug's [generate_password_hash(password)], with the salt it draws,
    and [check_password_hash(pwhash, password)]. *)
Variable generate_password_hash : string -> string -> string.
Variable check_password_hash : string -> string -> bool.

(** [POST /api/auth/register] *)
Definition register (accounts : list Account.t) (cookie : option Z)
    (username email password salt : string) : AuthResult :=
  match find (fun a => String.eqb (Account.username a) username) accounts with
  | Some _ => mkAuth accounts cookie (AuthError 400 "Username already exists")
  | None =>
      match find (fun a => String.eqb (Account.email a) email) accounts with
      | Some _ => mkAuth accounts cookie (AuthError 400 "Email already exists")
      | None =>
          let user := Account.mk (next_id accounts) username email
                        (generate_password_hash password salt) false in
          mkAuth (accounts ++ [user]) (Some (Account.id user))
                 (AuthUser (Account.id user) (Account.username user) None)
      end
  end.

(** [POST /api/auth/login] *)
Definition login (accounts : list Account.t) (cookie : option Z)
    (email password : string) : AuthResult :=
  match find (fun a => String.eqb (Account.email a) email) accounts with
  | None => mkAuth accounts cookie (AuthError 401 "Invalid credentials")
  | Some user =>
      if negb (check_password_hash (Account.password_hash user) password) then
        mkAuth accounts cookie (AuthError 401 "Invalid credentials")
      else
        mkAuth accounts (Some (Account.id user))
               (AuthUser (Account.id user) (Account.username user)
                  (Some (Account.is_admin user)))
  end.

(** [POST /api/auth/logout] *)
Definition logout (accounts : list Account.t) (cookie : option Z) : AuthResult :=
  mkAuth accounts None AuthSuccess.

(** [POST /api/admin/make-admin/<int:user_id>] *)
Definition make_admin (accounts : list Account.t) (cookie : option Z) (user_id : Z)
    : AuthResult :=
  match cookie with
  | None => mkAuth accounts cookie (AuthError 401 "Not authenticated")
  | Some me =>
      match get_account me accounts with
      | None => mkAuth accounts cookie (AuthRaised "AttributeError")
      | Some current_user =>
          if negb (Account.is_admin current_user) then
            mkAuth accounts cookie (AuthError 403 "Not authorized")
          else
            match get_account user_id accounts with
            | Some _ =>
                mkAuth (update_first (fun a => Account.id a =? user_id)
                          (Account.set_is_admin true) accounts)
                       cookie AuthSuccess
            | None => mkAuth accounts cookie (AuthError 404 "User not found")
            end
      end
  end.

(** [DELETE /api/admin/delete-user/<int:user_id>] *)
Definition delete_user (accounts : list Account.t) (cookie : option Z) (user_id : Z)
    : AuthResult :=
  match cookie with
  | None => mkAuth accounts cookie (AuthError 401 "Not authenticated")
  | Some me =>
      match get_account me accounts with
      | None => mkAuth accounts cookie (AuthRaised "AttributeError")
      | Some current_user =>
          if negb (Account.is_admin current_user) then
            mkAuth accounts cookie (AuthError 403 "Not authorized")
          else
            match get_account user_id accounts with
            | Some user =>
                mkAuth (filter (fun a => negb (Account.id a =? Account.id user)) accounts)
                       cookie AuthSuccess
            | None => mkAuth accounts cookie (AuthError 404 "User not found")
            end
      end
  end.

(** One request to an account route. *)
Inductive AuthEvent :=
| Register (username email password salt : string)
| Login (email password : string)
| Logout
| MakeAdmin (user_id : Z)
| DeleteUser (user_id : Z).

Definition auth_step (accounts : list Account.t) (cookie : option Z) (e : AuthEvent)
    : AuthResult :=
  match e with
  | Register username email password salt =>
      register accounts cookie username email password salt
  | Login email password => login accounts cookie email password
  | Logout => logout accounts cookie
  | MakeAdmin user_id => make_admin accounts cookie user_id
  | DeleteUser user_id => delete_user accounts cookie user_id
  end.

(** The table after a sequence of requests, each made with its caller's
    cookie. *)
Fixpoint auth_run (accounts : list Account.t) (es : list (option Z * AuthEvent))
    : list Account.t :=
  match es with
  | [] => accounts
  | (cookie, e) :: rest => auth_run (accounts_after (auth_step accounts cookie e)) rest
  end.

End Auth.

(** [make_admin.py]: flag the first account with the hard-coded email. *)
Definition make_admin_script (accounts : list Account.t) : list Account.t :=
  update_first (fun a => String.eqb (Account.email a) "hany@hany.com")
    (Account.set_is_admin true) accounts.

(** No two rows share an id, a username or an email. *)
Definition accounts_unique (accounts : list Account.t) : Prop :=
  NoDup (map Account.id accounts) /\
  NoDup (map Account.username accounts) /\
  NoDup (map Account.email accounts).

(** A toy hash for the examples: the password, a dollar sign, the salt. *)
Definition demo_generate (password salt : string) : string :=
  (password ++ "$" ++ salt)%string.

Definition demo_check (pwhash password : string) : bool :=
  String.prefix (password ++ "$")%string pwhash.

(** ** The file tree *)

Set Warnings "-register-all".

(** What [os.scandir] finds in a directory: files, and directories with
    what they hold in turn; [readable] is false when scanning the
    directory raises [PermissionError]. *)
Inductive Entry :=
| FileEntry (name : string)
| DirEntry (name : string) (readable : bool) (entries : list Entry).

Definition entry_name (e : Entry) : string :=
  match e with FileEntry n => n | DirEntry n _ _ => n end.

Definition entry_is_dir (e : Entry) : bool :=
  match e with FileEntry _ => false | DirEntry _ _ _ => true end.

(** An item of the list [get_file_tree] returns; [children] is present
    for directories only. *)
Inductive Item :=
| mkItem (name path : string) (is_dir : bool) (children : option (list Item)).

Definition item_name (i : Item) : string := match i with mkItem n _ _ _ => n end.
Definition item_path (i : Item) : string := match i with mkItem _ p _ _ => p end.
Definition item_is_dir (i : Item) : bool := match i with mkItem _ _ d _ => d end.
Definition item_children (i : Item) : option (list Item) :=
  match i with mkItem _ _ _ c => c end.

(** [name.startswith('.')] *)
Definition startswith_dot (s : string) : bool :=
  match s with
  | String c _ => Ascii.eqb c "."%char
  | EmptyString => false
  end.

(** [s.replace('\\', '/')] *)
Fixpoint slashed (s : string) : string :=
  match s with
  | EmptyString => EmptyString
  | String c rest =>
      String (if Ascii.eqb c "\"%char then "/"%char else c) (slashed rest)
  end.

(** [sorted(xs, key=...)], [leb a b] being [key(a) <= key(b)]: a stable
    insertion sort. *)
Fixpoint insert_sorted {A} (leb : A -> A -> bool) (x : A) (l : list A) : list A :=
  match l with
  | [] => [x]
  | y :: rest => if leb x y then x :: l else y :: insert_sorted leb x rest
  end.

Definition sorted_by {A} (leb : A -> A -> bool) (l : list A) : list A :=
  fold_right (insert_sorted leb) [] l.

Section FileTree.

(** [str.lower] *)
Variable lower : string -> string.

(** [(not is_dir, name.lower())] compared as Python compares tuples. *)
Definition key_leb (d1 : bool) (n1 : string) (d2 : bool) (n2 : string) : bool :=
  if Bool.eqb d1 d2 then String.leb (lower n1) (lower n2) else d1.

Definition entry_leb (a b : Entry) : bool :=
  key_leb (entry_is_dir a) (entry_name a) (entry_is_dir b) (entry_name b).

Definition item_leb (a b : Item) : bool :=
  key_leb (item_is_dir a) (item_name a) (item_is_dir b) (item_name b).

(** The loop of [get_file_tree] on items already built: sort, skip the
    names that start with a dot. *)
Definition listing (items : list Item) : list Item :=
  filter (fun i => negb (startswith_dot (item_name i))) (sorted_by item_leb items).

(** The item built for one entry; [relpath(entry.path, path)] of an entry
    of [path] is its name.  The children are built before they are sorted
    and filtered, which gives the list the loop gives (see
    [listing_follows_the_loop]). *)
Fixpoint item_of (e : Entry) : Item :=
  match e with
  | FileEntry n => mkItem n (slashed n) false None
  | DirEntry n readable entries =>
      mkItem n (slashed n) true
        (Some (if readable then listing (map item_of entries) else []))
  end.

(** [get_file_tree(path)] for a directory that holds [entries]. *)
Definition get_file_tree (readable : bool) (entries : list Entry) : list Item :=
  if readable then listing (map item_of entries) else [].

End FileTree.

(** An item and all the items below it. *)
Fixpoint items_below (i : Item) : list Item :=
  match i with
  | mkItem _ _ _ None => [i]
  | mkItem _ _ _ (Some children) => i :: flat_map items_below children
  end.

(** Below an item: hidden names only at the top, and every list of
    children sorted. *)
Definition tidy_below (lower : string -> string) (top : Item) : Prop :=
  (forall i, In i (items_below top) ->
             i = top \/ startswith_dot (item_name i) = false) /\
  (forall i children,
      In i (items_below top) ->
      item_children i = Some children ->
      StronglySorted (fun a b => item_leb lower a b = true) children).

(** ASCII [lower], for the examples. *)
Definition ascii_lower (c : ascii) : ascii :=
  let n := nat_of_ascii c in
  if ((65 <=? n)%nat && (n <=? 90)%nat)%bool then ascii_of_nat (n + 32) else c.

Fixpoint demo_lower (s : string) : string :=
  match s with
  | EmptyString => EmptyString
  | String c rest => String (ascii_lower c) (demo_lower rest)
  end.

Definition demo_entries : list Entry :=
  [FileEntry "b.py"; FileEntry ".env"; DirEntry "src" true [FileEntry "Z.py"; FileEntry "a.py"];
   DirEntry ".git" true [FileEntry "config"]; FileEntry "README.md";
   DirEntry "locked" false [FileEntry "x"]].

(** ** The admin dashboard *)

(** What [admin_dashboard] returns: the three counters of ['stats'], the
    users as (id, username, email) and the projects by [session_id] (the
    model's project rows carry no id or name), an error JSON with its code,
    or an exception. *)
Inductive DashboardReply :=
| Dashboard (total_users total_projects active_sessions : nat)
    (users : list (Z * string * string)) (project_sessions : list string)
| DashboardError (code : Z) (message : string)
| DashboardRaised (exn : string).

(** [GET /api/admin/dashboard] *)
Definition admin_dashboard (accounts : list Account.t) (w : World) (cookie : option Z)
    : DashboardReply :=
  match cookie with
  | None => DashboardError 401 "Not authenticated"
  | Some me =>
      match get_account me accounts with
      | None => DashboardRaised "AttributeError"
      | Some user =>
          if negb (Account.is_admin user) then DashboardError 403 "Not authorized"
          else
            Dashboard (List.length accounts) (List.length (projects w))
                      (List.length (filter Project.active (projects w)))
                      (map (fun u => (Account.id u, Account.username u, Account.email u))
                         accounts)
                      (map Project.session_id (projects w))
      end
  end.

(** Every participant's color is one of [user_colors]. *)
Definition palette_colors (w : World) : Prop :=
  forall session_id sd u,
    reg_get session_id (active_sessions w) = Some sd ->
    In u (users sd) ->
    In (UserData.color u) user_colors.

(** The rosters' colors after an event come from the roster before or
    from the palette. *)
Definition colors_from (us us' : list UserData.t) : Prop :=
  forall u',
    In u' us' ->
    (exists u, In u us /\ UserData.color u' = UserData.color u) \/
    In (UserData.color u') user_colors.

(** What a join leaves of a participant's record, whatever branch it
    takes. *)
Definition kept_fields (u : UserData.t) : string * string * option string * bool * option string :=
  (UserData.username u, UserData.color u, UserData.current_file u,
   UserData.is_anonymous u, UserData.sessionId u).

(** * Properties *)

(** ** The path check on the demo workspace *)

Example is_safe_path_inside :
  is_safe_path "/srv/app" "/srv/app/workspaces/s1" "src/main.py" = true.
Proof. reflexivity. Qed.

Example is_safe_path_dotdot :
  is_safe_path "/srv/app" "/srv/app/workspaces/s1" "../../secret.txt" = false.
Proof. reflexivity. Qed.

Example is_safe_path_absolute :
  is_safe_path "/srv/app" "/srv/app/workspaces/s1" "/etc/passwd" = false.
Proof. reflexivity. Qed.

(** ** The registry as a dict *)

Lemma reg_get_set_same k v r : reg_get k (reg_set k v r) = Some v.
Proof.
  induction r as [|[k' v'] rest IH]; simpl.
  - now rewrite String.eqb_refl.
  - destruct (String.eqb k' k) eqn:E; simpl; rewrite E; auto.
Qed.

Lemma reg_get_set_other k k' v r :
  k' <> k -> reg_get k' (reg_set k v r) = reg_get k' r.
Proof.
  intros Hne. induction r as [|[k0 v0] rest IH]; simpl.
  - destruct (String.eqb k k') eqn:E; auto.
    apply String.eqb_eq in E. congruence.
  - destruct (String.eqb k0 k) eqn:E; simpl.
    + apply String.eqb_eq in E. subst k0.
      destruct (String.eqb k k') eqn:E'; auto.
      apply String.eqb_eq in E'. congruence.
    + now rewrite IH.
Qed.

Lemma reg_get_set k k' v r :
  reg_get k' (reg_set k v r) = if String.eqb k k' then Some v else reg_get k' r.
Proof.
  destruct (String.eqb k k') eqn:E.
  - apply String.eqb_eq in E. subst. apply reg_get_set_same.
  - apply String.eqb_neq in E. apply reg_get_set_other. congruence.
Qed.

Lemma reg_get_ensure k k' r :
  reg_get k' (reg_ensure k r) =
  if String.eqb k k' then Some (reg_get_or_new k r) else reg_get k' r.
Proof.
  unfold reg_ensure, reg_get_or_new.
  destruct (reg_get k r) eqn:G.
  - destruct (String.eqb k k') eqn:E; auto.
    apply String.eqb_eq in E. now subst.
  - apply reg_get_set.
Qed.

Lemma reg_set_ensure k v r : reg_set k v (reg_ensure k r) = reg_set k v r.
Proof.
  unfold reg_ensure. destruct (reg_get k r) eqn:G; auto.
  induction r as [|[k0 v0] rest IH]; simpl in *.
  - now rewrite String.eqb_refl.
  - destruct (String.eqb k0 k) eqn:E; [discriminate|].
    simpl. rewrite E. now rewrite IH.
Qed.

Lemma reg_get_or_new_some k r sd :
  reg_get k r = Some sd -> reg_get_or_new k r = sd.
Proof. unfold reg_get_or_new. now intros ->. Qed.

Lemma reg_get_or_new_set k v r : reg_get_or_new k (reg_set k v r) = v.
Proof. unfold reg_get_or_new. now rewrite reg_get_set_same. Qed.

Lemma reg_get_In k r sd : reg_get k r = Some sd -> In (k, sd) r.
Proof.
  induction r as [|[k0 v0] rest IH]; simpl; [discriminate|].
  destruct (String.eqb k0 k) eqn:E.
  - apply String.eqb_eq in E. intros [= ->]. subst. now left.
  - intros H. right. auto.
Qed.

(** ** Lists: [find], [filter], [update_first] *)

Lemma opt_eqb_eq x y : opt_eqb x y = true <-> x = y.
Proof.
  destruct x, y; simpl; split; try congruence; try discriminate.
  - intros H. apply String.eqb_eq in H. now subst.
  - intros [= ->]. apply String.eqb_refl.
Qed.

Lemma opt_eqb_refl x : opt_eqb x x = true.
Proof. now apply opt_eqb_eq. Qed.

Lemma update_first_length {A} (p : A -> bool) f xs :
  List.length (update_first p f xs) = List.length xs.
Proof.
  induction xs as [|x rest IH]; simpl; auto.
  destruct (p x); simpl; auto.
Qed.

Lemma update_first_split {A} (p : A -> bool) f l1 x l2 :
  (forall y, In y l1 -> p y = false) -> p x = true ->
  update_first p f (l1 ++ x :: l2) = l1 ++ f x :: l2.
Proof.
  intros Hl1 Hx. induction l1 as [|y l1 IH]; simpl.
  - now rewrite Hx.
  - rewrite (Hl1 y) by now left. f_equal. apply IH.
    intros z Hz. apply Hl1. now right.
Qed.

Lemma find_split {A} (p : A -> bool) l1 x l2 :
  (forall y, In y l1 -> p y = false) -> p x = true ->
  find p (l1 ++ x :: l2) = Some x.
Proof.
  intros Hl1 Hx. induction l1 as [|y l1 IH]; simpl.
  - now rewrite Hx.
  - rewrite (Hl1 y) by now left. apply IH.
    intros z Hz. apply Hl1. now right.
Qed.

Lemma filter_update_first {A} (q p : A -> bool) f xs :
  (forall x, q (f x) = q x) ->
  List.length (filter q (update_first p f xs)) = List.length (filter q xs).
Proof.
  intros Hq. induction xs as [|x rest IH]; simpl; auto.
  destruct (p x); simpl.
  - rewrite Hq. destruct (q x); simpl; auto.
  - destruct (q x); simpl; auto.
Qed.

Lemma filter_filter_length {A} (q p : A -> bool) xs :
  (List.length (filter q (filter p xs)) <= List.length (filter q xs))%nat.
Proof.
  induction xs as [|x rest IH]; simpl; auto.
  destruct (p x); simpl; destruct (q x); simpl; lia.
Qed.

Lemma find_none_filter {A} (p : A -> bool) xs :
  find p xs = None -> filter p xs = [].
Proof.
  induction xs as [|x rest IH]; simpl; auto.
  destruct (p x); [discriminate|auto].
Qed.

Lemma filter_length_le {A} (p : A -> bool) xs :
  (List.length (filter p xs) <= List.length xs)%nat.
Proof.
  induction xs as [|x rest IH]; simpl; auto.
  destruct (p x); simpl; lia.
Qed.

Lemma find_remove_approval approval_id (q : Approval.t -> bool) ps :
  find (fun a => (String.eqb (Approval.id a) approval_id && q a)%bool)
       (remove_approval approval_id ps) = None.
Proof.
  induction ps as [|a rest IH]; simpl; auto.
  destruct (String.eqb (Approval.id a) approval_id) eqn:E; simpl; auto.
  now rewrite E.
Qed.

Lemma remove_approval_not_in approval_id ps a :
  In a (remove_approval approval_id ps) -> Approval.id a <> approval_id.
Proof.
  unfold remove_approval. rewrite filter_In. intros [_ H] Heq.
  subst. now rewrite String.eqb_refl in H.
Qed.

(** ** Resolving a write approval *)

(** Away from the invalid-path return, [handle_approval_response] ends in
    its common tail: the entry is dropped and the room is told. *)
Lemma approval_response_tail w rq session_id approval_id approved io sd approval :
  reg_get session_id (active_sessions w) = Some sd ->
  find (fun a => String.eqb (Approval.id a) approval_id) (pending_approvals sd) = Some approval ->
  (approved = false \/ Approval.is_join approval = true \/
   exists project path content user,
     approval = Approval.Save (Approval.id approval) path content user /\
     find_project w session_id = Some project /\
     is_safe_path (cwd w) (Project.workspace_path project) path = true) ->
  let r := handle_approval_response w rq session_id approval_id approved io in
  (exists es, emits r = es ++ [emit_room session_id (approval_result approval_id approved)]) /\
  pending (world r) session_id = remove_approval approval_id (pending_approvals sd) /\
  reply r = Done.
Proof.
  intros G F H. unfold handle_approval_response, pending. rewrite G, F.
  destruct approval as [i p c u | i u an ident s].
  - destruct approved.
    + destruct H as [H | [H | (project & path & content & user & E & P & S)]];
        try discriminate.
      injection E as -> -> ->. rewrite P, S. simpl.
      destruct io; simpl; unfold reg_get_or_new; rewrite reg_get_set_same; simpl;
        repeat split; now eexists [_].
    + simpl. unfold reg_get_or_new. rewrite reg_get_set_same. simpl.
      repeat split. now exists [].
  - simpl. unfold reg_get_or_new. rewrite reg_get_set_same. simpl.
    repeat split. now exists [].
Qed.

(** C1, at the failing input: the admin approves a pending save whose path
    leaves the workspace.  The handler sends the admin a private
    "Invalid path" error and returns: no [approval_result] is emitted and
    the approval is still pending. *)
Theorem approval_response_invalid_path_returns_early :
  let w := Demo.w_outside_pending in
  let r := handle_approval_response w Demo.alice Demo.s1 "a1" true (Written 7) in
  pending w Demo.s1 = [Approval.Save "a1" "../../secret.txt" "x=1" "bob"] /\
  emits r = [emit_self Demo.alice (error "Invalid path")] /\
  pending (world r) Demo.s1 = [Approval.Save "a1" "../../secret.txt" "x=1" "bob"] /\
  world r = w.
Proof. vm_compute. repeat split. Qed.

(** C10: the write-resolution handler looks the approval up by id alone.
    Given the id of a pending join-kind entry it drops that entry and tells
    the room the result, whatever [approved] is; the roster and the files
    are untouched and the requester gets neither [join_approved] nor
    [join_rejected]. *)
Theorem approval_response_takes_join_entry :
  forall w rq session_id approval_id approved io sd i u an ident s,
    reg_get session_id (active_sessions w) = Some sd ->
    find (fun a => String.eqb (Approval.id a) approval_id) (pending_approvals sd)
      = Some (Approval.Join i u an ident s) ->
    let r := handle_approval_response w rq session_id approval_id approved io in
    emits r = [emit_room session_id (approval_result approval_id approved)] /\
    pending (world r) session_id = remove_approval approval_id (pending_approvals sd) /\
    ~ In (Approval.Join i u an ident s) (pending (world r) session_id) /\
    Forall (fun e => is_join_notice (payload e) = false) (emits r) /\
    roster (world r) session_id = users sd /\
    files (world r) = files w /\
    reply r = Done.
Proof.
  intros w rq session_id approval_id approved io sd i u an ident s G F.
  assert (Hid : i = approval_id).
  { apply find_some in F. destruct F as [_ F]. simpl in F.
    now apply String.eqb_eq in F. }
  unfold handle_approval_response, pending, roster. rewrite G, F. simpl.
  unfold reg_get_or_new. rewrite reg_get_set_same. simpl.
  repeat split; auto.
  intros Hin. apply remove_approval_not_in in Hin. simpl in Hin. congruence.
Qed.

Lemma approval_response_takes_join_entry_witness :
  let r := handle_approval_response Demo.w_waiting Demo.alice Demo.s1 "j1" false (Written 0) in
  emits r = [emit_room Demo.s1 (approval_result "j1" false)] /\
  pending (world r) Demo.s1 = [].
Proof.
  pose proof (@approval_response_takes_join_entry Demo.w_waiting Demo.alice Demo.s1 "j1" false
                (Written 0)
                (mkSession (roster Demo.w_waiting Demo.s1) (pending Demo.w_waiting Demo.s1))
                "j1" "bob" true (Some "tab-b") "conn-b" eq_refl eq_refl) as H.
  destruct H as (He & Hp & _). split; [exact He | exact Hp].
Defined.

(** ** The disconnection sweep *)

Lemma user_by_sid_none sid us :
  (forall u, In u us -> UserData.sid u <> sid) -> user_by_sid sid us = None.
Proof.
  intros H. unfold user_by_sid.
  destruct (find _ us) as [u|] eqn:F; auto.
  apply find_some in F. destruct F as [Hin E].
  apply String.eqb_eq in E. now apply H in Hin.
Qed.

Lemma purge_sid_clean sid ps a :
  In a (purge_sid sid ps) -> Approval.get_sid a <> Some sid.
Proof.
  unfold purge_sid. rewrite filter_In. intros [_ H] E.
  rewrite E, opt_eqb_refl in H. discriminate.
Qed.

(** When no roster holds the sid, the loop reaches every session and
    purges each pending list. *)
Lemma disconnect_loop_purges rq reg :
  (forall k sd u, In (k, sd) reg -> In u (users sd) -> UserData.sid u <> req_sid rq) ->
  forall k sd a,
    In (k, sd) (fst (disconnect_loop rq reg)) ->
    In a (pending_approvals sd) ->
    Approval.get_sid a <> Some (req_sid rq).
Proof.
  induction reg as [|[k0 sd0] rest IH]; intros Hno k sd a Hin Ha; simpl in Hin.
  - contradiction.
  - rewrite user_by_sid_none in Hin
      by (intros u Hu; apply (Hno k0 sd0 u); [now left | exact Hu]).
    destruct (disconnect_loop rq rest) as [rest' es] eqn:L. simpl in Hin, IH.
    destruct Hin as [Heq | Hin].
    + injection Heq as <- <-. simpl in Ha. now apply purge_sid_clean in Ha.
    + eapply IH; eauto.
      intros k1 sd1 u H1 H2. apply (Hno k1 sd1 u); [now right | exact H2].
Qed.

(** The purge is complete when the dropped connection is in no roster. *)
Lemma disconnect_purges_when_not_in_roster w rq :
  ~ connected_somewhere w (req_sid rq) ->
  ~ dangling_approval (world (handle_disconnect w rq)) (req_sid rq).
Proof.
  intros Hno (k & sd & a & G & Ha & E).
  unfold handle_disconnect in G.
  destruct (disconnect_loop rq (active_sessions w)) as [reg' es] eqn:L. simpl in G.
  apply reg_get_In in G.
  assert (H : In (k, sd) (fst (disconnect_loop rq (active_sessions w)))) by now rewrite L.
  eapply disconnect_loop_purges in H; eauto.
  intros k1 sd1 u H1 H2 H3. apply Hno. now exists k1, sd1, u.
Qed.

(** C2, at the failing input: connection conn-b is in the roster of s1 and
    also holds a pending join approval there.  On its disconnect the loop
    removes the participant and breaks, so the purge is skipped: the
    approval whose ['sid'] is conn-b is still pending afterwards. *)
Theorem disconnect_break_skips_purge :
  let w := Demo.w_bob_twice in
  let r := handle_disconnect w Demo.bob in
  pending w Demo.s1 = [Approval.Join "j2" "bob" true (Some "tab-b2") "conn-b"] /\
  emits r = [emit_others Demo.bob Demo.s1 (user_left "conn-b" "bob")] /\
  map UserData.sid (roster (world r) Demo.s1) = ["conn-a"] /\
  pending (world r) Demo.s1 = [Approval.Join "j2" "bob" true (Some "tab-b2") "conn-b"] /\
  dangling_approval (world r) "conn-b".
Proof.
  repeat split; try (vm_compute; reflexivity).
  exists Demo.s1, (reg_get_or_new Demo.s1 (active_sessions (world (handle_disconnect Demo.w_bob_twice Demo.bob)))),
    (Approval.Join "j2" "bob" true (Some "tab-b2") "conn-b").
  repeat split; vm_compute; auto.
Qed.

(** ** Resolving a join approval *)

(** C5: once [handle_join_approval_response] has run to completion for an
    approval id, no join-kind entry with that id is pending in the session,
    and a second call with the same id (whatever its verdict) emits
    nothing and changes nothing. *)
Theorem join_approval_resolved_once :
  forall w rq1 rq2 session_id approval_id approved1 approved2 draw1 draw2 connected1 connected2,
    let r1 := handle_join_approval_response w rq1 session_id approval_id approved1 draw1
                connected1 in
    reply r1 = Done ->
    let r2 := handle_join_approval_response (world r1) rq2 session_id approval_id
                approved2 draw2 connected2 in
    find (fun a => (String.eqb (Approval.id a) approval_id && Approval.is_join a)%bool)
         (pending (world r1) session_id) = None /\
    emits r2 = [] /\ world r2 = world r1 /\ reply r2 = Done.
Proof.
  intros w rq1 rq2 session_id approval_id approved1 approved2 draw1 draw2
         connected1 connected2 r1 Hdone r2.
  assert (Hnone : find (fun a => (String.eqb (Approval.id a) approval_id
                                  && Approval.is_join a)%bool)
                       (pending (world r1) session_id) = None).
  { subst r1. unfold handle_join_approval_response, pending, reg_get_or_new in *.
    destruct (reg_get session_id (active_sessions w)) as [sd|] eqn:G; simpl.
    - destruct (find _ (pending_approvals sd)) as [[?|? ? ? ? ?]|] eqn:F; simpl in *.
      + discriminate.
      + destruct approved1.
        * destruct (find_project w session_id) as [project|]; [|discriminate].
          destruct (len_ge _ _); [|destruct connected1; [|discriminate]];
            simpl; rewrite reg_get_set_same; simpl; apply find_remove_approval.
        * simpl. rewrite reg_get_set_same. simpl. apply find_remove_approval.
      + now rewrite G.
    - now rewrite G. }
  split; [exact Hnone|].
  subst r2. unfold handle_join_approval_response at 1 2 3.
  unfold pending, reg_get_or_new in Hnone.
  destruct (reg_get session_id (active_sessions (world r1))) as [sd1|]; auto.
  rewrite Hnone. auto.
Qed.

Lemma join_approval_resolved_once_witness :
  let r1 := handle_join_approval_response Demo.w_waiting Demo.alice Demo.s1 "j1" true 1%nat
              true in
  let r2 := handle_join_approval_response (world r1) Demo.alice Demo.s1 "j1" false 0%nat
              true in
  emits r2 = [] /\ world r2 = world r1.
Proof.
  pose proof (@join_approval_resolved_once Demo.w_waiting Demo.alice Demo.alice Demo.s1 "j1"
                true false 1%nat 0%nat true true eq_refl) as H.
  destruct H as (_ & He & Hw & _). split; [exact He | exact Hw].
Defined.

(** ** Fan-out *)

Lemma delivered_emit_room rm r payload c :
  delivered rm (emit_room r payload) c = in_room rm r c.
Proof. unfold delivered, emit_room. simpl. apply andb_true_r. Qed.

Lemma in_room_join_same rm r c : in_room (join_room r c rm) r c = true.
Proof.
  unfold in_room, join_room.
  destruct (existsb _ rm) eqn:Ex.
  - rewrite Ex. apply orb_true_r.
  - rewrite existsb_app. simpl. rewrite !String.eqb_refl. simpl.
    rewrite orb_true_r. apply orb_true_r.
Qed.

Lemma in_room_join_mono rm r c r' c' :
  in_room rm r c = true -> in_room (join_room r' c' rm) r c = true.
Proof.
  unfold in_room, join_room. intros H.
  destruct (existsb (fun m => (String.eqb (fst m) r' && String.eqb (snd m) c')%bool) rm);
    auto.
  rewrite existsb_app. apply orb_true_iff in H. destruct H as [H | H].
  - rewrite H. reflexivity.
  - rewrite H. simpl. apply orb_true_r.
Qed.

Lemma in_room_leave rm r c : r <> c -> in_room (leave_room r c rm) r c = false.
Proof.
  intros H. unfold in_room, leave_room.
  apply String.eqb_neq in H. rewrite H. simpl.
  induction rm as [|m rest IH]; simpl; auto.
  destruct (String.eqb (fst m) r && String.eqb (snd m) c)%bool eqn:E; simpl; auto.
  now rewrite E.
Qed.

(** C9, as the code has it: whatever [cursor_move] emits is withheld from
    the connection that sent it, in any room configuration.  [file_open]
    emits one [user_file_change], addressed to the session room with no
    sender exclusion, and leaves the rooms as they are: the connections it
    is delivered to are the members of that room, so it comes back to the
    sender exactly when the sender is one.  A connection that
    [join_session] answered with [user_connected], or that an approval
    sent [join_approved], is a member and gets its own [user_file_change];
    one that has left a session of the registry (a room not named like
    the sid) does not. *)
Theorem cursor_excludes_sender_file_open_reaches_room :
  forall w rq session_id,
    (forall position file rm e,
        In e (emits (handle_cursor_move w rq session_id position file)) ->
        delivered rm e (req_sid rq) = false) /\
    (forall file_path,
        let r := handle_file_open w rq session_id file_path in
        rooms (world r) = rooms w /\
        emits r = [emit_room session_id (user_file_change (req_sid rq) file_path)] /\
        forall e c, In e (emits r) -> delivered (rooms w) e c = in_room (rooms w) session_id c) /\
    (forall username anon ident draw token u file_path e,
        let r1 := handle_join_session w rq session_id username anon ident draw token in
        In (emit_self rq (user_connected u)) (emits r1) ->
        In e (emits (handle_file_open (world r1) rq session_id file_path)) ->
        delivered (rooms (world r1)) e (req_sid rq) = true) /\
    (forall approver approval_id approved draw connected u file_path e,
        let r1 := handle_join_approval_response w approver session_id approval_id approved draw
                    connected in
        In (emit_room (req_sid rq) (join_approved u)) (emits r1) ->
        In e (emits (handle_file_open (world r1) rq session_id file_path)) ->
        delivered (rooms (world r1)) e (req_sid rq) = true) /\
    (forall file_path e,
        let r1 := handle_leave_session w rq session_id in
        reg_get session_id (active_sessions w) <> None ->
        session_id <> req_sid rq ->
        In e (emits (handle_file_open (world r1) rq session_id file_path)) ->
        delivered (rooms (world r1)) e (req_sid rq) = false).
Proof.
  intros w rq session_id.
  assert (Open : forall w1 file_path e,
             In e (emits (handle_file_open w1 rq session_id file_path)) ->
             e = emit_room session_id (user_file_change (req_sid rq) file_path)).
  { intros w1 file_path e [<- | []]. reflexivity. }
  split; [|split; [|split; [|split]]].
  - intros position file rm e Hin. unfold handle_cursor_move in Hin.
    destruct (reg_get session_id (active_sessions w)) as [sd|]; simpl in Hin; [|contradiction].
    destruct (user_by_sid (req_sid rq) (users sd)); simpl in Hin; [|contradiction].
    destruct Hin as [<-|[]]. unfold delivered, emit_others. simpl.
    rewrite String.eqb_refl. apply andb_false_r.
  - intros file_path. split; [|split].
    + unfold handle_file_open. simpl.
      destruct (reg_get session_id (active_sessions w)); reflexivity.
    + reflexivity.
    + intros e c Hin. apply Open in Hin. subst e. apply delivered_emit_room.
  - intros username anon ident draw token u file_path e r1 Hc Hin.
    apply Open in Hin. subst e. rewrite delivered_emit_room.
    subst r1. revert Hc. unfold handle_join_session.
    destruct (find_project w session_id) as [project|];
      [|intros [Hc|[]]; discriminate Hc].
    destruct (negb (Project.active project)); [intros [Hc|[]]; discriminate Hc|].
    set (sd := reg_get_or_new session_id (active_sessions w)).
    destruct (find (pending_join ident) (pending_approvals sd)) eqn:FP;
      [intros [Hc|[]]; discriminate Hc|].
    destruct (find (same_identity ident) (users sd)).
    { intros _. simpl.
      destruct (is_project_admin (req_user_id rq) project);
        [apply in_room_join_mono|]; apply in_room_join_same. }
    destruct (is_project_admin (req_user_id rq) project).
    + destruct (len_ge (users sd) (Project.max_users project));
        [intros [Hc|[]]; discriminate Hc|].
      intros _. simpl. apply in_room_join_mono, in_room_join_same.
    + destruct (len_ge (users sd) (Project.max_users project));
        [intros [Hc|[]]; discriminate Hc|].
      intros [Hc|[Hc|[]]]; discriminate Hc.
  - intros approver approval_id approved draw connected u file_path e r1 Hc Hin.
    apply Open in Hin. subst e. rewrite delivered_emit_room.
    subst r1. revert Hc. unfold handle_join_approval_response.
    destruct (reg_get session_id (active_sessions w)) as [sd|]; [|intros []].
    destruct (find _ (pending_approvals sd)) as [[?|i a_username an a_ident s]|];
      try (intros []).
    destruct approved.
    + destruct (find_project w session_id) as [project|]; [|intros []].
      destruct (len_ge _ _); [intros [Hc|[]]; discriminate Hc|].
      destruct connected; [|intros []].
      intros [Hc|[Hc|[Hc|[]]]]; try discriminate Hc.
      injection Hc as _ Hs. simpl. rewrite Hs. apply in_room_join_same.
    + intros [Hc|[]]. discriminate Hc.
  - intros file_path e r1 G Hne Hin.
    apply Open in Hin. subst e. rewrite delivered_emit_room.
    subst r1. unfold handle_leave_session.
    destruct (reg_get session_id (active_sessions w)) as [sd|]; [|congruence].
    destruct (user_by_sid (req_sid rq) (users sd)); simpl; now apply in_room_leave.
Qed.

Lemma cursor_excludes_sender_file_open_reaches_room_witness :
  let w1 := world (handle_join_session Demo.w0 Demo.alice Demo.s1 "alice" false (Some "tab-a")
                     0%nat "t0") in
  delivered (rooms w1) (emit_room Demo.s1 (user_file_change "conn-a" "main.py")) "conn-a" = true.
Proof.
  destruct (@cursor_excludes_sender_file_open_reaches_room Demo.w0 Demo.alice Demo.s1)
    as (_ & _ & H & _).
  apply (H "alice" false (Some "tab-a") 0%nat "t0"
           (UserData.mk "conn-a" "alice" "#FF6B6B" None false (Some "tab-a") true) "main.py").
  - left. reflexivity.
  - left. reflexivity.
Defined.

(** C9 as stated fails for a sender outside the room: Bob, whose join
    request is still pending, sends [file_open]; the broadcast reaches the
    room's member and does not come back to Bob. *)
Lemma file_open_from_outside_the_room :
  let w := Demo.w_waiting in
  let r := handle_file_open w Demo.bob Demo.s1 "main.py" in
  pending w Demo.s1 = [Approval.Join "j1" "bob" true (Some "tab-b") "conn-b"] /\
  emits r = [emit_room Demo.s1 (user_file_change "conn-b" "main.py")] /\
  map (fun e => delivered (rooms (world r)) e "conn-b") (emits r) = [false] /\
  map (fun e => delivered (rooms (world r)) e "conn-a") (emits r) = [true].
Proof. repeat split; reflexivity. Qed.

(** ** Saving a file *)

Ltac break_match :=
  match goal with
  | |- context [match ?x with _ => _ end] => destruct x eqn:?
  end.

(** Only an admin's [save_file] and an approving [approval_response] on a
    pending save entry ever write a file. *)
Lemma files_written_only_by w e :
  files (world (step w e)) <> files w ->
  (exists uid s path content user_info token io project,
      e = SaveFile uid s path content user_info token io /\
      find_project w s = Some project /\
      is_project_admin uid project = true) \/
  (exists rq s a io sd i path content user,
      e = ApprovalResponse rq s a true io /\
      reg_get s (active_sessions w) = Some sd /\
      find (fun x => String.eqb (Approval.id x) a) (pending_approvals sd)
        = Some (Approval.Save i path content user)).
Proof.
  intros H. destruct e; simpl in H.
  - unfold save_file in H.
    destruct (find_project w session_id) as [project|] eqn:P; [|now elim H].
    destruct (is_project_admin uid project) eqn:A; [|now elim H].
    left. now exists uid, session_id, path, content, user_info, token, io, project.
  - exfalso. apply H. unfold kick_user. repeat break_match; reflexivity.
  - exfalso. apply H. unfold close_session. repeat break_match; reflexivity.
  - exfalso. apply H. unfold handle_join_session. repeat break_match; reflexivity.
  - exfalso. apply H. unfold handle_join_approval_response. repeat break_match; reflexivity.
  - exfalso. apply H. unfold handle_leave_session. repeat break_match; reflexivity.
  - exfalso. apply H. unfold handle_cursor_move. repeat break_match; reflexivity.
  - exfalso. apply H. reflexivity.
  - exfalso. apply H. unfold handle_file_open. repeat break_match; reflexivity.
  - exfalso. apply H. reflexivity.
  - unfold handle_approval_response in H.
    destruct (reg_get session_id (active_sessions w)) as [sd|] eqn:G; [|now elim H].
    destruct (find _ (pending_approvals sd)) as [[i p c u|? ? ? ? ?]|] eqn:F;
      try now elim H.
    destruct approved; [|now elim H].
    right. now exists rq, session_id, approval_id, io, sd, i, p, c, u.
  - exfalso. apply H. unfold handle_disconnect. repeat break_match; reflexivity.
Qed.

(** C4: an admin's save leaves the registry as it is (no approval is
    created) and, the path being inside the workspace and the write
    succeeding, writes the file and broadcasts [file_saved] to the room.  A
    non-admin's save appends one save-kind approval and leaves the files as
    they are.  Among the events of [Event], one that changes the files is
    an admin's save or an [approval_response] with [approved = true] on a
    pending save entry. *)
Theorem save_file_gating :
  (forall w uid session_id path content user_info token io project,
      find_project w session_id = Some project ->
      is_project_admin uid project = true ->
      let r := save_file w uid session_id path content user_info token io in
      active_sessions (world r) = active_sessions w /\
      (forall mtime,
          is_safe_path (cwd w) (Project.workspace_path project) path = true ->
          io = Written mtime ->
          read_file (cwd w) (posixpath.join (Project.workspace_path project) path)
            (files (world r)) = Some content /\
          emits r = [emit_room session_id (file_saved path user_info content mtime)])) /\
  (forall w uid session_id path content user_info token io project,
      find_project w session_id = Some project ->
      is_project_admin uid project = false ->
      let r := save_file w uid session_id path content user_info token io in
      pending (world r) session_id =
        pending w session_id ++ [Approval.Save token path content user_info] /\
      roster (world r) session_id = roster w session_id /\
      files (world r) = files w /\
      reply r = Http 200 "status" "pending_approval") /\
  (forall w e,
      files (world (step w e)) <> files w ->
      (exists uid s path content user_info token io project,
          e = SaveFile uid s path content user_info token io /\
          find_project w s = Some project /\
          is_project_admin uid project = true) \/
      (exists rq s a io sd i path content user,
          e = ApprovalResponse rq s a true io /\
          reg_get s (active_sessions w) = Some sd /\
          find (fun x => String.eqb (Approval.id x) a) (pending_approvals sd)
            = Some (Approval.Save i path content user))).
Proof.
  split; [|split].
  - intros w uid session_id path content user_info token io project P A r.
    subst r. unfold save_file. rewrite P, A. split.
    + repeat break_match; reflexivity.
    + intros mtime S ->. rewrite S. simpl. split; auto.
      unfold read_file, write_file.
      generalize (posixpath.abspath (cwd w)
                    (posixpath.join (Project.workspace_path project) path)) as key.
      intros key. induction (files w) as [|[p c] rest IH]; simpl.
      * now rewrite String.eqb_refl.
      * destruct (String.eqb p key) eqn:E; simpl; rewrite E; auto.
  - intros w uid session_id path content user_info token io project P A r.
    subst r. unfold save_file, pending, roster. rewrite P, A. simpl.
    rewrite reg_set_ensure, !reg_get_or_new_set. simpl. auto.
  - apply files_written_only_by.
Qed.

Lemma save_file_gating_witness :
  pending (world (save_file Demo.w_joined None Demo.s1 "main.py" "x=1" "bob" "a1" (Written 0)))
          Demo.s1
  = [Approval.Save "a1" "main.py" "x=1" "bob"].
Proof.
  destruct save_file_gating as (_ & H & _).
  destruct (H Demo.w_joined None Demo.s1 "main.py" "x=1" "bob" "a1" (Written 0)
              Demo.project1 eq_refl eq_refl) as (Hp & _).
  exact Hp.
Defined.

(** ** What one event does to one session *)

Lemma reg_get_or_new_set_if k k' v r :
  reg_get_or_new k' (reg_set k v r) = if String.eqb k k' then v else reg_get_or_new k' r.
Proof.
  unfold reg_get_or_new. rewrite reg_get_set. now destruct (String.eqb k k').
Qed.

Lemma reg_get_or_new_ensure k k' r :
  reg_get_or_new k' (reg_ensure k r) = reg_get_or_new k' r.
Proof.
  unfold reg_get_or_new at 1. rewrite reg_get_ensure.
  destruct (String.eqb k k') eqn:E; auto.
  apply String.eqb_eq in E. now subst.
Qed.

Lemma len_ge_false {A} (xs : list A) n :
  len_ge xs n = false -> Z.of_nat (List.length xs) < n.
Proof. unfold len_ge. intros H. apply Z.leb_gt in H. lia. Qed.

Lemma disconnect_loop_change w k rq reg :
  session_change w k (reg_get_or_new k reg)
    (reg_get_or_new k (fst (disconnect_loop rq reg))).
Proof.
  induction reg as [|[k0 sd0] rest IH]; simpl.
  - constructor.
  - destruct (user_by_sid (req_sid rq) (users sd0)) as [u|].
    + simpl. unfold reg_get_or_new. simpl.
      destruct (String.eqb k0 k); [apply sc_remove_user | constructor].
    + destruct (disconnect_loop rq rest) as [rest' es]. simpl in *.
      unfold reg_get_or_new in *. simpl.
      destruct (String.eqb k0 k); [apply sc_filter_pending | exact IH].
Qed.

(** A handler rewrote session [s] of the registry: seen from key [k]. *)
Ltac at_key s k :=
  rewrite ?reg_set_ensure, reg_get_or_new_set_if;
  let E := fresh "E" in
  destruct (String.eqb s k) eqn:E;
  [apply String.eqb_eq in E; subst k | apply sc_same].

Lemma step_session_change w e k :
  finds_connection e = true ->
  session_change w k (reg_get_or_new k (active_sessions w))
    (reg_get_or_new k (active_sessions (world (step w e)))).
Proof.
  intros Hc. destruct e; simpl in *.
  - (* save_file *)
    unfold save_file.
    destruct (find_project w session_id) as [project|]; [|apply sc_same].
    destruct (is_project_admin uid project).
    + repeat break_match; apply sc_same.
    + simpl. at_key session_id k. apply sc_request_save.
  - (* kick_user *)
    unfold kick_user.
    destruct uid as [u|]; [|apply sc_same].
    destruct (find_project w session_id) as [project|]; [|apply sc_same].
    destruct (negb (u =? Project.admin_id project)); [apply sc_same|].
    destruct (reg_get session_id (active_sessions w)) as [sd|] eqn:G; [|apply sc_same].
    destruct (user_by_sid sid (users sd)); [|apply sc_same].
    simpl. at_key session_id k. rewrite (reg_get_or_new_some _ _ G). apply sc_remove_user.
  - (* close_session *)
    unfold close_session. repeat break_match; apply sc_same.
  - (* join_session *)
    unfold handle_join_session.
    destruct (find_project w session_id) as [project|] eqn:P; [|apply sc_same].
    destruct (negb (Project.active project)); [apply sc_same|].
    set (sd := reg_get_or_new session_id (active_sessions w)).
    destruct (find (pending_join user_session_id) (pending_approvals sd)) eqn:FP.
    { simpl. at_key session_id k. apply sc_rewrite_pending. }
    destruct (find (same_identity user_session_id) (users sd)) eqn:FU.
    { simpl. at_key session_id k. apply sc_rewrite_user.
      intros u. destruct (is_project_admin (req_user_id rq) project); reflexivity. }
    destruct (is_project_admin (req_user_id rq) project).
    + destruct (len_ge (users sd) (Project.max_users project)) eqn:L; simpl.
      * rewrite reg_get_or_new_ensure. apply sc_same.
      * at_key session_id k. apply len_ge_false in L.
        eapply sc_enter_direct; eauto.
    + destruct (len_ge (users sd) (Project.max_users project)) eqn:L; simpl.
      * rewrite reg_get_or_new_ensure. apply sc_same.
      * at_key session_id k. now apply sc_request_join.
  - (* join_approval_response *)
    unfold handle_join_approval_response.
    destruct (reg_get session_id (active_sessions w)) as [sd|] eqn:G; [|apply sc_same].
    destruct (find _ (pending_approvals sd)) as [[?|i u an ident s]|] eqn:F;
      try apply sc_same.
    destruct approved.
    + destruct (find_project w session_id) as [project|] eqn:P; [|apply sc_same].
      destruct (len_ge (users sd) (Project.max_users project)) eqn:L; simpl.
      * at_key session_id k. rewrite (reg_get_or_new_some _ _ G).
        apply sc_filter_pending.
      * subst connected. simpl.
        at_key session_id k. rewrite (reg_get_or_new_some _ _ G).
        apply len_ge_false in L.
        eapply sc_enter_approved with (u := UserData.mk s u (assign_color draw) None an ident false);
          eauto.
    + simpl. at_key session_id k. rewrite (reg_get_or_new_some _ _ G).
      apply sc_filter_pending.
  - (* leave_session *)
    unfold handle_leave_session.
    destruct (reg_get session_id (active_sessions w)) as [sd|] eqn:G; [|apply sc_same].
    destruct (user_by_sid (req_sid rq) (users sd)); simpl;
      at_key session_id k; rewrite (reg_get_or_new_some _ _ G); apply sc_remove_user.
  - (* cursor_move *)
    unfold handle_cursor_move. repeat break_match; apply sc_same.
  - (* file_change *)
    apply sc_same.
  - (* file_open *)
    unfold handle_file_open.
    destruct (reg_get session_id (active_sessions w)) as [sd|] eqn:G; [|apply sc_same].
    simpl. at_key session_id k. rewrite (reg_get_or_new_some _ _ G).
    now apply sc_rewrite_user.
  - (* chat_message *)
    apply sc_same.
  - (* approval_response *)
    unfold handle_approval_response.
    destruct (reg_get session_id (active_sessions w)) as [sd|] eqn:G; [|apply sc_same].
    destruct (find _ (pending_approvals sd)) as [approval|]; [|apply sc_same].
    assert (T : forall w1,
               active_sessions w1 = active_sessions w ->
               session_change w k (reg_get_or_new k (active_sessions w))
                 (reg_get_or_new k
                    (active_sessions
                       (set_sessions
                          (reg_set session_id
                             (mkSession (users sd)
                                (remove_approval approval_id (pending_approvals sd)))
                             (active_sessions w1)) w1)))).
    { intros w1 ->. simpl. at_key session_id k.
      rewrite (reg_get_or_new_some _ _ G). apply sc_filter_pending. }
    destruct approval as [i p c u | i u an ident s].
    + destruct approved; [|now apply T].
      destruct (find_project w session_id) as [project|]; [|apply sc_same].
      destruct (negb (is_safe_path _ _ _)); [apply sc_same|].
      destruct io; now apply T.
    + now apply T.
  - (* disconnect *)
    unfold handle_disconnect.
    pose proof (disconnect_loop_change w k rq (active_sessions w)) as H.
    destruct (disconnect_loop rq (active_sessions w)) as [reg' es]. exact H.
Qed.

(** With the approval that [enter_room] cuts short. *)
Lemma step_session_step w e k :
  session_step w k (reg_get_or_new k (active_sessions w))
    (reg_get_or_new k (active_sessions (world (step w e)))).
Proof.
  destruct (finds_connection e) eqn:Hc.
  - apply ss_change. now apply step_session_change.
  - destruct e; try discriminate. simpl in Hc. subst connected. simpl.
    unfold handle_join_approval_response.
    destruct (reg_get session_id (active_sessions w)) as [sd|] eqn:G;
      [|apply ss_change, sc_same].
    destruct (find _ (pending_approvals sd)) as [[?|i u an ident s]|] eqn:F;
      try apply ss_change, sc_same.
    destruct approved.
    + destruct (find_project w session_id) as [project|] eqn:P; [|apply ss_change, sc_same].
      destruct (len_ge (users sd) (Project.max_users project)) eqn:L; simpl;
        rewrite reg_get_or_new_set_if;
        (destruct (String.eqb session_id k) eqn:E;
         [apply String.eqb_eq in E; subst k | apply ss_change, sc_same]);
        rewrite (reg_get_or_new_some _ _ G).
      * apply ss_change, sc_filter_pending.
      * apply len_ge_false in L. eapply ss_enter_raised; eauto.
    + simpl. rewrite reg_get_or_new_set_if.
      destruct (String.eqb session_id k) eqn:E;
        [apply String.eqb_eq in E; subst k | apply ss_change, sc_same].
      rewrite (reg_get_or_new_some _ _ G). apply ss_change, sc_filter_pending.
Qed.

(** ** Session invariants under [session_change] *)

Lemma pending_join_set_sid ident s a :
  pending_join ident (Approval.set_sid s a) = pending_join ident a.
Proof. now destruct a. Qed.

Lemma pending_join_true ident a :
  pending_join ident a = true <->
  Approval.get_sessionId a = ident /\ Approval.is_join a = true.
Proof.
  unfold pending_join. rewrite andb_true_iff, opt_eqb_eq. tauto.
Qed.

Lemma same_identity_true ident u :
  same_identity ident u = true <-> UserData.sessionId u = ident.
Proof. unfold same_identity. apply opt_eqb_eq. Qed.

Lemma In_update_first {A} (p : A -> bool) f xs x :
  In x (update_first p f xs) -> In x xs \/ exists y, In y xs /\ x = f y.
Proof.
  induction xs as [|y rest IH]; simpl; [tauto|].
  destruct (p y); simpl.
  - intros [<-|H]; [right; exists y; auto | auto].
  - intros [<-|H]; auto.
    destruct (IH H) as [H1|(z & Hz & ->)]; auto.
    right. exists z. auto.
Qed.

(** A filter that keeps at most one element keeps a single value. *)
Lemma filter_at_most_one {A} (q : A -> bool) xs a b :
  (List.length (filter q xs) <= 1)%nat ->
  In a xs -> In b xs -> q a = true -> q b = true -> a = b.
Proof.
  intros Hlen Ha Hb Qa Qb.
  assert (Ia : In a (filter q xs)) by (apply filter_In; auto).
  assert (Ib : In b (filter q xs)) by (apply filter_In; auto).
  destruct (filter q xs) as [|x [|y rest]]; simpl in *; try lia; try tauto.
  destruct Ia as [<-|[]], Ib as [<-|[]]. reflexivity.
Qed.

Lemma session_change_one_join w k sd sd' :
  sess_one_join sd -> session_change w k sd sd' -> sess_one_join sd'.
Proof.
  intros H C ident. specialize (H ident). unfold joins_of in *.
  destruct C as [ | p f Hf | rsid | q | p rsid | i path content user
                | i username anon jident jsid Hnp Hnu
                | u0 project Hp Hlt Hnp Hnu
                | u0 project approval_id i username anon jsid Hp Hlt Hfound ]; simpl; auto.
  - eapply Nat.le_trans; [apply filter_filter_length | exact H].
  - rewrite filter_update_first; auto. intros x. apply pending_join_set_sid.
  - rewrite filter_app, length_app. simpl.
    unfold pending_join at 2. simpl. rewrite andb_false_r. simpl. lia.
  - rewrite filter_app, length_app. simpl.
    destruct (pending_join ident _) eqn:E; simpl; [|lia].
    apply pending_join_true in E. simpl in E. destruct E as [-> _].
    apply find_none_filter in Hnp. rewrite Hnp. simpl. lia.
  - eapply Nat.le_trans; [apply filter_filter_length | exact H].
Qed.

Lemma session_step_one_join w k sd sd' :
  sess_one_join sd -> session_step w k sd sd' -> sess_one_join sd'.
Proof.
  intros H [sd1 C | u project P L].
  - eapply session_change_one_join; eauto.
  - exact H.
Qed.

Lemma session_change_exclusive w k sd sd' :
  sess_one_join sd -> sess_exclusive sd -> session_change w k sd sd' -> sess_exclusive sd'.
Proof.
  intros H1 HX C a u. unfold sess_exclusive in HX.
  destruct C as [ | p f Hf | rsid | q | p rsid | i path content user
                | i username anon jident jsid Hnp Hnu
                | u0 project Hp Hlt Hnp Hnu
                | u0 project approval_id i username anon jsid Hp Hlt Hfound ]; simpl; auto.
  - intros Ha Ja Hu. apply In_update_first in Hu.
    destruct Hu as [Hu|(y & Hy & ->)]; [eauto|]. rewrite Hf. eauto.
  - intros Ha Ja Hu. apply filter_In in Hu. destruct Hu. eauto.
  - intros Ha Ja Hu. apply filter_In in Ha. destruct Ha. eauto.
  - intros Ha Ja Hu. apply In_update_first in Ha.
    destruct Ha as [Ha|(y & Hy & ->)]; [eauto|].
    destruct y as [? ? ? ?|yi yu yan yident ysid]; simpl in *; [discriminate|].
    apply (HX (Approval.Join yi yu yan yident ysid) u); auto.
  - intros Ha Ja Hu. apply in_app_or in Ha.
    destruct Ha as [Ha|[<-|[]]]; [eauto | discriminate].
  - intros Ha Ja Hu. apply in_app_or in Ha.
    destruct Ha as [Ha|[<-|[]]]; [eauto|]. simpl. intros E.
    eapply find_none in Hnu; [|exact Hu].
    symmetry in E. apply same_identity_true in E. congruence.
  - intros Ha Ja Hu. apply in_app_or in Hu.
    destruct Hu as [Hu|[<-|[]]]; [eauto|]. intros E.
    eapply find_none in Hnp; [|exact Ha].
    assert (pending_join (UserData.sessionId u0) a = true) by now apply pending_join_true.
    congruence.
  - intros Ha Ja Hu. apply in_app_or in Hu.
    pose proof Ha as Hid. apply remove_approval_not_in in Hid.
    apply filter_In in Ha. destruct Ha as [Ha _].
    destruct Hu as [Hu|[<-|[]]]; [eauto|]. intros E.
    apply find_some in Hfound. destruct Hfound as [Hx Qx].
    apply andb_true_iff in Qx. destruct Qx as [Qi _].
    apply String.eqb_eq in Qi. simpl in Qi.
    assert (a = Approval.Join i username anon (UserData.sessionId u0) jsid).
    { apply (filter_at_most_one (pending_join (UserData.sessionId u0)) (pending_approvals sd));
        auto.
      - apply H1.
      - now apply pending_join_true.
      - now apply pending_join_true. }
    subst a. simpl in Hid. congruence.
Qed.

Lemma session_change_roster_unique w k sd sd' :
  sess_exclusive sd -> sess_roster_unique sd -> session_change w k sd sd' ->
  sess_roster_unique sd'.
Proof.
  intros HX H C ident. specialize (H ident). unfold sess_exclusive in HX.
  assert (Happ : forall u,
             find (same_identity (UserData.sessionId u)) (users sd) = None ->
             (List.length (filter (same_identity ident) (users sd ++ [u])) <= 1)%nat).
  { intros u Hnone. rewrite filter_app, length_app. simpl.
    destruct (same_identity ident u) eqn:E; simpl; [|lia].
    apply same_identity_true in E. subst ident.
    rewrite (find_none_filter _ _ Hnone). simpl. lia. }
  destruct C as [ | p f Hf | rsid | q | p rsid | i path content user
                | i username anon jident jsid Hnp Hnu
                | u0 project Hp Hlt Hnp Hnu
                | u0 project approval_id i username anon jsid Hp Hlt Hfound ]; simpl; auto.
  - rewrite filter_update_first; auto.
    intros x. unfold same_identity. now rewrite Hf.
  - eapply Nat.le_trans; [apply filter_filter_length | exact H].
  - apply Happ.
    destruct (find (same_identity (UserData.sessionId u0)) (users sd)) as [u'|] eqn:F; auto.
    apply find_some in F. destruct F as [Hu' E]. apply same_identity_true in E.
    apply find_some in Hfound. destruct Hfound as [Hx _].
    exfalso. apply (HX _ u' Hx eq_refl Hu'). simpl. congruence.
Qed.

Lemma session_change_consistent w k sd sd' :
  sess_consistent sd -> session_change w k sd sd' -> sess_consistent sd'.
Proof.
  intros (H1 & H2 & H3) C. repeat split.
  - eapply session_change_one_join; eauto.
  - eapply session_change_exclusive; eauto.
  - eapply session_change_roster_unique; eauto.
Qed.

Lemma new_session_consistent : sess_consistent new_session.
Proof.
  split; [|split].
  - intros ident. simpl. lia.
  - intros a u Ha. contradiction.
  - intros ident. simpl. lia.
Qed.

Lemma consistent_or_new w k :
  consistent w -> sess_consistent (reg_get_or_new k (active_sessions w)).
Proof.
  intros H. unfold reg_get_or_new.
  destruct (reg_get k (active_sessions w)) eqn:G; [eapply H; eauto|].
  apply new_session_consistent.
Qed.

Lemma step_consistent w e :
  finds_connection e = true -> consistent w -> consistent (world (step w e)).
Proof.
  intros Hc H k sd' G.
  rewrite <- (reg_get_or_new_some _ _ G).
  eapply session_change_consistent; [apply (consistent_or_new k H)|].
  now apply step_session_change.
Qed.

Lemma boot_consistent ps fs dir : consistent (boot ps fs dir).
Proof. intros k sd G. discriminate. Qed.

Lemma run_consistent es :
  forallb finds_connection es = true ->
  forall w, consistent w -> consistent (run w es).
Proof.
  induction es as [|e rest IH]; simpl; auto.
  intros Hc w H. apply andb_true_iff in Hc. destruct Hc as [Hc1 Hc2].
  apply IH; auto. now apply step_consistent.
Qed.

(** ** Capacity *)

Lemma find_deactivate s k ps p' :
  find (fun p => String.eqb (Project.session_id p) k) (deactivate s ps) = Some p' ->
  exists p,
    find (fun p => String.eqb (Project.session_id p) k) ps = Some p /\
    Project.max_users p' = Project.max_users p /\
    Project.admin_id p' = Project.admin_id p /\
    Project.workspace_path p' = Project.workspace_path p.
Proof.
  unfold deactivate. induction ps as [|p rest IH]; simpl; [discriminate|].
  destruct (String.eqb (Project.session_id p) s) eqn:E; simpl.
  - destruct (String.eqb (Project.session_id p) k) eqn:E'.
    + intros [= <-]. exists p. auto.
    + intros H. eauto.
  - destruct (String.eqb (Project.session_id p) k) eqn:E'.
    + intros [= <-]. exists p. auto.
    + auto.
Qed.

Lemma In_deactivate s ps p' :
  In p' (deactivate s ps) ->
  exists p, In p ps /\ Project.max_users p' = Project.max_users p.
Proof.
  intros H. apply In_update_first in H.
  destruct H as [H|(p & Hp & ->)]; eauto.
Qed.

Lemma projects_step w e :
  projects (world (step w e)) = projects w \/
  exists s, projects (world (step w e)) = deactivate s (projects w).
Proof.
  destruct e; simpl.
  - left. unfold save_file. repeat break_match; reflexivity.
  - left. unfold kick_user. repeat break_match; reflexivity.
  - unfold close_session. repeat break_match; simpl; eauto.
  - left. unfold handle_join_session. repeat break_match; reflexivity.
  - left. unfold handle_join_approval_response. repeat break_match; reflexivity.
  - left. unfold handle_leave_session. repeat break_match; reflexivity.
  - left. unfold handle_cursor_move. repeat break_match; reflexivity.
  - left. reflexivity.
  - left. unfold handle_file_open. repeat break_match; reflexivity.
  - left. reflexivity.
  - left. unfold handle_approval_response. repeat break_match; reflexivity.
  - left. unfold handle_disconnect. repeat break_match; reflexivity.
Qed.

Lemma find_project_step w e k p' :
  find_project (world (step w e)) k = Some p' ->
  exists p, find_project w k = Some p /\ Project.max_users p' = Project.max_users p.
Proof.
  unfold find_project. destruct (projects_step w e) as [-> | [s ->]].
  - intros H. eauto.
  - intros H. apply find_deactivate in H. destruct H as (p & H & M & _). eauto.
Qed.

Lemma step_capacities_nonneg w e :
  capacities_nonneg w -> capacities_nonneg (world (step w e)).
Proof.
  intros H p' Hin. destruct (projects_step w e) as [E | [s E]]; rewrite E in Hin.
  - auto.
  - apply In_deactivate in Hin. destruct Hin as (p & Hp & ->). auto.
Qed.

(** One event adds at most one participant to a roster, and only below
    the project's [max_users]. *)
Lemma session_change_roster w k sd sd' :
  session_change w k sd sd' ->
  (List.length (users sd') <= List.length (users sd))%nat \/
  exists u project,
    users sd' = users sd ++ [u] /\
    find_project w k = Some project /\
    Z.of_nat (List.length (users sd)) < Project.max_users project.
Proof.
  intros C.
  destruct C as [ | p f Hf | rsid | q | p rsid | i path content user
                | i username anon jident jsid Hnp Hnu
                | u0 project Hp Hlt Hnp Hnu
                | u0 project approval_id i username anon jsid Hp Hlt Hfound ]; simpl;
    try (left; lia); try (right; now eauto).
  - left. now rewrite update_first_length.
  - left. apply filter_length_le.
Qed.

Lemma session_step_roster w k sd sd' :
  session_step w k sd sd' ->
  (List.length (users sd') <= List.length (users sd))%nat \/
  exists u project,
    users sd' = users sd ++ [u] /\
    find_project w k = Some project /\
    Z.of_nat (List.length (users sd)) < Project.max_users project.
Proof.
  intros [sd1 C | u project P L].
  - now apply session_change_roster.
  - right. now exists u, project.
Qed.

Lemma step_within_capacity w e :
  capacities_nonneg w -> within_capacity w -> within_capacity (world (step w e)).
Proof.
  intros Hnn H k sd' p' G P.
  apply find_project_step in P. destruct P as (p & P & ->).
  pose proof (step_session_step w e k) as C.
  rewrite (reg_get_or_new_some _ _ G) in C.
  apply session_step_roster in C.
  assert (Hold : Z.of_nat (List.length (users (reg_get_or_new k (active_sessions w))))
                 <= Project.max_users p).
  { unfold reg_get_or_new.
    destruct (reg_get k (active_sessions w)) as [sd|] eqn:G0.
    - eapply H; eauto.
    - simpl. apply Hnn. unfold find_project in P. apply find_some in P. tauto. }
  destruct C as [C | (u & project & E & P' & Hlt)].
  - lia.
  - rewrite E, length_app. simpl. rewrite P in P'. injection P' as <-. lia.
Qed.

Lemma run_within_capacity es :
  forall w, capacities_nonneg w -> within_capacity w -> within_capacity (run w es).
Proof.
  induction es as [|e rest IH]; simpl; auto.
  intros w Hnn H. apply IH.
  - now apply step_capacities_nonneg.
  - now apply step_within_capacity.
Qed.

(** C3: [len(users) <= max_users] is kept by every event (direct admit,
    reconnect and join-approval resolution among them) and so holds all
    along any run from boot.  An event adds at most one participant to a
    roster, and only when the roster is below [max_users]; a direct admit
    or an approval that finds the roster full emits "Session is full" and
    leaves the roster as it is. *)
Theorem roster_within_capacity :
  (forall w e,
      capacities_nonneg w -> within_capacity w -> within_capacity (world (step w e))) /\
  (forall ps fs dir es,
      capacities_nonneg (boot ps fs dir) -> within_capacity (run (boot ps fs dir) es)) /\
  (forall w e k,
      (List.length (roster (world (step w e)) k) <= List.length (roster w k))%nat \/
      exists u project,
        roster (world (step w e)) k = roster w k ++ [u] /\
        find_project w k = Some project /\
        Z.of_nat (List.length (roster w k)) < Project.max_users project) /\
  (forall w rq session_id username anon ident draw token project,
      find_project w session_id = Some project ->
      Project.active project = true ->
      find (pending_join ident) (pending w session_id) = None ->
      find (same_identity ident) (roster w session_id) = None ->
      Project.max_users project <= Z.of_nat (List.length (roster w session_id)) ->
      let r := handle_join_session w rq session_id username anon ident draw token in
      emits r = [emit_self rq (error msg_full)] /\
      roster (world r) session_id = roster w session_id /\
      pending (world r) session_id = pending w session_id) /\
  (forall w rq session_id approval_id draw connected sd project i u an ident s,
      reg_get session_id (active_sessions w) = Some sd ->
      find (fun a => (String.eqb (Approval.id a) approval_id && Approval.is_join a)%bool)
           (pending_approvals sd) = Some (Approval.Join i u an ident s) ->
      find_project w session_id = Some project ->
      Project.max_users project <= Z.of_nat (List.length (users sd)) ->
      let r := handle_join_approval_response w rq session_id approval_id true draw connected in
      emits r = [emit_room s (error msg_full)] /\
      roster (world r) session_id = users sd).
Proof.
  split; [|split; [|split; [|split]]].
  - apply step_within_capacity.
  - intros ps fs dir es Hnn. apply run_within_capacity; auto.
    intros k sd p G. discriminate.
  - intros w e k. apply session_step_roster. apply step_session_step.
  - intros w rq session_id username anon ident draw token project P A FP FU L r.
    subst r. unfold handle_join_session, roster, pending in *.
    rewrite P, A. simpl. rewrite FP, FU.
    assert (Hfull : len_ge (users (reg_get_or_new session_id (active_sessions w)))
                      (Project.max_users project) = true)
      by (unfold len_ge; now apply Z.leb_le).
    rewrite Hfull.
    destruct (is_project_admin (req_user_id rq) project); simpl;
      rewrite reg_get_or_new_ensure; auto.
  - intros w rq session_id approval_id draw connected sd project i u an ident s G F P L r.
    subst r. unfold handle_join_approval_response, roster. rewrite G, F, P.
    assert (Hfull : len_ge (users sd) (Project.max_users project) = true)
      by (unfold len_ge; now apply Z.leb_le).
    rewrite Hfull. simpl. now rewrite reg_get_or_new_set.
Qed.

Lemma roster_within_capacity_witness :
  within_capacity Demo.w_joined.
Proof.
  destruct roster_within_capacity as (_ & H & _).
  apply (H [Demo.project1] [] "/srv/app"
           [Demo.alice_joins; Demo.bob_asks; Demo.alice_lets_bob_in]).
  intros p [<-|[]]. simpl. lia.
Defined.

(** ** Joining *)

Lemma step_one_join w e : one_join_per_identity w -> one_join_per_identity (world (step w e)).
Proof.
  intros H k sd' ident G.
  rewrite <- (reg_get_or_new_some _ _ G).
  eapply session_step_one_join; [|apply step_session_step].
  intros ident0. unfold reg_get_or_new.
  destruct (reg_get k (active_sessions w)) eqn:G0; [eapply H; eauto | simpl; lia].
Qed.

Lemma run_one_join es : forall w, one_join_per_identity w -> one_join_per_identity (run w es).
Proof.
  induction es as [|e rest IH]; simpl; auto.
  intros w H. apply IH. now apply step_one_join.
Qed.

(** C8: "at most one pending join-kind approval per stable identity" is
    kept by every event, so it holds all along any run from boot.  On an
    open session, a join request from an identity that already has a
    pending join-kind approval rewrites that entry's sid where it stands:
    the pending list keeps its length and its other entries, the roster is
    untouched, and the only emit is the private "waiting" notice (the admin
    room gets no [join_approval_request]). *)
Theorem one_pending_join_per_identity :
  (forall w e, one_join_per_identity w -> one_join_per_identity (world (step w e))) /\
  (forall ps fs dir es, one_join_per_identity (run (boot ps fs dir) es)) /\
  (forall w rq session_id username anon ident draw token project l1 a l2,
      find_project w session_id = Some project ->
      Project.active project = true ->
      pending w session_id = l1 ++ a :: l2 ->
      (forall y, In y l1 -> pending_join ident y = false) ->
      pending_join ident a = true ->
      let r := handle_join_session w rq session_id username anon ident draw token in
      pending (world r) session_id = l1 ++ Approval.set_sid (req_sid rq) a :: l2 /\
      roster (world r) session_id = roster w session_id /\
      emits r = [emit_self rq (waiting_approval msg_waiting)]).
Proof.
  split; [|split].
  - apply step_one_join.
  - intros ps fs dir es. apply run_one_join. intros k sd ident G. discriminate.
  - intros w rq session_id username anon ident draw token project l1 a l2 P A E Hl1 Ha r.
    subst r. unfold handle_join_session, pending, roster in *.
    rewrite P, A. simpl. rewrite E.
    rewrite (find_split _ l1 a l2 Hl1 Ha). simpl.
    rewrite reg_set_ensure, reg_get_or_new_set. simpl.
    now rewrite (update_first_split _ _ l1 a l2 Hl1 Ha).
Qed.

Lemma one_pending_join_per_identity_witness :
  pending (world (handle_join_session Demo.w_waiting Demo.bob_again Demo.s1 "bob" true
                    (Some "tab-b") 3%nat "j9")) Demo.s1
  = [Approval.Join "j1" "bob" true (Some "tab-b") "conn-b9"].
Proof.
  destruct one_pending_join_per_identity as (_ & _ & H).
  destruct (H Demo.w_waiting Demo.bob_again Demo.s1 "bob" true (Some "tab-b") 3%nat "j9"
              Demo.project1 [] (Approval.Join "j1" "bob" true (Some "tab-b") "conn-b") []
              eq_refl eq_refl eq_refl) as (Hp & _).
  - intros y [].
  - reflexivity.
  - exact Hp.
Defined.

(** ** Reconnecting *)

Lemma filter_first_only {A} (q : A -> bool) l1 x l2 :
  (List.length (filter q (l1 ++ x :: l2)) <= 1)%nat -> q x = true ->
  forall y, In y l1 -> q y = false.
Proof.
  intros Hlen Hx y Hy. rewrite filter_app, length_app in Hlen. simpl in Hlen.
  rewrite Hx in Hlen. simpl in Hlen.
  destruct (q y) eqn:E; auto.
  assert (Hin : In y (filter q l1)) by (apply filter_In; auto).
  destruct (filter q l1); simpl in *; [contradiction | lia].
Qed.

Lemma update_first_keeps {A B} (p : A -> bool) (f : A -> A) (g : A -> B) xs :
  (forall x, g (f x) = g x) -> map g (update_first p f xs) = map g xs.
Proof.
  intros H. induction xs as [|x rest IH]; simpl; auto.
  destruct (p x); simpl; [now rewrite H | now rewrite IH].
Qed.

(** C7, as the code has it: on an open session, a [join_session] under a
    stable identity that [u], the first such record of the roster, carries.
    The roster keeps its length, and every record keeps its username,
    color, current file, anonymity flag and identity.  When no join
    approval is pending under the identity, the sid of [u] is rewritten
    where the record stands and every other record is untouched; [is_admin]
    of [u] is kept unless the caller is logged in as the project's admin,
    in which case it is set; the pending list is untouched and only the
    caller is notified.  When a join approval is pending under the
    identity, the handler takes that branch instead: the roster is what it
    was, sids included, and the sid of the pending entry is rewritten. *)
Theorem reconnect_rewrites_sid_in_place :
  forall w rq session_id username anon ident draw token project l1 u l2,
    find_project w session_id = Some project ->
    Project.active project = true ->
    roster w session_id = l1 ++ u :: l2 ->
    UserData.sessionId u = ident ->
    (forall y, In y l1 -> UserData.sessionId y <> ident) ->
    let r := handle_join_session w rq session_id username anon ident draw token in
    let u' := UserData.mk (req_sid rq) (UserData.username u) (UserData.color u) (UserData.current_file u)
                (UserData.is_anonymous u) (UserData.sessionId u)
                (UserData.is_admin u || is_project_admin (req_user_id rq) project) in
    List.length (roster (world r) session_id) = List.length (roster w session_id) /\
    map kept_fields (roster (world r) session_id) = map kept_fields (roster w session_id) /\
    (find (pending_join ident) (pending w session_id) = None ->
     roster (world r) session_id = l1 ++ u' :: l2 /\
     pending (world r) session_id = pending w session_id /\
     emits r = [emit_self rq (user_connected u');
                emit_self rq (session_state (l1 ++ u' :: l2))]) /\
    (find (pending_join ident) (pending w session_id) <> None ->
     roster (world r) session_id = roster w session_id /\
     pending (world r) session_id
       = update_first (pending_join ident) (Approval.set_sid (req_sid rq))
           (pending w session_id) /\
     emits r = [emit_self rq (waiting_approval msg_waiting)]).
Proof.
  intros w rq session_id username anon ident draw token project l1 u l2 P A E I Hfirst r u'.
  unfold roster, pending in *.
  set (sd := reg_get_or_new session_id (active_sessions w)) in *.
  assert (Hu : same_identity ident u = true) by now apply same_identity_true.
  assert (Hl1 : forall y, In y l1 -> same_identity ident y = false).
  { intros y Hy. destruct (same_identity ident y) eqn:S; auto.
    apply same_identity_true in S. now apply Hfirst in Hy. }
  assert (Htouch : (let u1 := UserData.set_sid (req_sid rq) u in
                    if is_project_admin (req_user_id rq) project
                    then UserData.set_is_admin true u1 else u1) = u').
  { subst u'. unfold UserData.set_sid, UserData.set_is_admin. simpl.
    destruct (is_project_admin (req_user_id rq) project); simpl;
      [now rewrite orb_true_r | now rewrite orb_false_r]. }
  assert (Hnone : find (pending_join ident) (pending_approvals sd) = None ->
                  users (reg_get_or_new session_id (active_sessions (world r))) = l1 ++ u' :: l2 /\
                  pending_approvals (reg_get_or_new session_id (active_sessions (world r)))
                    = pending_approvals sd /\
                  emits r = [emit_self rq (user_connected u');
                             emit_self rq (session_state (l1 ++ u' :: l2))]).
  { intros FP. subst r. unfold handle_join_session. rewrite P, A. simpl. fold sd.
    rewrite FP, E, (find_split _ l1 u l2 Hl1 Hu). simpl.
    rewrite reg_set_ensure, reg_get_or_new_set. simpl.
    rewrite (update_first_split _ _ l1 u l2 Hl1 Hu).
    simpl in Htouch. rewrite Htouch. repeat split. }
  assert (Hsome : find (pending_join ident) (pending_approvals sd) <> None ->
                  users (reg_get_or_new session_id (active_sessions (world r))) = users sd /\
                  pending_approvals (reg_get_or_new session_id (active_sessions (world r)))
                    = update_first (pending_join ident) (Approval.set_sid (req_sid rq))
                        (pending_approvals sd) /\
                  emits r = [emit_self rq (waiting_approval msg_waiting)]).
  { intros FP. subst r. unfold handle_join_session. rewrite P, A. simpl. fold sd.
    destruct (find (pending_join ident) (pending_approvals sd)) as [a|]; [|congruence].
    simpl. rewrite reg_set_ensure, reg_get_or_new_set. simpl. repeat split. }
  destruct (find (pending_join ident) (pending_approvals sd)) as [a|] eqn:FP.
  - destruct Hsome as (Hr & Hp & He); [discriminate|].
    rewrite Hr. split; [reflexivity|]. split; [reflexivity|]. split.
    + intros Hx. discriminate Hx.
    + intros _. auto.
  - destruct (Hnone eq_refl) as (Hr & Hp & He).
    rewrite Hr, E. split; [|split; [|split]].
    + rewrite !length_app. reflexivity.
    + rewrite !map_app. reflexivity.
    + intros _. auto.
    + intros Hx. congruence.
Qed.

Lemma reconnect_rewrites_sid_in_place_witness :
  map UserData.sid
    (roster (world (handle_join_session Demo.w_joined Demo.bob_again Demo.s1 "bob" true
                      (Some "tab-b") 0%nat "t9")) Demo.s1)
  = ["conn-a"; "conn-b9"] /\
  map UserData.sid
    (roster (world (handle_join_session Demo.w_half_joined Demo.bob_again Demo.s1 "bob" true
                      (Some "tab-b2") 0%nat "t9")) Demo.s1)
  = ["conn-a"; "conn-b"].
Proof.
  split.
  - destruct (@reconnect_rewrites_sid_in_place Demo.w_joined Demo.bob_again Demo.s1 "bob" true
                (Some "tab-b") 0%nat "t9" Demo.project1
                [UserData.mk "conn-a" "alice" "#FF6B6B" None false (Some "tab-a") true]
                (UserData.mk "conn-b" "bob" "#4ECDC4" None true (Some "tab-b") false)
                []
                eq_refl eq_refl eq_refl eq_refl) as (_ & _ & H & _).
    + intros y [<- | []]. simpl. intros E. discriminate E.
    + destruct (H eq_refl) as (Hr & _). rewrite Hr. reflexivity.
  - destruct (@reconnect_rewrites_sid_in_place Demo.w_half_joined Demo.bob_again Demo.s1 "bob"
                true (Some "tab-b2") 0%nat "t9" Demo.project1
                [UserData.mk "conn-a" "alice" "#FF6B6B" None false (Some "tab-a") true]
                (UserData.mk "conn-b" "bob" "#FFA07A" None true (Some "tab-b2") false)
                []
                eq_refl eq_refl eq_refl eq_refl) as (_ & _ & _ & H).
    + intros y [<- | []]. simpl. intros E. discriminate E.
    + destruct H as (Hr & _).
      * intros E. discriminate E.
      * rewrite Hr. reflexivity.
Defined.

(** C7 as stated fails on [is_admin]: Bob was admitted through the
    approval workflow ([is_admin] false); his tab reconnects while logged in
    as the project's admin, and his record's [is_admin] becomes true. *)
Lemma reconnect_can_raise_is_admin :
  let w := Demo.w_joined in
  let r := handle_join_session w Demo.bob_as_admin Demo.s1 "bob" true (Some "tab-b")
             0%nat "t9" in
  find (same_identity (Some "tab-b")) (roster w Demo.s1)
    = Some (UserData.mk "conn-b" "bob" "#4ECDC4" None true (Some "tab-b") false) /\
  find (same_identity (Some "tab-b")) (roster (world r) Demo.s1)
    = Some (UserData.mk "conn-b2" "bob" "#4ECDC4" None true (Some "tab-b") true).
Proof. split; reflexivity. Qed.

(** ** Closing a session *)

Lemma find_project_closed s w k :
  find_project (closed s w) k =
  if String.eqb s k then option_map (Project.set_active false) (find_project w k)
  else find_project w k.
Proof.
  unfold find_project, closed, deactivate. simpl.
  induction (projects w) as [|p rest IH]; simpl.
  - now destruct (String.eqb s k).
  - destruct (String.eqb (Project.session_id p) s) eqn:E1; simpl.
    + apply String.eqb_eq in E1. rewrite E1.
      destruct (String.eqb s k) eqn:E2; simpl; auto.
    + destruct (String.eqb (Project.session_id p) k) eqn:E2; simpl.
      * destruct (String.eqb s k) eqn:E3; auto.
        apply String.eqb_eq in E2, E3. subst. now rewrite String.eqb_refl in E1.
      * exact IH.
Qed.

Lemma close_session_success w uid session_id :
  reply (close_session w uid session_id) = Http 200 "status" "success" ->
  close_session w uid session_id =
    mkResult (closed session_id w)
             [emit_room session_id (session_closed "Session has been closed")]
             (Http 200 "status" "success") /\
  exists project, find_project w session_id = Some project.
Proof.
  unfold close_session.
  destruct uid as [u|]; [|discriminate].
  destruct (find_project w session_id) as [project|]; [|discriminate].
  destruct (negb (u =? Project.admin_id project)); [discriminate|].
  intros _. split; eauto.
Qed.

(** Apart from [join_session] and [close_session] itself, no handler looks
    at [project.active]: on the closed world each does what it does on the
    open one. *)
Lemma step_ignores_active s w e :
  touches_active e = false ->
  step (closed s w) e =
    mkResult (closed s (world (step w e))) (emits (step w e)) (reply (step w e)).
Proof.
  intros T. destruct e; try discriminate; simpl.
  - (* save_file *)
    unfold save_file. rewrite find_project_closed.
    destruct (String.eqb s session_id);
      destruct (find_project w session_id) as [project|]; simpl; auto;
      unfold is_project_admin; simpl;
      repeat break_match; try reflexivity; congruence.
  - (* kick_user *)
    unfold kick_user. destruct uid as [u|]; auto.
    rewrite find_project_closed.
    destruct (String.eqb s session_id);
      destruct (find_project w session_id) as [project|]; simpl; auto;
      repeat break_match; try reflexivity; congruence.
  - (* join_approval_response *)
    unfold handle_join_approval_response. simpl.
    destruct (reg_get session_id (active_sessions w)) as [sd|]; auto.
    destruct (find _ (pending_approvals sd)) as [[?|? ? ? ? ?]|]; auto.
    destruct approved; auto.
    rewrite find_project_closed.
    destruct (String.eqb s session_id);
      destruct (find_project w session_id) as [project|]; simpl; auto;
      repeat break_match; try reflexivity; congruence.
  - (* leave_session *)
    unfold handle_leave_session. simpl. repeat break_match; reflexivity.
  - (* cursor_move *)
    unfold handle_cursor_move. simpl. repeat break_match; reflexivity.
  - (* file_change *)
    reflexivity.
  - (* file_open *)
    unfold handle_file_open. simpl. repeat break_match; reflexivity.
  - (* chat_message *)
    reflexivity.
  - (* approval_response *)
    unfold handle_approval_response. simpl.
    destruct (reg_get session_id (active_sessions w)) as [sd|]; auto.
    destruct (find _ (pending_approvals sd)) as [[? p c u|? ? ? ? ?]|]; auto.
    destruct approved; auto.
    rewrite find_project_closed.
    destruct (String.eqb s session_id);
      destruct (find_project w session_id) as [project|]; simpl; auto;
      repeat break_match; try reflexivity; congruence.
  - (* disconnect *)
    unfold handle_disconnect. simpl. repeat break_match; reflexivity.
Qed.

(** C6, as the code has it: once [close_session] has succeeded, every
    [join_session] against that session gets a private
    "Session not found or inactive" error and changes nothing.  The other
    handlers do not look at the flag: a write request, a write or join
    resolution, chat, a cursor move, a file open, a leave or a disconnect
    has on the closed session the effect, the emits and the reply it has on
    the open one. *)
Theorem closed_session_refuses_join_only :
  forall w uid session_id,
    reply (close_session w uid session_id) = Http 200 "status" "success" ->
    let w' := world (close_session w uid session_id) in
    emits (close_session w uid session_id)
      = [emit_room session_id (session_closed "Session has been closed")] /\
    (forall rq username anon ident draw token,
        handle_join_session w' rq session_id username anon ident draw token
        = mkResult w' [emit_self rq (error msg_inactive)] Done) /\
    (forall e,
        touches_active e = false ->
        step w' e = mkResult (closed session_id (world (step w e)))
                             (emits (step w e)) (reply (step w e))).
Proof.
  intros w uid session_id H w'.
  apply close_session_success in H. destruct H as [H [project P]].
  subst w'. rewrite H. simpl. split; [reflexivity|]. split.
  - intros rq username anon ident draw token.
    unfold handle_join_session. rewrite find_project_closed, String.eqb_refl, P.
    reflexivity.
  - intros e T. now apply step_ignores_active.
Qed.

Lemma closed_session_refuses_join_only_witness :
  handle_join_session Demo.w_closed Demo.bob_again Demo.s1 "bob" true (Some "tab-b") 0%nat "t9"
  = mkResult Demo.w_closed [emit_self Demo.bob_again (error msg_inactive)] Done.
Proof.
  destruct (@closed_session_refuses_join_only Demo.w_joined (Some 1) Demo.s1 eq_refl)
    as (_ & H & _).
  exact (H Demo.bob_again "bob" true (Some "tab-b") 0%nat "t9").
Defined.

(** C6 as stated fails: on the closed session a file open still rewrites
    the participant's current file and is broadcast, and a non-admin save
    still queues an approval; neither is answered with an error. *)
Lemma closed_session_still_mutable :
  let w := Demo.w_closed in
  let r1 := handle_file_open w Demo.bob Demo.s1 "main.py" in
  let r2 := save_file w None Demo.s1 "main.py" "x=1" "bob" "a1" (Written 0) in
  option_map Project.active (find_project w Demo.s1) = Some false /\
  map UserData.current_file (roster w Demo.s1) = [None; None] /\
  map UserData.current_file (roster (world r1) Demo.s1) = [None; Some "main.py"] /\
  emits r1 = [emit_room Demo.s1 (user_file_change "conn-b" "main.py")] /\
  pending w Demo.s1 = [] /\
  pending (world r2) Demo.s1 = [Approval.Save "a1" "main.py" "x=1" "bob"] /\
  existsb (fun e => is_error (payload e)) (emits r1 ++ emits r2) = false.
Proof. repeat split; reflexivity. Qed.

(** * Further properties of the handlers *)

(** ** Sessions are isolated *)





(** ** The disconnection sweep, in closed form *)

Lemma disconnect_loop_none rq reg :
  (forall entry, In entry reg -> user_by_sid (req_sid rq) (users (snd entry)) = None) ->
  disconnect_loop rq reg = (map (purged (req_sid rq)) reg, []).
Proof.
  induction reg as [|[k0 sd0] rest IH]; intros H; simpl; auto.
  pose proof (H (k0, sd0) (or_introl eq_refl)) as H0. simpl in H0. rewrite H0.
  rewrite IH by (intros entry He; apply H; now right).
  reflexivity.
Qed.

(** X2: [handle_disconnect] stops at the first session, in insertion
    order, whose roster holds the sid.  That session loses every roster
    entry with the sid and keeps its pending list; the sessions before it
    have the sid's approvals purged; the sessions after it are not touched,
    even if they hold the sid; one [user_left] goes to the room, sender
    excluded.  When no roster holds the sid, every session is purged and
    nothing is emitted. *)
Theorem disconnect_stops_at_first_session :
  forall w rq,
    (forall r1 k sd r2 u,
        active_sessions w = r1 ++ (k, sd) :: r2 ->
        (forall entry, In entry r1 ->
                       user_by_sid (req_sid rq) (users (snd entry)) = None) ->
        user_by_sid (req_sid rq) (users sd) = Some u ->
        handle_disconnect w rq =
          mkResult
            (set_sessions
               (map (purged (req_sid rq)) r1 ++
                (k, mkSession (remove_sid (req_sid rq) (users sd)) (pending_approvals sd))
                :: r2) w)
            [emit_others rq k (user_left (req_sid rq) (UserData.username u))]
            Done) /\
    ((forall entry, In entry (active_sessions w) ->
                    user_by_sid (req_sid rq) (users (snd entry)) = None) ->
     handle_disconnect w rq =
       mkResult (set_sessions (map (purged (req_sid rq)) (active_sessions w)) w) [] Done).
Proof.
  intros w rq. split.
  - intros r1 k sd r2 u E Hr1 Hu. unfold handle_disconnect. rewrite E. clear E.
    assert (L : disconnect_loop rq (r1 ++ (k, sd) :: r2) =
                (map (purged (req_sid rq)) r1 ++
                 (k, mkSession (remove_sid (req_sid rq) (users sd)) (pending_approvals sd))
                 :: r2,
                 [emit_others rq k (user_left (req_sid rq) (UserData.username u))])).
    { induction r1 as [|[k0 sd0] rest IH]; simpl.
      - now rewrite Hu.
      - pose proof (Hr1 (k0, sd0) (or_introl eq_refl)) as H0. simpl in H0. rewrite H0.
        rewrite IH by (intros entry He; apply Hr1; now right).
        reflexivity. }
    now rewrite L.
  - intros H. unfold handle_disconnect. now rewrite disconnect_loop_none.
Qed.

Lemma disconnect_stops_at_first_session_witness :
  map UserData.sid (roster (world (handle_disconnect Demo.w_joined Demo.bob)) Demo.s1)
  = ["conn-a"].
Proof.
  destruct (@disconnect_stops_at_first_session Demo.w_joined Demo.bob) as [H _].
  rewrite (H [] Demo.s1 (reg_get_or_new Demo.s1 (active_sessions Demo.w_joined)) []
             (UserData.mk "conn-b" "bob" "#4ECDC4" None true (Some "tab-b") false)
             eq_refl).
  - reflexivity.
  - intros entry [].
  - reflexivity.
Defined.

(** ** Kicking *)

Lemma remove_sid_absent sid us :
  user_by_sid sid us = None -> remove_sid sid us = us.
Proof.
  unfold user_by_sid, remove_sid. induction us as [|u rest IH]; simpl; auto.
  destruct (String.eqb (UserData.sid u) sid); simpl; [discriminate|].
  intros H. now rewrite IH.
Qed.

Lemma remove_sid_clean sid us u :
  In u (remove_sid sid us) -> UserData.sid u <> sid.
Proof.
  unfold remove_sid. rewrite filter_In. intros [_ H] E.
  subst. now rewrite String.eqb_refl in H.
Qed.

(** X3: [kick_user] acts for the project's admin alone: for any other
    caller it changes nothing and emits nothing.  For the admin it drops
    every roster entry with the sid and always ends with a [kicked]
    notice to that sid, also when nobody was in the roster.  It never
    touches room membership or the pending lists: the kicked connection is
    still in the session room and keeps its pending approvals. *)
Theorem kick_user_effect :
  forall w uid session_id sid,
    let r := kick_user w uid session_id sid in
    rooms (world r) = rooms w /\
    (forall k, pending (world r) k = pending w k) /\
    ((forall project, find_project w session_id = Some project ->
                      is_project_admin uid project = false) ->
     world r = w /\ emits r = []) /\
    (forall project,
        find_project w session_id = Some project ->
        is_project_admin uid project = true ->
        roster (world r) session_id = remove_sid sid (roster w session_id) /\
        (forall u, In u (roster (world r) session_id) -> UserData.sid u <> sid) /\
        (exists es,
            emits r = es ++ [emit_room sid (kicked "You have been removed from the session")]) /\
        reply r = Http 200 "status" "success").
Proof.
  intros w uid session_id sid r. subst r.
  split; [|split; [|split]].
  - unfold kick_user. repeat break_match; reflexivity.
  - intros k. unfold kick_user, pending.
    destruct uid as [u|]; auto.
    destruct (find_project w session_id) as [project|]; auto.
    destruct (negb (u =? Project.admin_id project)); auto.
    destruct (reg_get session_id (active_sessions w)) as [sd|] eqn:G; auto.
    destruct (user_by_sid sid (users sd)); auto.
    simpl. rewrite reg_get_or_new_set_if.
    destruct (String.eqb session_id k) eqn:E; auto.
    apply String.eqb_eq in E. subst k. simpl.
    now rewrite (reg_get_or_new_some _ _ G).
  - intros H. unfold kick_user.
    destruct uid as [u|]; auto.
    destruct (find_project w session_id) as [project|] eqn:P; auto.
    specialize (H project eq_refl). simpl in H. now rewrite H.
  - intros project P A.
    assert (R : roster (world (kick_user w uid session_id sid)) session_id
                = remove_sid sid (roster w session_id)).
    { unfold kick_user, roster. rewrite P.
      destruct uid as [u|]; [|discriminate]. simpl in A. rewrite A. simpl.
      destruct (reg_get session_id (active_sessions w)) as [sd|] eqn:G.
      - rewrite (reg_get_or_new_some _ _ G).
        destruct (user_by_sid sid (users sd)) eqn:F; simpl.
        + now rewrite reg_get_or_new_set.
        + rewrite (reg_get_or_new_some _ _ G). now rewrite remove_sid_absent.
      - simpl. unfold reg_get_or_new. now rewrite G. }
    split; [exact R|]. split.
    + intros u Hu. rewrite R in Hu. now apply remove_sid_clean in Hu.
    + unfold kick_user. rewrite P.
      destruct uid as [u|]; [|discriminate]. simpl in A. rewrite A. simpl.
      repeat break_match; simpl; split; auto; try (now exists []); now eexists [_].
Qed.

Lemma kick_user_effect_witness :
  map UserData.sid (roster (world (kick_user Demo.w_joined (Some 1) Demo.s1 "conn-b")) Demo.s1)
  = ["conn-a"] /\
  in_room (rooms (world (kick_user Demo.w_joined (Some 1) Demo.s1 "conn-b"))) Demo.s1 "conn-b"
  = true.
Proof.
  destruct (@kick_user_effect Demo.w_joined (Some 1) Demo.s1 "conn-b") as (Hr & _ & _ & H).
  destruct (H Demo.project1 eq_refl eq_refl) as (Hro & _).
  split.
  - rewrite Hro. reflexivity.
  - rewrite Hr. reflexivity.
Defined.

(** ** The join workflow, end to end *)

Lemma remove_approval_fresh approval_id ps :
  (forall a, In a ps -> Approval.id a <> approval_id) ->
  remove_approval approval_id ps = ps.
Proof.
  intros H. unfold remove_approval. induction ps as [|a rest IH]; simpl; auto.
  destruct (String.eqb (Approval.id a) approval_id) eqn:E; simpl.
  - apply String.eqb_eq in E. exfalso. apply (H a); [now left | exact E].
  - rewrite IH; auto. intros b Hb. apply H. now right.
Qed.

Lemma remove_approval_app approval_id l1 l2 :
  remove_approval approval_id (l1 ++ l2)
  = remove_approval approval_id l1 ++ remove_approval approval_id l2.
Proof. unfold remove_approval. apply filter_app. Qed.

Lemma find_project_set_sessions w r k :
  find_project (set_sessions r w) k = find_project w k.
Proof. reflexivity. Qed.

(** X4: a join request followed by an approving
    [join_approval_response] admits the requester, whoever sends the
    response (the handler does not look at its caller), the requester's
    connection being still there.  On an open session
    with room left, for an identity neither pending nor in the roster and a
    caller who is not the project's admin, with a token no pending entry
    uses: the roster gains one record built from the request, with
    [is_admin] false and the color drawn at approval; the pending list is
    back to what it was; the requester's connection is put in the session
    room and gets [join_approved], then [session_state]; the room gets
    [user_joined]. *)
Theorem join_request_then_approval :
  forall w rq approver session_id username anon ident draw token draw' project,
    find_project w session_id = Some project ->
    Project.active project = true ->
    is_project_admin (req_user_id rq) project = false ->
    find (pending_join ident) (pending w session_id) = None ->
    find (same_identity ident) (roster w session_id) = None ->
    Z.of_nat (List.length (roster w session_id)) < Project.max_users project ->
    (forall a, In a (pending w session_id) -> Approval.id a <> token) ->
    let w1 := world (handle_join_session w rq session_id username anon ident draw token) in
    let r := handle_join_approval_response w1 approver session_id token true draw' true in
    let user_data := UserData.mk (req_sid rq) username (assign_color draw') None anon ident
                       false in
    roster (world r) session_id = roster w session_id ++ [user_data] /\
    pending (world r) session_id = pending w session_id /\
    in_room (rooms (world r)) session_id (req_sid rq) = true /\
    emits r = [emit_room (req_sid rq) (join_approved user_data);
               emit_room (req_sid rq) (session_state (roster w session_id ++ [user_data]));
               emit_room session_id
                 (user_joined username (assign_color draw') user_data
                    (roster w session_id ++ [user_data]))].
Proof.
  intros w rq approver session_id username anon ident draw token draw' project
         P A NA FP FU L Fresh w1 r user_data.
  unfold roster, pending in *.
  set (sd := reg_get_or_new session_id (active_sessions w)) in *.
  assert (Hfull : len_ge (users sd) (Project.max_users project) = false).
  { unfold len_ge. apply Z.leb_gt. exact L. }
  assert (Ew1 : w1 = set_sessions
                       (reg_set session_id
                          (mkSession (users sd)
                             (pending_approvals sd ++
                              [Approval.Join token username anon ident (req_sid rq)]))
                          (active_sessions w)) w).
  { subst w1. unfold handle_join_session. rewrite P, A. simpl. fold sd.
    rewrite FP, FU, NA, Hfull. simpl. now rewrite reg_set_ensure. }
  assert (Hfind : find (fun a => (String.eqb (Approval.id a) token && Approval.is_join a)%bool)
                       (pending_approvals sd ++
                        [Approval.Join token username anon ident (req_sid rq)])
                  = Some (Approval.Join token username anon ident (req_sid rq))).
  { apply find_split.
    - intros y Hy. apply Fresh in Hy. apply String.eqb_neq in Hy. now rewrite Hy.
    - simpl. now rewrite String.eqb_refl. }
  subst r. rewrite Ew1. unfold handle_join_approval_response. simpl.
  rewrite reg_get_set_same. simpl. rewrite Hfind.
  rewrite find_project_set_sessions, P. simpl. rewrite Hfull. simpl.
  rewrite !reg_get_or_new_set_if, !String.eqb_refl. simpl.
  rewrite remove_approval_app, (remove_approval_fresh _ Fresh). simpl.
  rewrite String.eqb_refl. simpl. rewrite app_nil_r.
  repeat split; auto.
  unfold in_room, join_room.
  destruct (existsb _ (rooms w)) eqn:Ex.
  - rewrite Ex. apply orb_true_r.
  - rewrite existsb_app. simpl. rewrite !String.eqb_refl. simpl.
    rewrite orb_true_r. apply orb_true_r.
Qed.

Lemma join_request_then_approval_witness :
  map UserData.sid
    (roster (world (handle_join_approval_response
                      (world (handle_join_session Demo.w_joined (mkRequest "conn-c" None)
                                Demo.s1 "carol" true (Some "tab-c") 0%nat "j7"))
                      (mkRequest "conn-c" None) Demo.s1 "j7" true 2%nat true)) Demo.s1)
  = ["conn-a"; "conn-b"; "conn-c"].
Proof.
  destruct (@join_request_then_approval Demo.w_joined (mkRequest "conn-c" None)
              (mkRequest "conn-c" None) Demo.s1 "carol" true (Some "tab-c") 0%nat "j7" 2%nat
              Demo.project1 eq_refl eq_refl eq_refl eq_refl eq_refl) as (H & _).
  - vm_compute. reflexivity.
  - intros a [].
  - rewrite H. reflexivity.
Defined.

(** X5: a requester who reloads while pending is admitted on the new
    connection.  After the reload's [join_session] (any username, any
    caller), an approval of the pending entry, the new connection being
    still there, builds the participant from
    the entry's original username and anonymity flag and from the reload's
    sid, and addresses [join_approved] to that sid. *)
Theorem reload_then_approval_reaches_new_connection :
  forall w reload approver session_id username anon ident draw token draw' project
         l1 i a_username a_anon a_sid l2,
    find_project w session_id = Some project ->
    Project.active project = true ->
    pending w session_id = l1 ++ Approval.Join i a_username a_anon ident a_sid :: l2 ->
    (forall y, In y l1 -> pending_join ident y = false) ->
    (forall y, In y l1 -> Approval.id y <> i) ->
    Z.of_nat (List.length (roster w session_id)) < Project.max_users project ->
    let w1 := world (handle_join_session w reload session_id username anon ident draw token) in
    let r := handle_join_approval_response w1 approver session_id i true draw' true in
    let user_data := UserData.mk (req_sid reload) a_username (assign_color draw') None a_anon
                       ident false in
    roster (world r) session_id = roster w session_id ++ [user_data] /\
    pending (world r) session_id = remove_approval i (pending w session_id) /\
    emits r = [emit_room (req_sid reload) (join_approved user_data);
               emit_room (req_sid reload)
                 (session_state (roster w session_id ++ [user_data]));
               emit_room session_id
                 (user_joined a_username (assign_color draw') user_data
                    (roster w session_id ++ [user_data]))].
Proof.
  intros w reload approver session_id username anon ident draw token draw' project
         l1 i a_username a_anon a_sid l2 P A E Hl1 Hid L w1 r user_data.
  unfold roster, pending in *.
  set (sd := reg_get_or_new session_id (active_sessions w)) in *.
  assert (Hfull : len_ge (users sd) (Project.max_users project) = false).
  { unfold len_ge. apply Z.leb_gt. exact L. }
  assert (Ha : pending_join ident (Approval.Join i a_username a_anon ident a_sid) = true).
  { apply pending_join_true. split; reflexivity. }
  assert (Ew1 : w1 = set_sessions
                       (reg_set session_id
                          (mkSession (users sd)
                             (l1 ++ Approval.Join i a_username a_anon ident (req_sid reload)
                                 :: l2))
                          (active_sessions w)) w).
  { subst w1. unfold handle_join_session. rewrite P, A. simpl. fold sd.
    rewrite E, (find_split _ l1 _ l2 Hl1 Ha). simpl.
    rewrite reg_set_ensure, (update_first_split _ _ l1 _ l2 Hl1 Ha). reflexivity. }
  assert (Hfind : find (fun a => (String.eqb (Approval.id a) i && Approval.is_join a)%bool)
                       (l1 ++ Approval.Join i a_username a_anon ident (req_sid reload) :: l2)
                  = Some (Approval.Join i a_username a_anon ident (req_sid reload))).
  { apply find_split.
    - intros y Hy. apply Hid in Hy. apply String.eqb_neq in Hy. now rewrite Hy.
    - simpl. now rewrite String.eqb_refl. }
  subst r. rewrite Ew1. unfold handle_join_approval_response. simpl.
  rewrite reg_get_set_same. simpl. rewrite Hfind.
  rewrite find_project_set_sessions, P. simpl. rewrite Hfull. simpl.
  rewrite !reg_get_or_new_set_if, !String.eqb_refl. simpl.
  repeat split; auto.
  rewrite E, !remove_approval_app. simpl. now rewrite String.eqb_refl.
Qed.

Lemma reload_then_approval_reaches_new_connection_witness :
  map UserData.sid
    (roster (world (handle_join_approval_response
                      (world (handle_join_session Demo.w_waiting Demo.bob_again Demo.s1
                                "bobby" true (Some "tab-b") 0%nat "j9"))
                      Demo.alice Demo.s1 "j1" true 2%nat true)) Demo.s1)
  = ["conn-a"; "conn-b9"].
Proof.
  destruct (@reload_then_approval_reaches_new_connection Demo.w_waiting Demo.bob_again
              Demo.alice Demo.s1 "bobby" true (Some "tab-b") 0%nat "j9" 2%nat Demo.project1
              [] "j1" "bob" true "conn-b" [] eq_refl eq_refl eq_refl) as (H & _).
  - intros y [].
  - intros y [].
  - vm_compute. reflexivity.
  - rewrite H. reflexivity.
Defined.

(** ** Leaving *)

Lemma filter_idem {A} (p : A -> bool) xs : filter p (filter p xs) = filter p xs.
Proof.
  induction xs as [|x rest IH]; simpl; auto.
  destruct (p x) eqn:E; simpl; [rewrite E; now f_equal | exact IH].
Qed.

Lemma reg_set_set k v v' r : reg_set k v (reg_set k v' r) = reg_set k v r.
Proof.
  induction r as [|[k0 v0] rest IH]; simpl.
  - now rewrite String.eqb_refl.
  - destruct (String.eqb k0 k) eqn:E; simpl; rewrite E; auto. now rewrite IH.
Qed.

Lemma user_by_sid_removed sid us : user_by_sid sid (remove_sid sid us) = None.
Proof.
  apply user_by_sid_none. intros u Hu. now apply remove_sid_clean in Hu.
Qed.

Lemma leave_session_world w rq session_id sd :
  reg_get session_id (active_sessions w) = Some sd ->
  world (handle_leave_session w rq session_id) =
    set_rooms (leave_room session_id (req_sid rq) (rooms w))
      (set_sessions
         (reg_set session_id
            (mkSession (remove_sid (req_sid rq) (users sd)) (pending_approvals sd))
            (active_sessions w)) w) /\
  (user_by_sid (req_sid rq) (users sd) = None ->
   emits (handle_leave_session w rq session_id) = []).
Proof.
  intros G. unfold handle_leave_session. rewrite G.
  destruct (user_by_sid (req_sid rq) (users sd)); simpl; split; auto. discriminate.
Qed.

(** X6: after [leave_session] no roster entry of that session has the
    caller's sid, and leaving again changes nothing and emits nothing: the
    room hears [user_left] at most once per membership. *)
Theorem leave_session_is_idempotent :
  forall w rq session_id,
    let r1 := handle_leave_session w rq session_id in
    let r2 := handle_leave_session (world r1) rq session_id in
    (forall u, In u (roster (world r1) session_id) -> UserData.sid u <> req_sid rq) /\
    world r2 = world r1 /\
    emits r2 = [].
Proof.
  intros w rq session_id r1 r2. subst r1 r2.
  destruct (reg_get session_id (active_sessions w)) as [sd|] eqn:G.
  - destruct (leave_session_world w rq session_id G) as [W _].
    rewrite W.
    set (sd' := mkSession (remove_sid (req_sid rq) (users sd)) (pending_approvals sd)) in *.
    set (w' := set_rooms (leave_room session_id (req_sid rq) (rooms w))
                 (set_sessions (reg_set session_id sd' (active_sessions w)) w)) in *.
    assert (G' : reg_get session_id (active_sessions w') = Some sd')
      by (subst w'; simpl; apply reg_get_set_same).
    destruct (leave_session_world w' rq session_id G') as [W' E'].
    split; [|split].
    + intros u Hu. unfold roster in Hu. rewrite (reg_get_or_new_some _ _ G') in Hu.
      subst sd'. simpl in Hu. now apply remove_sid_clean in Hu.
    + rewrite W'. subst w' sd'. simpl. unfold remove_sid, leave_room.
      rewrite !filter_idem, reg_set_set. reflexivity.
    + apply E'. subst sd'. simpl. apply user_by_sid_removed.
  - assert (N : handle_leave_session w rq session_id = mkResult w [] Done)
      by (unfold handle_leave_session; now rewrite G).
    rewrite N. simpl. rewrite N. simpl.
    unfold roster, reg_get_or_new. rewrite G. simpl.
    split; [intros u Hu; contradiction | split; reflexivity].
Qed.

(** ** Writing and reading back *)

Lemma stored_store_same key content fs :
  stored key (store key content fs) = Some content.
Proof.
  induction fs as [|[p c] rest IH]; simpl.
  - now rewrite String.eqb_refl.
  - destruct (String.eqb p key) eqn:E; simpl; rewrite E; auto.
Qed.

Lemma stored_store_other key key' content fs :
  key' <> key -> stored key' (store key content fs) = stored key' fs.
Proof.
  intros H. induction fs as [|[p c] rest IH]; simpl.
  - destruct (String.eqb key key') eqn:E; auto.
    apply String.eqb_eq in E. congruence.
  - destruct (String.eqb p key) eqn:E; simpl.
    + apply String.eqb_eq in E. subst p.
      destruct (String.eqb key key') eqn:E'; auto.
      apply String.eqb_eq in E'. congruence.
    + now rewrite IH.
Qed.

(** A file is read back under every spelling of its path. *)
Lemma read_write_same dir path path' content fs :
  posixpath.abspath dir path' = posixpath.abspath dir path ->
  read_file dir path' (write_file dir path content fs) = Some content.
Proof.
  intros E. unfold read_file, write_file. rewrite E. apply stored_store_same.
Qed.

Lemma read_write_other dir path path' content fs :
  posixpath.abspath dir path' <> posixpath.abspath dir path ->
  read_file dir path' (write_file dir path content fs) = read_file dir path' fs.
Proof.
  intros H. unfold read_file, write_file. now apply stored_store_other.
Qed.

(** Text without a carriage return is read as it was written. *)
Lemma universal_newlines_plain s : has_cr s = false -> universal_newlines s = s.
Proof.
  induction s as [|c rest IH]; simpl; auto.
  intros H. apply orb_false_iff in H. destruct H as [Hc Hr].
  rewrite Hc. now rewrite IH.
Qed.

(** The path check looks at the absolute path alone. *)
Lemma is_safe_path_spelling dir workspace_path p p' :
  posixpath.abspath dir (posixpath.join workspace_path p')
  = posixpath.abspath dir (posixpath.join workspace_path p) ->
  is_safe_path dir workspace_path p' = is_safe_path dir workspace_path p.
Proof. intros E. unfold is_safe_path. now rewrite E. Qed.

Lemma reg_set_same k v r : reg_get k r = Some v -> reg_set k v r = r.
Proof.
  induction r as [|[k0 v0] rest IH]; simpl; [discriminate|].
  destruct (String.eqb k0 k) eqn:E.
  - now intros [= ->].
  - intros H. now rewrite IH.
Qed.

(** X7: what the admin saves is what [get_file_content] then returns, up
    to the newline translation of text mode, under the saved path and under
    every other spelling of it that the file system resolves (a non-empty
    path inside the workspace, the write and the read succeeding); content
    without a carriage return is returned as it was saved; and no other
    file of the file system changes. *)
Theorem admin_save_then_read :
  forall w uid session_id path content user_info token mtime project,
    find_project w session_id = Some project ->
    is_project_admin uid project = true ->
    path <> "" ->
    is_safe_path (cwd w) (Project.workspace_path project) path = true ->
    let w1 := world (save_file w uid session_id path content user_info token (Written mtime)) in
    let full_path := posixpath.join (Project.workspace_path project) path in
    (forall path' mtime',
        path' <> "" ->
        posixpath.abspath (cwd w) (posixpath.join (Project.workspace_path project) path')
        = posixpath.abspath (cwd w) full_path ->
        get_file_content w1 session_id (Some path') (Read mtime')
        = Content (universal_newlines content) mtime') /\
    (has_cr content = false ->
     forall mtime',
       get_file_content w1 session_id (Some path) (Read mtime') = Content content mtime') /\
    (forall key,
        key <> posixpath.abspath (cwd w) full_path ->
        stored key (files w1) = stored key (files w)).
Proof.
  intros w uid session_id path content user_info token mtime project P A Hne S w1 full_path.
  assert (E : w1 = set_files (write_file (cwd w) full_path content (files w)) w).
  { subst w1 full_path. unfold save_file. now rewrite P, A, S. }
  assert (R : forall path' mtime',
             path' <> "" ->
             posixpath.abspath (cwd w) (posixpath.join (Project.workspace_path project) path')
             = posixpath.abspath (cwd w) full_path ->
             get_file_content w1 session_id (Some path') (Read mtime')
             = Content (universal_newlines content) mtime').
  { intros path' mtime' Hne' Ep. rewrite E. unfold get_file_content.
    change (find_project (set_files _ w) session_id) with (find_project w session_id).
    rewrite P. apply String.eqb_neq in Hne'. rewrite Hne'. simpl.
    rewrite (is_safe_path_spelling _ _ _ _ Ep), S. simpl.
    unfold read_text. now rewrite (read_write_same _ _ _ _ _ Ep). }
  split; [exact R | split].
  - intros Hcr mtime'. rewrite (R path mtime' Hne eq_refl).
    now rewrite universal_newlines_plain.
  - intros key Hk. rewrite E. simpl. unfold write_file. now apply stored_store_other.
Qed.

Lemma admin_save_then_read_witness :
  get_file_content
    (world (save_file Demo.w_joined (Some 1) Demo.s1 "main.py" "x=1" "alice" "t" (Written 5)))
    Demo.s1 (Some "./main.py") (Read 6) = Content "x=1" 6.
Proof.
  destruct (@admin_save_then_read Demo.w_joined (Some 1) Demo.s1 "main.py" "x=1" "alice" "t" 5
              Demo.project1 eq_refl eq_refl) as (H & _).
  - intros E. discriminate E.
  - reflexivity.
  - apply (H "./main.py" 6).
    + intros E. discriminate E.
    + reflexivity.
Defined.

(** X8: a non-admin save followed by an approving [approval_response]
    (from any caller) lands the content: for a non-empty path inside the
    workspace, a token no pending entry uses and a successful write, the
    file then holds the requested content and a [get_file_content] that
    can read it returns it up to the newline translation of text mode (as
    it was sent, when it has no carriage return); the pending list and the
    roster are what they were before the request, and the room gets
    [file_saved] then [approval_result]. *)
Theorem save_request_then_approval :
  forall w uid approver session_id path content user_info token io mtime project,
    find_project w session_id = Some project ->
    is_project_admin uid project = false ->
    path <> "" ->
    is_safe_path (cwd w) (Project.workspace_path project) path = true ->
    (forall a, In a (pending w session_id) -> Approval.id a <> token) ->
    let w1 := world (save_file w uid session_id path content user_info token io) in
    let r := handle_approval_response w1 approver session_id token true (Written mtime) in
    read_file (cwd w) (posixpath.join (Project.workspace_path project) path) (files (world r))
      = Some content /\
    (forall mtime',
        get_file_content (world r) session_id (Some path) (Read mtime')
        = Content (universal_newlines content) mtime') /\
    (has_cr content = false ->
     forall mtime',
       get_file_content (world r) session_id (Some path) (Read mtime')
       = Content content mtime') /\
    pending (world r) session_id = pending w session_id /\
    roster (world r) session_id = roster w session_id /\
    emits r = [emit_room session_id (file_saved path user_info content mtime);
               emit_room session_id (approval_result token true)].
Proof.
  intros w uid approver session_id path content user_info token io mtime project
         P A Hne S Fresh w1 r.
  unfold roster, pending in *.
  set (sd := reg_get_or_new session_id (active_sessions w)) in *.
  assert (E : w1 = set_sessions
                     (reg_set session_id
                        (mkSession (users sd)
                           (pending_approvals sd ++
                            [Approval.Save token path content user_info]))
                        (active_sessions w)) w).
  { subst w1. unfold save_file. rewrite P, A. simpl. now rewrite reg_set_ensure. }
  assert (Hfind : find (fun a => String.eqb (Approval.id a) token)
                       (pending_approvals sd ++ [Approval.Save token path content user_info])
                  = Some (Approval.Save token path content user_info)).
  { apply find_split.
    - intros y Hy. apply Fresh in Hy. now apply String.eqb_neq in Hy.
    - simpl. apply String.eqb_refl. }
  assert (R : forall mtime',
             get_file_content (world r) session_id (Some path) (Read mtime')
             = Content (universal_newlines content) mtime').
  { intros mtime'. subst r. rewrite E. unfold handle_approval_response. simpl.
    rewrite reg_get_set_same. simpl. rewrite Hfind.
    rewrite find_project_set_sessions, P. simpl. rewrite S. simpl.
    unfold get_file_content, find_project. simpl.
    fold (find_project w session_id). rewrite P.
    apply String.eqb_neq in Hne. rewrite Hne. simpl. rewrite S. simpl.
    unfold read_text. now rewrite read_write_same. }
  split; [|split; [exact R | split]].
  - subst r. rewrite E. unfold handle_approval_response. simpl.
    rewrite reg_get_set_same. simpl. rewrite Hfind.
    rewrite find_project_set_sessions, P. simpl. rewrite S. simpl.
    now apply read_write_same.
  - intros Hcr mtime'. rewrite R. now rewrite universal_newlines_plain.
  - subst r. rewrite E. unfold handle_approval_response. simpl.
    rewrite reg_get_set_same. simpl. rewrite Hfind.
    rewrite find_project_set_sessions, P. simpl. rewrite S. simpl.
    rewrite reg_set_set, reg_get_or_new_set. simpl.
    rewrite remove_approval_app, (remove_approval_fresh _ Fresh). simpl.
    rewrite String.eqb_refl. simpl. rewrite app_nil_r.
    repeat split; auto.
Qed.

Lemma save_request_then_approval_witness :
  get_file_content
    (world (handle_approval_response
              (world (save_file Demo.w_joined None Demo.s1 "main.py" "x=1" "bob" "a1"
                        (Written 0)))
              Demo.alice Demo.s1 "a1" true (Written 5)))
    Demo.s1 (Some "main.py") (Read 6) = Content "x=1" 6.
Proof.
  destruct (@save_request_then_approval Demo.w_joined None Demo.alice Demo.s1 "main.py" "x=1"
              "bob" "a1" (Written 0) 5 Demo.project1 eq_refl eq_refl) as (_ & _ & H & _).
  - intros E. discriminate E.
  - reflexivity.
  - intros a [].
  - apply H. reflexivity.
Defined.

(** X9: a non-admin save followed by a rejecting [approval_response]
    undoes the request: with a token no pending entry uses, the files, the
    roster and the pending list are what they were, the room gets only
    [approval_result] with [approved] false, and when the session was
    already in the registry the whole world is the one before the
    request. *)
Theorem save_request_then_rejection :
  forall w uid approver session_id path content user_info token io io' project,
    find_project w session_id = Some project ->
    is_project_admin uid project = false ->
    (forall a, In a (pending w session_id) -> Approval.id a <> token) ->
    let w1 := world (save_file w uid session_id path content user_info token io) in
    let r := handle_approval_response w1 approver session_id token false io' in
    files (world r) = files w /\
    pending (world r) session_id = pending w session_id /\
    roster (world r) session_id = roster w session_id /\
    emits r = [emit_room session_id (approval_result token false)] /\
    (reg_get session_id (active_sessions w) <> None -> world r = w).
Proof.
  intros w uid approver session_id path content user_info token io io' project
         P A Fresh w1 r.
  unfold roster, pending in *.
  set (sd := reg_get_or_new session_id (active_sessions w)) in *.
  assert (E : w1 = set_sessions
                     (reg_set session_id
                        (mkSession (users sd)
                           (pending_approvals sd ++
                            [Approval.Save token path content user_info]))
                        (active_sessions w)) w).
  { subst w1. unfold save_file. rewrite P, A. simpl. now rewrite reg_set_ensure. }
  assert (Hfind : find (fun a => String.eqb (Approval.id a) token)
                       (pending_approvals sd ++ [Approval.Save token path content user_info])
                  = Some (Approval.Save token path content user_info)).
  { apply find_split.
    - intros y Hy. apply Fresh in Hy. now apply String.eqb_neq in Hy.
    - simpl. apply String.eqb_refl. }
  subst r. rewrite E. unfold handle_approval_response. simpl.
  rewrite reg_get_set_same. simpl. rewrite Hfind. simpl.
  rewrite reg_set_set, reg_get_or_new_set. simpl.
  rewrite remove_approval_app, (remove_approval_fresh _ Fresh). simpl.
  rewrite String.eqb_refl. simpl. rewrite app_nil_r.
  repeat split; auto.
  intros G. subst sd. unfold reg_get_or_new.
  destruct (reg_get session_id (active_sessions w)) as [sd0|] eqn:G0; [|congruence].
  destruct sd0 as [us ps]. simpl. rewrite (reg_set_same _ _ G0).
  now destruct w.
Qed.

Lemma save_request_then_rejection_witness :
  world (handle_approval_response
           (world (save_file Demo.w_joined None Demo.s1 "main.py" "x=1" "bob" "a1" (Written 0)))
           Demo.alice Demo.s1 "a1" false (Written 5))
  = Demo.w_joined.
Proof.
  destruct (@save_request_then_rejection Demo.w_joined None Demo.alice Demo.s1 "main.py" "x=1"
              "bob" "a1" (Written 0) (Written 5) Demo.project1 eq_refl eq_refl)
    as (_ & _ & _ & _ & H).
  - intros a [].
  - apply H. intros E. discriminate E.
Defined.

(** * The path check *)

Lemma append_assoc (a b c : string) : ((a ++ b) ++ c = a ++ (b ++ c))%string.
Proof. induction a as [|x a IH]; simpl; [reflexivity | now rewrite IH]. Qed.

Lemma prefix_append (a b : string) : String.prefix a (a ++ b)%string = true.
Proof.
  induction a as [|x a IH]; simpl.
  - now destruct b.
  - destruct (ascii_dec x x); [exact IH | congruence].
Qed.

Lemma split_nonempty s : posixpath.split s <> [].
Proof.
  destruct s as [|c rest]; simpl; [discriminate|].
  destruct (Ascii.eqb c posixpath.slash); [discriminate|].
  destruct (posixpath.split rest); discriminate.
Qed.

Lemma join_comps_cons c c' rest :
  posixpath.join_comps (c :: c' :: rest)
  = (c ++ "/" ++ posixpath.join_comps (c' :: rest))%string.
Proof. reflexivity. Qed.

Lemma split_plain c :
  contains_slash c = false -> posixpath.split c = [c].
Proof.
  induction c as [|x c IH]; simpl; auto.
  intros H. apply orb_false_iff in H. destruct H as [Hx Hc].
  rewrite Hx, (IH Hc). reflexivity.
Qed.

Lemma split_append_slash c rest :
  contains_slash c = false ->
  posixpath.split (c ++ "/" ++ rest)%string = c :: posixpath.split rest.
Proof.
  induction c as [|x c IH]; simpl; auto.
  intros H. apply orb_false_iff in H. destruct H as [Hx Hc].
  rewrite Hx. simpl in IH. rewrite (IH Hc). reflexivity.
Qed.

Lemma split_no_slash s :
  Forall (fun c => contains_slash c = false) (posixpath.split s).
Proof.
  induction s as [|x s IH]; simpl.
  - repeat constructor.
  - destruct (Ascii.eqb x posixpath.slash) eqn:E.
    + constructor; auto.
    + destruct (posixpath.split s) as [|h t]; inversion IH; subst;
        constructor; simpl; auto; now rewrite E.
Qed.

Lemma join_of_split s : posixpath.join_comps (posixpath.split s) = s.
Proof.
  induction s as [|x s IH]; simpl; auto.
  destruct (Ascii.eqb x posixpath.slash) eqn:E.
  - apply Ascii.eqb_eq in E. subst x.
    destruct (posixpath.split s) as [|h t] eqn:S; [now apply split_nonempty in S|].
    rewrite join_comps_cons, IH. reflexivity.
  - destruct (posixpath.split s) as [|h t] eqn:S; [now apply split_nonempty in S|].
    destruct t as [|h' t].
    + simpl in *. now rewrite IH.
    + rewrite join_comps_cons. rewrite join_comps_cons in IH.
      rewrite <- IH. reflexivity.
Qed.

Lemma split_of_join comps :
  comps <> [] ->
  Forall (fun c => contains_slash c = false) comps ->
  posixpath.split (posixpath.join_comps comps) = comps.
Proof.
  intros Hne H. induction comps as [|c rest IH]; [congruence|].
  inversion H as [|? ? Hc Hrest]; subst.
  destruct rest as [|c' rest].
  - simpl. now apply split_plain.
  - rewrite join_comps_cons, split_append_slash by assumption.
    rewrite IH; auto. discriminate.
Qed.

(** ['/'.join(s.split('/'))] is [s], and splitting a join of
    slash-free components gives the components back. *)
Theorem split_join_round_trip :
  (forall s, posixpath.join_comps (posixpath.split s) = s) /\
  (forall comps,
      comps <> [] ->
      Forall (fun c => contains_slash c = false) comps ->
      posixpath.split (posixpath.join_comps comps) = comps).
Proof. split; [apply join_of_split | apply split_of_join]. Qed.

Lemma split_join_round_trip_witness :
  posixpath.split (posixpath.join_comps ["srv"; "app"; "main.py"]) = ["srv"; "app"; "main.py"].
Proof.
  destruct split_join_round_trip as [_ H].
  apply H.
  - discriminate.
  - repeat constructor.
Defined.

Lemma plain_name_spec c :
  plain_name c = true ->
  c <> "" /\ c <> "." /\ c <> ".." /\ contains_slash c = false.
Proof.
  unfold plain_name. rewrite !andb_true_iff, !negb_true_iff.
  intros [[[H1 H2] H3] H4]. repeat split; auto; now apply String.eqb_neq.
Qed.

Lemma plain_name_pushes init c rest acc :
  plain_name c = true ->
  posixpath.norm_comps init (c :: rest) acc = posixpath.norm_comps init rest (c :: acc).
Proof.
  intros H. apply plain_name_spec in H. destruct H as (H1 & H2 & H3 & _).
  apply String.eqb_neq in H1, H2, H3. simpl. now rewrite H1, H2, H3.
Qed.

(** Ordinary names are pushed one after the other. *)
Lemma norm_comps_plain_prefix init xs ys acc :
  Forall (fun c => plain_name c = true) xs ->
  posixpath.norm_comps init (xs ++ ys) acc = posixpath.norm_comps init ys (rev xs ++ acc).
Proof.
  intros H. revert acc. induction H as [|x xs Hx Hxs IH]; intros acc; simpl app; auto.
  rewrite plain_name_pushes by assumption. rewrite IH. simpl. now rewrite <- app_assoc.
Qed.

(** Under a leading slash the loop keeps ordinary names only. *)
Lemma norm_comps_rooted_plain init comps acc :
  init <> 0%nat ->
  Forall (fun c => contains_slash c = false) comps ->
  Forall (fun c => plain_name c = true) acc ->
  Forall (fun c => plain_name c = true) (posixpath.norm_comps init comps acc).
Proof.
  intros Hinit Hs. revert acc.
  induction Hs as [|c rest Hc Hrest IH]; intros acc Hacc; simpl.
  - now apply Forall_rev.
  - destruct (String.eqb c "") eqn:E1; simpl; [now apply IH|].
    destruct (String.eqb c ".") eqn:E2; simpl; [now apply IH|].
    destruct (String.eqb c "..") eqn:E3; simpl.
    + apply Nat.eqb_neq in Hinit. rewrite Hinit. simpl.
      destruct acc as [|last popped]; [now apply IH|].
      inversion Hacc as [|? ? Hlast Hpopped]; subst.
      apply plain_name_spec in Hlast. destruct Hlast as (_ & _ & Hdd & _).
      apply String.eqb_neq in Hdd. rewrite Hdd. now apply IH.
    + apply IH. constructor; auto.
      unfold plain_name. now rewrite E1, E2, E3, Hc.
Qed.

Lemma initial_slashes_rooted path :
  posixpath.startswith_slash path = true ->
  posixpath.initial_slashes path = 1%nat \/ posixpath.initial_slashes path = 2%nat.
Proof.
  destruct path as [|a [|b [|c rest]]]; simpl; try discriminate;
    intros ->; repeat break_match; auto.
Qed.

(** [normpath] of a path with a leading slash is one or two slashes
    followed by ordinary names joined by single slashes: no empty, ['.'] or
    ['..'] component is left, so the result never climbs. *)
Theorem normpath_rooted_has_plain_names :
  forall path,
    posixpath.startswith_slash path = true ->
    exists comps,
      posixpath.normpath path
      = (posixpath.slashes (posixpath.initial_slashes path)
         ++ posixpath.join_comps comps)%string /\
      (posixpath.initial_slashes path = 1%nat \/ posixpath.initial_slashes path = 2%nat) /\
      Forall (fun c => plain_name c = true) comps.
Proof.
  intros path H.
  exists (posixpath.norm_comps (posixpath.initial_slashes path) (posixpath.split path) []).
  pose proof (initial_slashes_rooted path H) as Hinit.
  split; [|split]; auto.
  - unfold posixpath.normpath.
    destruct path as [|a rest]; [discriminate|].
    change (String.eqb (String a rest) "") with false. cbv iota zeta.
    remember (posixpath.initial_slashes (String a rest)) as init.
    destruct Hinit as [E | E]; rewrite E; reflexivity.
  - apply norm_comps_rooted_plain; auto.
    + destruct Hinit as [-> | ->]; discriminate.
    + apply split_no_slash.
Qed.

Lemma normpath_rooted_has_plain_names_witness :
  exists comps,
    posixpath.normpath "/srv//app/./workspaces/../../etc"
    = ("/" ++ posixpath.join_comps comps)%string /\
    Forall (fun c => plain_name c = true) comps.
Proof.
  destruct (@normpath_rooted_has_plain_names "/srv//app/./workspaces/../../etc" eq_refl)
    as (comps & H & _ & P).
  exists comps. split; [exact H | exact P].
Defined.

Lemma commonprefix_is_prefix full ws :
  String.eqb (posixpath.commonprefix full ws) ws = String.prefix ws full.
Proof.
  revert full. induction ws as [|y ws IH]; intros full.
  - destruct full; reflexivity.
  - destruct full as [|x full]; simpl; auto.
    destruct (Ascii.eqb x y) eqn:E.
    + apply Ascii.eqb_eq in E. subst y. simpl. rewrite Ascii.eqb_refl.
      destruct (ascii_dec x x); [apply IH | congruence].
    + simpl. destruct (ascii_dec y x) as [->|]; auto.
      now rewrite Ascii.eqb_refl in E.
Qed.

(** X10: [is_safe_path] is a character-prefix test: it holds exactly
    when [workspace_path] is a leading substring of the normalised full
    path.  When [relative_path] starts with a slash, [os.path.join] drops
    the workspace and the test is made on [normpath(relative_path)]
    alone. *)
Theorem is_safe_path_is_char_prefix :
  forall cwd workspace_path relative_path,
    is_safe_path cwd workspace_path relative_path
    = String.prefix workspace_path
        (posixpath.abspath cwd (posixpath.join workspace_path relative_path)) /\
    (posixpath.startswith_slash relative_path = true ->
     is_safe_path cwd workspace_path relative_path
     = String.prefix workspace_path (posixpath.normpath relative_path)).
Proof.
  intros cwd ws rel. unfold is_safe_path. rewrite commonprefix_is_prefix.
  split; auto.
  intros H. unfold posixpath.join, posixpath.abspath. now rewrite !H.
Qed.

Lemma is_safe_path_is_char_prefix_witness :
  is_safe_path "/srv/app" "/srv/app/workspaces/s1" "/srv/app/workspaces/s1/../s1/a.py" = true.
Proof.
  destruct (@is_safe_path_is_char_prefix "/srv/app" "/srv/app/workspaces/s1"
              "/srv/app/workspaces/s1/../s1/a.py") as [_ H].
  rewrite (H eq_refl). reflexivity.
Defined.

Lemma append_empty_r (a : string) : (a ++ "")%string = a.
Proof. induction a as [|x a IH]; simpl; [reflexivity | now rewrite IH]. Qed.

Lemma join_comps_cons_ne c rest :
  rest <> [] ->
  posixpath.join_comps (c :: rest) = (c ++ "/" ++ posixpath.join_comps rest)%string.
Proof. destruct rest; [congruence | reflexivity]. Qed.

Lemma join_comps_app xs ys :
  xs <> [] -> ys <> [] ->
  posixpath.join_comps (xs ++ ys)
  = (posixpath.join_comps xs ++ "/" ++ posixpath.join_comps ys)%string.
Proof.
  intros Hx Hy. induction xs as [|x xs IH]; [congruence|].
  destruct xs as [|x' xs].
  - simpl app. now rewrite join_comps_cons_ne.
  - change ((x :: x' :: xs) ++ ys) with (x :: ((x' :: xs) ++ ys)).
    rewrite join_comps_cons_ne by discriminate.
    rewrite IH by discriminate.
    rewrite join_comps_cons. now rewrite !append_assoc.
Qed.

Lemma split_join_append cs rel :
  cs <> [] ->
  Forall (fun c => contains_slash c = false) cs ->
  posixpath.split (posixpath.join_comps cs ++ "/" ++ rel)%string = cs ++ posixpath.split rel.
Proof.
  intros Hne H. induction cs as [|c rest IH]; [congruence|].
  inversion H as [|? ? Hc Hrest]; subst.
  destruct rest as [|c' rest].
  - simpl posixpath.join_comps. now rewrite split_append_slash.
  - rewrite join_comps_cons, !append_assoc.
    change (("/" ++ posixpath.join_comps (c' :: rest)) ++ "/" ++ rel)%string
      with ("/" ++ (posixpath.join_comps (c' :: rest) ++ "/" ++ rel))%string.
    rewrite split_append_slash by assumption.
    rewrite IH; auto. discriminate.
Qed.

Lemma plain_no_slash cs :
  Forall (fun c => plain_name c = true) cs ->
  Forall (fun c => contains_slash c = false) cs.
Proof.
  intros H. eapply Forall_impl; [|exact H].
  intros c Hc. now apply plain_name_spec in Hc.
Qed.

Lemma endswith_contains s :
  posixpath.endswith_slash s = true -> contains_slash s = true.
Proof.
  induction s as [|x s IH]; simpl; [discriminate|].
  destruct s as [|y s].
  - intros ->. reflexivity.
  - intros H. rewrite (IH H). apply orb_true_r.
Qed.

Lemma endswith_append a b :
  b <> "" -> posixpath.endswith_slash (a ++ b)%string = posixpath.endswith_slash b.
Proof.
  intros Hb. induction a as [|x a IH]; auto.
  simpl append. destruct (a ++ b)%string as [|y t] eqn:E.
  - destruct a; simpl in E; [congruence | discriminate].
  - rewrite <- IH. reflexivity.
Qed.

Lemma join_comps_ends cs :
  cs <> [] ->
  exists pre, posixpath.join_comps cs = (pre ++ last cs "")%string.
Proof.
  intros Hne. induction cs as [|c rest IH]; [congruence|].
  destruct rest as [|c' rest].
  - exists "". reflexivity.
  - destruct IH as [pre E]; [discriminate|].
    exists (c ++ "/" ++ pre)%string.
    rewrite join_comps_cons, E, !append_assoc. reflexivity.
Qed.

(** A slash followed by ordinary names neither is empty nor ends in a
    slash, and has one leading slash. *)
Lemma rooted_plain_shape cs :
  cs <> [] ->
  Forall (fun c => plain_name c = true) cs ->
  let p := ("/" ++ posixpath.join_comps cs)%string in
  posixpath.endswith_slash p = false /\
  posixpath.initial_slashes p = 1%nat /\
  posixpath.split p = "" :: cs.
Proof.
  intros Hne H p. subst p. split; [|split].
  - destruct (join_comps_ends Hne) as [pre E]. rewrite E.
    assert (Hl : plain_name (last cs "") = true).
    { rewrite Forall_forall in H. apply H.
      destruct cs; [congruence|]. apply exists_last in Hne as (l & a & ->).
      rewrite last_last. apply in_elt. }
    apply plain_name_spec in Hl. destruct Hl as (Hl1 & _ & _ & Hl4).
    rewrite <- append_assoc, endswith_append by assumption.
    destruct (posixpath.endswith_slash (last cs "")) eqn:E'; auto.
    apply endswith_contains in E'. congruence.
  - destruct cs as [|c rest]; [congruence|].
    inversion H as [|? ? Hc _]; subst.
    apply plain_name_spec in Hc. destruct Hc as (Hc1 & _ & _ & Hc4).
    destruct c as [|a c]; [congruence|]. simpl in Hc4.
    apply orb_false_iff in Hc4. destruct Hc4 as [Ha _].
    assert (Hs : exists t, posixpath.join_comps (String a c :: rest) = String a t).
    { destruct rest; simpl; eauto. }
    destruct Hs as [t ->]. simpl. rewrite Ha. destruct t; reflexivity.
  - change ("/" ++ posixpath.join_comps cs)%string
      with ("" ++ "/" ++ posixpath.join_comps cs)%string.
    rewrite split_append_slash by reflexivity.
    rewrite split_of_join; auto.
    now apply plain_no_slash.
Qed.

Lemma plain_first_char c t :
  plain_name c = true ->
  exists a rest, (c ++ t)%string = String a rest /\ Ascii.eqb a posixpath.slash = false.
Proof.
  intros H. apply plain_name_spec in H. destruct H as (H1 & _ & _ & H4).
  destruct c as [|a c]; [congruence|]. simpl in H4.
  apply orb_false_iff in H4. destruct H4 as [Ha _].
  exists a, (c ++ t)%string. split; auto.
Qed.

Lemma join_comps_head c rest :
  exists t, posixpath.join_comps (c :: rest) = (c ++ t)%string.
Proof.
  destruct rest as [|c' rest].
  - exists "". simpl. now rewrite append_empty_r.
  - eexists. apply join_comps_cons.
Qed.

(** [normpath] below a directory made of ordinary names: the names are
    pushed, then the loop runs on the rest. *)
Lemma normpath_under cs rel :
  cs <> [] ->
  Forall (fun c => plain_name c = true) cs ->
  posixpath.normpath ("/" ++ posixpath.join_comps cs ++ "/" ++ rel)%string
  = ("/" ++ posixpath.join_comps
              (posixpath.norm_comps 1 (posixpath.split rel) (rev cs)))%string.
Proof.
  intros Hne H.
  assert (Hsplit : posixpath.split ("/" ++ posixpath.join_comps cs ++ "/" ++ rel)%string
                   = "" :: cs ++ posixpath.split rel).
  { change ("/" ++ posixpath.join_comps cs ++ "/" ++ rel)%string
      with ("" ++ "/" ++ (posixpath.join_comps cs ++ "/" ++ rel))%string.
    rewrite split_append_slash by reflexivity.
    rewrite split_join_append; auto. now apply plain_no_slash. }
  assert (Hinit : posixpath.initial_slashes
                    ("/" ++ posixpath.join_comps cs ++ "/" ++ rel)%string = 1%nat).
  { destruct cs as [|c rest]; [congruence|].
    inversion H as [|? ? Hc _]; subst.
    destruct (join_comps_head c rest) as [t ->].
    rewrite append_assoc.
    destruct (@plain_first_char c (t ++ "/" ++ rel)%string Hc) as (a & r & -> & Ha).
    simpl. rewrite Ha. destruct r; reflexivity. }
  unfold posixpath.normpath.
  change (String.eqb ("/" ++ posixpath.join_comps cs ++ "/" ++ rel) "")%string with false.
  cbv iota zeta. rewrite Hinit, Hsplit.
  change (posixpath.norm_comps 1 ("" :: cs ++ posixpath.split rel) [])
    with (posixpath.norm_comps 1 (cs ++ posixpath.split rel) []).
  rewrite norm_comps_plain_prefix by assumption. rewrite app_nil_r.
  reflexivity.
Qed.

Lemma join_under cs rel :
  cs <> [] ->
  Forall (fun c => plain_name c = true) cs ->
  posixpath.startswith_slash rel = false ->
  forall cwd,
    posixpath.abspath cwd (posixpath.join ("/" ++ posixpath.join_comps cs)%string rel)
    = posixpath.normpath ("/" ++ posixpath.join_comps cs ++ "/" ++ rel)%string.
Proof.
  intros Hne H Hrel cwd.
  destruct (@rooted_plain_shape cs Hne H) as (He & _ & _).
  unfold posixpath.join. rewrite Hrel.
  change (String.eqb ("/" ++ posixpath.join_comps cs) "")%string with false.
  rewrite He. simpl orb. cbv iota.
  unfold posixpath.abspath.
  change (posixpath.startswith_slash
            (("/" ++ posixpath.join_comps cs) ++ "/" ++ rel)%string) with true.
  cbv iota. reflexivity.
Qed.

(** X11: a relative path made of ordinary names, below a workspace
    whose path is a slash followed by ordinary names, passes
    [is_safe_path], and the full path it is checked as is the workspace
    path followed by those names. *)
Theorem descendant_paths_are_safe :
  forall cwd cs rs,
    cs <> [] -> rs <> [] ->
    Forall (fun c => plain_name c = true) cs ->
    Forall (fun c => plain_name c = true) rs ->
    let workspace_path := ("/" ++ posixpath.join_comps cs)%string in
    let relative_path := posixpath.join_comps rs in
    posixpath.abspath cwd (posixpath.join workspace_path relative_path)
    = ("/" ++ posixpath.join_comps (cs ++ rs))%string /\
    is_safe_path cwd workspace_path relative_path = true.
Proof.
  intros cwd cs rs Hcs Hrs Pcs Prs ws rel. subst ws rel.
  assert (Hrel : posixpath.startswith_slash (posixpath.join_comps rs) = false).
  { destruct rs as [|r rest]; [congruence|].
    inversion Prs as [|? ? Hr _]; subst.
    destruct (join_comps_head r rest) as [t ->].
    destruct (@plain_first_char r t Hr) as (a & x & -> & Ha). exact Ha. }
  assert (Hfull : posixpath.abspath cwd
                    (posixpath.join ("/" ++ posixpath.join_comps cs)%string
                       (posixpath.join_comps rs))
                  = ("/" ++ posixpath.join_comps (cs ++ rs))%string).
  { rewrite join_under, normpath_under by assumption.
    rewrite split_of_join by (auto; now apply plain_no_slash).
    assert (N : posixpath.norm_comps 1 rs (rev cs) = cs ++ rs).
    { rewrite <- (app_nil_r rs) at 1.
      rewrite norm_comps_plain_prefix by assumption. simpl.
      now rewrite rev_app_distr, !rev_involutive. }
    now rewrite N. }
  split; [exact Hfull|].
  unfold is_safe_path. rewrite commonprefix_is_prefix, Hfull.
  rewrite join_comps_app by assumption.
  rewrite <- append_assoc. apply prefix_append.
Qed.

Lemma descendant_paths_are_safe_witness :
  is_safe_path "/srv/app" "/srv/app/workspaces/s1" "src/main.py" = true.
Proof.
  destruct (@descendant_paths_are_safe "/srv/app" ["srv"; "app"; "workspaces"; "s1"]
              ["src"; "main.py"]) as [_ H].
  - discriminate.
  - discriminate.
  - repeat constructor.
  - repeat constructor.
  - exact H.
Defined.

Lemma prefix_append_cancel (a b c : string) :
  String.prefix (a ++ b)%string (a ++ c)%string = String.prefix b c.
Proof.
  induction a as [|x a IH]; simpl; auto.
  destruct (ascii_dec x x); [exact IH | congruence].
Qed.

Lemma join_comps_last_longer cs n ext f :
  posixpath.join_comps (cs ++ [(n ++ ext)%string; f])
  = (posixpath.join_comps (cs ++ [n]) ++ ext ++ "/" ++ f)%string.
Proof.
  induction cs as [|c rest IH].
  - simpl. now rewrite append_assoc.
  - change ((c :: rest) ++ [(n ++ ext)%string; f])
      with (c :: (rest ++ [(n ++ ext)%string; f])).
    change ((c :: rest) ++ [n]) with (c :: (rest ++ [n])).
    rewrite !join_comps_cons_ne by (destruct rest; discriminate).
    rewrite IH. now rewrite !append_assoc.
Qed.

Lemma contains_slash_append a b :
  contains_slash (a ++ b)%string = (contains_slash a || contains_slash b)%bool.
Proof.
  induction a as [|x a IH]; simpl; auto. now rewrite IH, orb_assoc.
Qed.

(** X12: the check is on characters, not on path components.  For a
    workspace [/.../n], the relative path [../n<ext>/f] names a file in a
    sibling directory whose name merely starts with the workspace's name;
    it is normalised to [/.../n<ext>/f], which is not below the workspace
    directory, and [is_safe_path] accepts it. *)
Theorem sibling_with_longer_name_is_safe :
  forall cwd cs n ext f,
    Forall (fun c => plain_name c = true) cs ->
    plain_name n = true ->
    plain_name (n ++ ext)%string = true ->
    plain_name f = true ->
    ext <> "" ->
    let workspace_path := ("/" ++ posixpath.join_comps (cs ++ [n]))%string in
    let relative_path := ("../" ++ (n ++ ext) ++ "/" ++ f)%string in
    let full_path := posixpath.abspath cwd (posixpath.join workspace_path relative_path) in
    full_path = ("/" ++ posixpath.join_comps (cs ++ [(n ++ ext)%string; f]))%string /\
    String.prefix (workspace_path ++ "/")%string full_path = false /\
    is_safe_path cwd workspace_path relative_path = true.
Proof.
  intros cwd cs n ext f Pcs Pn Pm Pf Hext ws rel full. subst ws rel full.
  assert (Hne : cs ++ [n] <> []) by (destruct cs; discriminate).
  assert (Pall : Forall (fun c => plain_name c = true) (cs ++ [n]))
    by (apply Forall_app; split; [assumption | now constructor]).
  assert (Hm : contains_slash (n ++ ext)%string = false)
    by now apply plain_name_spec in Pm.
  assert (Hf : contains_slash f = false) by now apply plain_name_spec in Pf.
  assert (Hfull : posixpath.abspath cwd
                    (posixpath.join ("/" ++ posixpath.join_comps (cs ++ [n]))%string
                       ("../" ++ (n ++ ext) ++ "/" ++ f)%string)
                  = ("/" ++ posixpath.join_comps (cs ++ [(n ++ ext)%string; f]))%string).
  { rewrite join_under, normpath_under by (auto; reflexivity).
    change ("../" ++ (n ++ ext) ++ "/" ++ f)%string
      with (".." ++ "/" ++ ((n ++ ext) ++ "/" ++ f))%string.
    rewrite split_append_slash by reflexivity.
    rewrite split_append_slash by assumption.
    rewrite split_plain by assumption.
    rewrite rev_app_distr. simpl rev. simpl app.
    assert (Hpop : posixpath.norm_comps 1 [".."; (n ++ ext)%string; f] (n :: rev cs)
                   = posixpath.norm_comps 1 [(n ++ ext)%string; f] (rev cs)).
    { apply plain_name_spec in Pn. destruct Pn as (_ & _ & Hdd & _).
      apply String.eqb_neq in Hdd. simpl. now rewrite Hdd. }
    rewrite Hpop.
    rewrite !plain_name_pushes by assumption. simpl.
    now rewrite <- !app_assoc, rev_involutive. }
  rewrite Hfull, join_comps_last_longer, <- append_assoc.
  split; [reflexivity|]. split.
  - rewrite prefix_append_cancel.
    rewrite contains_slash_append in Hm. apply orb_false_iff in Hm.
    destruct Hm as [_ He]. destruct ext as [|e ext]; [congruence|].
    simpl in He. apply orb_false_iff in He. destruct He as [He _].
    cbn [String.prefix append].
    destruct (ascii_dec "/" e) as [<-|]; [discriminate | reflexivity].
  - unfold is_safe_path. rewrite commonprefix_is_prefix, Hfull.
    rewrite join_comps_last_longer, <- append_assoc. apply prefix_append.
Qed.

Lemma sibling_with_longer_name_is_safe_witness :
  is_safe_path "/srv/app" "/srv/app/workspaces/s1" "../s1-other/secret.txt" = true.
Proof.
  destruct (@sibling_with_longer_name_is_safe "/srv/app" ["srv"; "app"; "workspaces"] "s1"
              "-other" "secret.txt") as (_ & _ & H).
  - repeat constructor.
  - reflexivity.
  - reflexivity.
  - reflexivity.
  - discriminate.
  - exact H.
Defined.

(** X13: with an absolute working directory, the full path that
    [is_safe_path] compares with the workspace is always normalised: one or
    two slashes followed by ordinary names, with no ['.'], ['..'] or empty
    component left, whatever the workspace and the relative path are. *)
Theorem checked_path_is_normalised :
  forall cwd workspace_path relative_path,
    posixpath.startswith_slash cwd = true ->
    exists k comps,
      posixpath.abspath cwd (posixpath.join workspace_path relative_path)
      = (posixpath.slashes k ++ posixpath.join_comps comps)%string /\
      (k = 1%nat \/ k = 2%nat) /\
      Forall (fun c => plain_name c = true) comps.
Proof.
  intros cwd ws rel Hcwd.
  set (p := posixpath.join ws rel).
  unfold posixpath.abspath.
  assert (Hrooted : posixpath.startswith_slash
                      (if posixpath.startswith_slash p then p else posixpath.join cwd p)
                    = true).
  { destruct (posixpath.startswith_slash p) eqn:E; auto.
    unfold posixpath.join. rewrite E.
    destruct cwd as [|a cwd]; [discriminate|].
    destruct (String.eqb (String a cwd) "" || posixpath.endswith_slash (String a cwd))%bool;
      exact Hcwd. }
  destruct (normpath_rooted_has_plain_names _ Hrooted) as (comps & H & Hk & P).
  eexists _, comps. repeat split; eauto.
Qed.

Lemma checked_path_is_normalised_witness :
  exists k comps,
    posixpath.abspath "/srv/app" (posixpath.join "workspaces/s1" "../../x/./y")
    = (posixpath.slashes k ++ posixpath.join_comps comps)%string /\
    Forall (fun c => plain_name c = true) comps.
Proof.
  destruct (@checked_path_is_normalised "/srv/app" "workspaces/s1" "../../x/./y" eq_refl)
    as (k & comps & H & _ & P).
  exists k, comps. split; [exact H | exact P].
Defined.

(** * Creating projects *)

Lemma find_project_after_create w fs r p k :
  find_project (set_sessions r (set_projects (projects w ++ [p]) (set_files fs w))) k
  = match find_project w k with
    | Some x => Some x
    | None => if String.eqb (Project.session_id p) k then Some p else None
    end.
Proof.
  unfold find_project. simpl.
  induction (projects w) as [|x rest IH]; simpl; auto.
  destruct (String.eqb (Project.session_id x) k); auto.
Qed.

(** What a successful [create_project] leaves. *)
Lemma create_project_world w uid name github_url token clone :
  let w' := fst (create_project w uid name github_url token clone) in
  (active_sessions w' = active_sessions w /\ projects w' = projects w) \/
  (exists u fs,
      find_project w token = None /\
      w' = set_sessions (reg_set token new_session (active_sessions w))
             (set_projects
                (projects w ++ [Project.mk token u (get_workspace_dir w token) 5 true])
                (set_files fs w))).
Proof.
  unfold create_project.
  destruct uid as [u|]; [|left; auto].
  destruct (match github_url with None => Cloned [] | Some _ => clone end) as [tree|reason];
    [|left; auto].
  destruct (find_project w token) eqn:P; [left; auto|].
  right. exists u, (write_tree (cwd w) (get_workspace_dir w token) tree (files w)). auto.
Qed.

Lemma act_capacities_nonneg w a : capacities_nonneg w -> capacities_nonneg (act w a).
Proof.
  intros H. destruct a as [e | uid name url token clone].
  - now apply step_capacities_nonneg.
  - simpl.
    destruct (create_project_world w uid name url token clone)
      as [[_ E] | (u & fs & _ & E)]; intros p Hp.
    + rewrite E in Hp. auto.
    + rewrite E in Hp. simpl in Hp. apply in_app_or in Hp.
      destruct Hp as [Hp | [<- | []]]; [auto | simpl; lia].
Qed.

Lemma act_within_capacity w a :
  capacities_nonneg w -> within_capacity w -> within_capacity (act w a).
Proof.
  intros Hnn H. destruct a as [e | uid name url token clone].
  - now apply step_within_capacity.
  - pose proof (act_capacities_nonneg (CreateProject uid name url token clone) Hnn) as Hnn'.
    simpl in *.
    destruct (create_project_world w uid name url token clone)
      as [[Es Ep] | (u & fs & Pn & E)]; intros k sd p G P.
    + rewrite Es in G. unfold find_project in P. rewrite Ep in P. eapply H; eauto.
    + rewrite E in G, P. simpl in G. rewrite find_project_after_create in P.
      rewrite reg_get_set in G.
      destruct (String.eqb token k) eqn:Ek.
      * injection G as <-. simpl.
        apply String.eqb_eq in Ek. subst k. rewrite Pn in P. simpl in P.
        rewrite String.eqb_refl in P. injection P as <-. simpl. lia.
      * destruct (find_project w k) as [x|] eqn:Pk.
        -- injection P as <-. eapply H; eauto.
        -- simpl in P. rewrite Ek in P. discriminate.
Qed.

Lemma act_consistent w a :
  action_finds_connection a = true -> consistent w -> consistent (act w a).
Proof.
  intros Hc H. destruct a as [e | uid name url token clone].
  - now apply step_consistent.
  - simpl.
    destruct (create_project_world w uid name url token clone)
      as [[Es _] | (u & fs & _ & E)]; intros k sd G.
    + rewrite Es in G. eapply H; eauto.
    + rewrite E in G. simpl in G. rewrite reg_get_set in G.
      destruct (String.eqb token k).
      * injection G as <-. apply new_session_consistent.
      * eapply H; eauto.
Qed.

Lemma act_one_join w a : one_join_per_identity w -> one_join_per_identity (act w a).
Proof.
  intros H. destruct a as [e | uid name url token clone].
  - now apply step_one_join.
  - simpl.
    destruct (create_project_world w uid name url token clone)
      as [[Es _] | (u & fs & _ & E)]; intros k sd ident G.
    + rewrite Es in G. eapply H; eauto.
    + rewrite E in G. simpl in G. rewrite reg_get_set in G.
      destruct (String.eqb token k).
      * injection G as <-. simpl. lia.
      * eapply H; eauto.
Qed.

Lemma play_consistent acts :
  forallb action_finds_connection acts = true ->
  forall w, consistent w -> consistent (play w acts).
Proof.
  induction acts as [|a rest IH]; simpl; auto.
  intros Hc w H. apply andb_true_iff in Hc. destruct Hc as [Hc1 Hc2].
  apply IH; auto. now apply act_consistent.
Qed.

Lemma play_capacity_one_join acts :
  forall w, capacities_nonneg w -> within_capacity w -> one_join_per_identity w ->
            within_capacity (play w acts) /\ one_join_per_identity (play w acts).
Proof.
  induction acts as [|a rest IH]; simpl; auto.
  intros w H1 H2 H3. apply IH.
  - now apply act_capacities_nonneg.
  - now apply act_within_capacity.
  - now apply act_one_join.
Qed.

(** X14: along every run from boot, project creations included, every
    session keeps its roster within [max_users] and has at most one pending
    join per stable identity (given that no project row present at boot has
    a negative [max_users]).  Along a run in which no approved join is for a
    connection that has gone, every session has, besides, at most one
    roster entry per stable identity and no identity both in the roster and
    in a pending join. *)
Theorem invariants_hold_along_any_run :
  forall ps fs dir acts,
    capacities_nonneg (boot ps fs dir) ->
    let w := play (boot ps fs dir) acts in
    within_capacity w /\
    one_join_per_identity w /\
    (forallb action_finds_connection acts = true ->
     forall session_id sd,
       reg_get session_id (active_sessions w) = Some sd ->
       sess_exclusive sd /\ sess_roster_unique sd).
Proof.
  intros ps fs dir acts Hnn.
  pose proof (@play_consistent acts) as C.
  pose proof (@play_capacity_one_join acts) as G.
  destruct (G (boot ps fs dir)) as [G1 G2]; auto.
  - intros k sd p Hk. discriminate.
  - intros k sd ident Hk. discriminate.
  - split; [exact G1 | split; [exact G2|]].
    intros Hc session_id sd Hsd.
    destruct (C Hc (boot ps fs dir) (@boot_consistent ps fs dir) session_id sd Hsd)
      as (_ & HX & HU).
    split; assumption.
Qed.

Lemma invariants_hold_along_any_run_witness :
  let w := play (boot [] [] "/srv/app")
             [CreateProject (Some 1) "demo" None "tok" (Cloned []);
              Core (JoinSession Demo.alice "tok" "alice" false (Some "tab-a") 0%nat "t0");
              Core (JoinSession Demo.bob "tok" "bob" true (Some "tab-b") 1%nat "j1");
              Core (JoinApprovalResponse Demo.alice "tok" "j1" true 1%nat true)] in
  within_capacity w /\
  forall session_id sd,
    reg_get session_id (active_sessions w) = Some sd ->
    sess_exclusive sd /\ sess_roster_unique sd.
Proof.
  destruct (@invariants_hold_along_any_run [] [] "/srv/app"
              [CreateProject (Some 1) "demo" None "tok" (Cloned []);
               Core (JoinSession Demo.alice "tok" "alice" false (Some "tab-a") 0%nat "t0");
               Core (JoinSession Demo.bob "tok" "bob" true (Some "tab-b") 1%nat "j1");
               Core (JoinApprovalResponse Demo.alice "tok" "j1" true 1%nat true)])
    as (H1 & _ & H3).
  - intros p [].
  - split; [exact H1 | exact (H3 eq_refl)].
Defined.

(** X15: a project just created is open to its creator and gated for
    everyone else.  After a successful [create_project] (an unused token,
    no clone or a clone that succeeds), a [join_session] by a caller logged
    in as the creator puts that caller alone in the roster, as admin, in
    both rooms; a [join_session] by any other caller leaves the roster
    empty, queues one join approval and notifies the admin room. *)
Theorem created_project_admits_its_creator :
  forall w u name github_url token clone tree rq username anon ident draw token',
    find_project w token = None ->
    (github_url = None \/ clone = Cloned tree) ->
    let w1 := fst (create_project w (Some u) name github_url token clone) in
    let r := handle_join_session w1 rq token username anon ident draw token' in
    snd (create_project w (Some u) name github_url token clone)
      = Created token ("/session/" ++ token)%string /\
    (req_user_id rq = Some u ->
     roster (world r) token
       = [UserData.mk (req_sid rq) username (assign_color draw) None anon ident true] /\
     pending (world r) token = [] /\
     in_room (rooms (world r)) token (req_sid rq) = true /\
     in_room (rooms (world r)) (admin_room token) (req_sid rq) = true) /\
    (req_user_id rq <> Some u ->
     roster (world r) token = [] /\
     pending (world r) token = [Approval.Join token' username anon ident (req_sid rq)] /\
     emits r = [emit_room (admin_room token) (join_approval_request token' username);
                emit_self rq (waiting_approval msg_waiting)]).
Proof.
  intros w u name github_url token clone tree rq username anon ident draw token' Pn Hc w1 r.
  assert (E : create_project w (Some u) name github_url token clone =
              (set_sessions (reg_set token new_session (active_sessions w))
                 (set_projects
                    (projects w ++ [Project.mk token u (get_workspace_dir w token) 5 true])
                    (set_files
                       (write_tree (cwd w) (get_workspace_dir w token)
                          (match github_url with None => [] | Some _ => tree end)
                          (files w)) w)),
               Created token ("/session/" ++ token)%string)).
  { unfold create_project. destruct Hc as [-> | ->].
    - now rewrite Pn.
    - destruct github_url; now rewrite Pn. }
  subst r w1. rewrite E. simpl fst. simpl snd. split; [reflexivity|].
  unfold handle_join_session, roster, pending.
  rewrite find_project_after_create, Pn. simpl Project.session_id.
  rewrite String.eqb_refl. simpl.
  rewrite !reg_get_or_new_set. simpl.
  split.
  - intros Hu. rewrite Hu. simpl. rewrite Z.eqb_refl. simpl.
    rewrite reg_get_or_new_set_if, String.eqb_refl. simpl.
    repeat split; auto.
    + apply in_room_join_mono, in_room_join_same.
    + apply in_room_join_same.
  - intros Hu.
    assert (A : is_project_admin (req_user_id rq)
                  (Project.mk token u (get_workspace_dir w token) 5 true) = false).
    { unfold is_project_admin. destruct (req_user_id rq) as [x|]; auto. simpl.
      apply Z.eqb_neq. congruence. }
    rewrite A. simpl.
    rewrite reg_get_or_new_set_if, String.eqb_refl. simpl. auto.
Qed.

Lemma created_project_admits_its_creator_witness :
  map UserData.sid
    (roster (world (handle_join_session
                      (fst (create_project Demo.w0 (Some 1) "demo" None "tok" (Cloned [])))
                      Demo.alice "tok" "alice" false (Some "tab-a") 0%nat "t0")) "tok")
  = ["conn-a"].
Proof.
  destruct (@created_project_admits_its_creator Demo.w0 1 "demo" None "tok" (Cloned []) []
              Demo.alice "alice" false (Some "tab-a") 0%nat "t0" eq_refl (or_introl eq_refl))
    as (_ & H & _).
  destruct (H eq_refl) as (Hr & _). rewrite Hr. reflexivity.
Defined.

(** * The session page *)

(** X16: the session page and [join_session] apply the same gate: the
    page answers 404 exactly when a join on that session is refused with
    "Session not found or inactive", that is when the project is missing
    or flagged inactive; after a successful [close_session] both refuse. *)
Theorem page_and_join_share_the_gate :
  forall w session_id,
    (session_page w session_id = PageError 404 msg_inactive <->
     forall rq username anon ident draw token,
       handle_join_session w rq session_id username anon ident draw token
       = mkResult w [emit_self rq (error msg_inactive)] Done) /\
    (session_page w session_id = PageError 404 msg_inactive \/
     session_page w session_id = Rendered "session.html" session_id) /\
    (forall uid,
        reply (close_session w uid session_id) = Http 200 "status" "success" ->
        session_page (world (close_session w uid session_id)) session_id
        = PageError 404 msg_inactive).
Proof.
  intros w session_id. split; [|split].
  - unfold session_page, handle_join_session.
    destruct (find_project w session_id) as [project|] eqn:P.
    + destruct (Project.active project) eqn:A; simpl.
      * split; [discriminate|].
        intros H. specialize (H (mkRequest "" None) "" false None 0%nat "").
        exfalso. revert H. simpl.
        repeat break_match; intros H; inversion H.
      * split; auto.
    + split; auto.
  - unfold session_page.
    destruct (find_project w session_id) as [project|]; auto.
    destruct (Project.active project); auto.
  - intros uid H. apply close_session_success in H. destruct H as [H [project P]].
    rewrite H. simpl. unfold session_page.
    now rewrite find_project_closed, String.eqb_refl, P.
Qed.

Lemma page_and_join_share_the_gate_witness :
  session_page Demo.w_closed Demo.s1 = PageError 404 msg_inactive.
Proof.
  destruct (@page_and_join_share_the_gate Demo.w_joined Demo.s1) as (_ & _ & H).
  exact (H (Some 1) eq_refl).
Defined.

(** * Accounts *)

Lemma fold_max_ge l : forall init, init <= fold_left Z.max l init.
Proof.
  induction l as [|x l IH]; intros init; simpl; [lia|].
  specialize (IH (Z.max init x)). lia.
Qed.

Lemma fold_max_bound l : forall init x, In x l -> x <= fold_left Z.max l init.
Proof.
  induction l as [|y l IH]; intros init x Hx; simpl; [contradiction|].
  destruct Hx as [<- | Hx].
  - pose proof (fold_max_ge l (Z.max init y)). lia.
  - now apply IH.
Qed.

Lemma next_id_fresh accounts a : In a accounts -> Account.id a < next_id accounts.
Proof.
  destruct accounts as [|b rest]; [contradiction|]. unfold next_id.
  intros [<- | H].
  - pose proof (fold_max_ge (map Account.id rest) (Account.id b)). lia.
  - pose proof (fold_max_bound (map Account.id rest) (Account.id b) (Account.id a)
                  (in_map _ _ _ H)). lia.
Qed.

Lemma NoDup_snoc {A} (l : list A) x : NoDup l -> ~ In x l -> NoDup (l ++ [x]).
Proof.
  intros H Hx. induction H as [|y l Hy H IH]; simpl.
  - constructor; [intros [] | constructor].
  - constructor.
    + intros Hin. apply in_app_or in Hin. destruct Hin as [Hin | [-> | []]].
      * contradiction.
      * apply Hx. now left.
    + apply IH. intros Hin. apply Hx. now right.
Qed.

Lemma find_none_not_in {A} (key : A -> string) k l :
  find (fun a => String.eqb (key a) k) l = None -> ~ In k (map key l).
Proof.
  intros F Hin. apply in_map_iff in Hin. destruct Hin as (a & <- & Ha).
  eapply find_none in F; [|exact Ha]. simpl in F. now rewrite String.eqb_refl in F.
Qed.

Lemma map_update_first {A B} (g : A -> B) (p : A -> bool) f l :
  (forall a, g (f a) = g a) -> map g (update_first p f l) = map g l.
Proof.
  intros H. induction l as [|x l IH]; simpl; auto.
  destruct (p x); simpl; [now rewrite H | now rewrite IH].
Qed.

Lemma NoDup_map_filter {A B} (g : A -> B) (p : A -> bool) l :
  NoDup (map g l) -> NoDup (map g (filter p l)).
Proof.
  induction l as [|x l IH]; simpl; auto.
  intros H. inversion H as [|? ? Hx Hl]; subst.
  destruct (p x); simpl; auto.
  constructor; auto.
  intros Hin. apply Hx. apply in_map_iff in Hin. destruct Hin as (y & E & Hy).
  apply filter_In in Hy. destruct Hy as [Hy _].
  rewrite <- E. now apply in_map.
Qed.

Lemma NoDup_map_inj {A B} (g : A -> B) l a b :
  NoDup (map g l) -> In a l -> In b l -> g a = g b -> a = b.
Proof.
  induction l as [|x l IH]; simpl; [contradiction|].
  intros H Ha Hb E. inversion H as [|? ? Hx Hl]; subst.
  destruct Ha as [-> | Ha], Hb as [-> | Hb]; auto.
  - exfalso. apply Hx. rewrite E. now apply in_map.
  - exfalso. apply Hx. rewrite <- E. now apply in_map.
Qed.

Lemma find_snoc_none {A} (p : A -> bool) l x :
  find p l = None -> find p (l ++ [x]) = if p x then Some x else None.
Proof.
  induction l as [|y l IH]; simpl; auto.
  destruct (p y); [discriminate | auto].
Qed.

Section AuthProperties.

Variable generate_password_hash : string -> string -> string.
Variable check_password_hash : string -> string -> bool.

Lemma auth_step_unique accounts cookie e :
  accounts_unique accounts -> accounts_unique (accounts_after (auth_step generate_password_hash check_password_hash accounts cookie e)).
Proof.
  intros (Hid & Hname & Hmail). destruct e; simpl.
  - unfold register.
    destruct (find _ accounts) eqn:Fn; [repeat split; auto|].
    destruct (find (fun a => String.eqb (Account.email a) email) accounts) eqn:Fe;
      [repeat split; auto|].
    simpl. unfold accounts_unique. rewrite !map_app. simpl.
    repeat split; apply NoDup_snoc; auto.
    + intros Hin. apply in_map_iff in Hin. destruct Hin as (a & E & Ha).
      apply next_id_fresh in Ha. lia.
    + now apply find_none_not_in.
    + now apply find_none_not_in.
  - unfold login. repeat break_match; repeat split; auto.
  - repeat split; auto.
  - unfold make_admin. repeat break_match; simpl; try (repeat split; now auto).
    unfold accounts_unique. rewrite !map_update_first by reflexivity. auto.
  - unfold delete_user. repeat break_match; simpl; try (repeat split; now auto).
    repeat split; now apply NoDup_map_filter.
Qed.

(** X17: the account routes keep ids, usernames and emails unique: no
    request (registration, login, logout, promotion or deletion, with any
    cookie) makes two rows share one, so a table grown from empty through
    the API never holds a duplicate. *)
Theorem accounts_stay_unique :
  (forall accounts cookie e,
      accounts_unique accounts ->
      accounts_unique (accounts_after (auth_step generate_password_hash check_password_hash accounts cookie e))) /\
  (forall es, accounts_unique (auth_run generate_password_hash check_password_hash [] es)).
Proof.
  split; [apply auth_step_unique|].
  assert (G : forall es accounts, accounts_unique accounts -> accounts_unique (auth_run generate_password_hash check_password_hash accounts es)).
  { induction es as [|[cookie e] rest IH]; simpl; auto.
    intros accounts H. apply IH. now apply auth_step_unique. }
  intros es. apply G. repeat split; constructor.
Qed.

(** X18: the API cannot create the first admin.  If no account has
    [is_admin], then after any sequence of account requests, made with any
    cookies, still none has: registration creates plain accounts and
    promotion needs a caller who is already an admin. *)
Theorem no_admin_arises_through_the_api :
  forall es accounts,
    Forall (fun a => Account.is_admin a = false) accounts ->
    Forall (fun a => Account.is_admin a = false) (auth_run generate_password_hash check_password_hash accounts es).
Proof.
  induction es as [|[cookie e] rest IH]; simpl; auto.
  intros accounts H. apply IH. destruct e; simpl.
  - unfold register. repeat break_match; simpl; auto.
    apply Forall_app. split; auto.
  - unfold login. repeat break_match; auto.
  - exact H.
  - unfold make_admin.
    destruct cookie as [me|]; auto.
    destruct (get_account me accounts) as [current_user|] eqn:G; auto.
    apply find_some in G. destruct G as [Hin _].
    rewrite Forall_forall in H. rewrite (H _ Hin). simpl.
    now apply Forall_forall.
  - unfold delete_user.
    destruct cookie as [me|]; auto.
    destruct (get_account me accounts) as [current_user|] eqn:G; auto.
    apply find_some in G. destruct G as [Hin _].
    rewrite Forall_forall in H. rewrite (H _ Hin). simpl.
    now apply Forall_forall.
Qed.

(** X19: registering then logging in works: when werkzeug's check
    accepts the hash it generated, a successful registration is followed by
    a successful login with the same email and password, which sets the
    cookie to the new account's id and reports [is_admin] false. *)
Theorem register_then_login :
  (forall password salt,
      check_password_hash (generate_password_hash password salt) password = true) ->
  forall accounts cookie cookie' username email password salt,
    let r := register generate_password_hash accounts cookie username email password salt in
    auth_reply r = AuthUser (next_id accounts) username None ->
    login check_password_hash (accounts_after r) cookie' email password
    = mkAuth (accounts_after r) (Some (next_id accounts))
             (AuthUser (next_id accounts) username (Some false)).
Proof.
  intros Hcheck accounts cookie cookie' username email password salt r Hr.
  subst r. unfold register in *.
  destruct (find (fun a => String.eqb (Account.username a) username) accounts);
    [discriminate|].
  destruct (find (fun a => String.eqb (Account.email a) email) accounts) eqn:Fe;
    [discriminate|].
  simpl. unfold login. rewrite (find_snoc_none _ _ _ Fe). simpl.
  rewrite String.eqb_refl. simpl. now rewrite Hcheck.
Qed.

End AuthProperties.

Lemma find_update_first_same {A} (p : A -> bool) f l :
  (forall x, p (f x) = p x) ->
  find p (update_first p f l) = option_map f (find p l).
Proof.
  intros H. induction l as [|x l IH]; simpl; auto.
  destruct (p x) eqn:E; simpl.
  - now rewrite H, E.
  - now rewrite E.
Qed.

Lemma find_update_first_other {A} (q p : A -> bool) f l t :
  (forall x, q (f x) = q x) ->
  find q l = Some t ->
  exists t1, find q (update_first p f l) = Some t1 /\ (t1 = t \/ t1 = f t).
Proof.
  intros H. induction l as [|x l IH]; simpl; [discriminate|].
  destruct (p x) eqn:Ep; simpl.
  - rewrite H. destruct (q x); [intros [= <-]; eauto | eauto].
  - destruct (q x); [intros [= <-]; eauto | auto].
Qed.

Lemma In_update_first_found {A} (p : A -> bool) f l a :
  find p l = Some a -> In (f a) (update_first p f l).
Proof.
  induction l as [|x l IH]; simpl; [discriminate|].
  destruct (p x); [intros [= <-]; now left | intros H; right; auto].
Qed.

Lemma get_account_unique l x :
  NoDup (map Account.id l) -> In x l -> get_account (Account.id x) l = Some x.
Proof.
  intros Hnd Hin. unfold get_account.
  destruct (find _ l) as [y|] eqn:F.
  - apply find_some in F. destruct F as [Hy E]. apply Z.eqb_eq in E.
    f_equal. eapply NoDup_map_inj; eauto.
  - eapply find_none in F; [|exact Hin]. simpl in F. now rewrite Z.eqb_refl in F.
Qed.

(** X20: only a caller whose cookie names an admin account changes the
    table through [make_admin] or [delete_user]; and a promotion changes
    nothing but [is_admin] flags: ids, usernames, emails and password
    hashes stay as they are, row by row. *)
Theorem only_admins_change_accounts :
  forall accounts cookie user_id,
    (accounts_after (make_admin accounts cookie user_id) <> accounts \/
     accounts_after (delete_user accounts cookie user_id) <> accounts ->
     exists me current,
       cookie = Some me /\
       get_account me accounts = Some current /\
       Account.is_admin current = true) /\
    map (fun a => (Account.id a, Account.username a, Account.email a, Account.password_hash a))
        (accounts_after (make_admin accounts cookie user_id))
    = map (fun a => (Account.id a, Account.username a, Account.email a,
                     Account.password_hash a)) accounts.
Proof.
  intros accounts cookie user_id. split.
  - unfold make_admin, delete_user.
    destruct cookie as [me|]; [|intros [H | H]; now elim H].
    destruct (get_account me accounts) as [current|] eqn:G;
      [|intros [H | H]; now elim H].
    destruct (Account.is_admin current) eqn:A; [|intros [H | H]; now elim H].
    intros _. now exists me, current.
  - unfold make_admin. repeat break_match; simpl; auto.
    now apply map_update_first.
Qed.

Lemma only_admins_change_accounts_witness :
  exists me current,
    Some 1 = Some me /\
    get_account me [Account.mk 1 "hany" "hany@hany.com" "h" true;
                    Account.mk 2 "bob" "bob@example.org" "k" false] = Some current /\
    Account.is_admin current = true.
Proof.
  destruct (@only_admins_change_accounts
              [Account.mk 1 "hany" "hany@hany.com" "h" true;
               Account.mk 2 "bob" "bob@example.org" "k" false] (Some 1) 2) as [H _].
  apply H. left. vm_compute. intros E. discriminate E.
Defined.

Section AuthFlows.

Variable check_password_hash : string -> string -> bool.

(** X21: a deleted account is locked out.  After a successful
    [delete_user] on a table with unique ids and emails, no row has the
    deleted id, a login with the deleted account's email is refused
    whatever the password, and an admin request made with the deleted
    account's old cookie raises without touching the table. *)
Theorem deleted_account_is_locked_out :
  forall accounts cookie target a,
    accounts_unique accounts ->
    get_account target accounts = Some a ->
    auth_reply (delete_user accounts cookie target) = AuthSuccess ->
    let accounts' := accounts_after (delete_user accounts cookie target) in
    get_account target accounts' = None /\
    (forall cookie' password,
        login check_password_hash accounts' cookie' (Account.email a) password
        = mkAuth accounts' cookie' (AuthError 401 "Invalid credentials")) /\
    (forall user_id,
        make_admin accounts' (Some target) user_id
        = mkAuth accounts' (Some target) (AuthRaised "AttributeError")) /\
    (forall user_id,
        delete_user accounts' (Some target) user_id
        = mkAuth accounts' (Some target) (AuthRaised "AttributeError")).
Proof.
  intros accounts cookie target a (Hid & _ & Hmail) G Hok accounts'.
  assert (Ht : Account.id a = target).
  { apply find_some in G. destruct G as [_ E]. now apply Z.eqb_eq in E. }
  assert (E : accounts' = filter (fun x => negb (Account.id x =? target)) accounts).
  { subst accounts'. unfold delete_user in *.
    destruct cookie as [me|]; [|discriminate].
    destruct (get_account me accounts); [|discriminate].
    destruct (negb (Account.is_admin t)); [discriminate|].
    rewrite G. simpl. now rewrite Ht. }
  assert (Hnone : get_account target accounts' = None).
  { rewrite E. unfold get_account.
    destruct (find _ (filter _ accounts)) as [y|] eqn:F; auto.
    apply find_some in F. destruct F as [Hy Ey]. apply filter_In in Hy.
    destruct Hy as [_ Hy]. now rewrite Ey in Hy. }
  split; [exact Hnone|]. split; [|split].
  - intros cookie' password. unfold login.
    destruct (find _ accounts') as [b|] eqn:F; auto.
    exfalso. apply find_some in F. destruct F as [Hb Eb]. apply String.eqb_eq in Eb.
    rewrite E in Hb. apply filter_In in Hb. destruct Hb as [Hb Nb].
    assert (b = a).
    { eapply NoDup_map_inj; eauto. apply find_some in G. tauto. }
    subst b. now rewrite Ht, Z.eqb_refl in Nb.
  - intros user_id. unfold make_admin. now rewrite Hnone.
  - intros user_id. unfold delete_user. now rewrite Hnone.
Qed.

(** X22: [make_admin.py] is the way in.  On a table with unique ids
    where an account has the script's email, after the script that account
    logs in (with its password) as an admin, and its [make_admin] request
    on any existing account succeeds and leaves that account an admin under
    its old username. *)
Theorem script_then_promotion :
  forall accounts cookie a password target t,
    accounts_unique accounts ->
    find (fun x => String.eqb (Account.email x) "hany@hany.com") accounts = Some a ->
    check_password_hash (Account.password_hash a) password = true ->
    get_account target accounts = Some t ->
    let accounts1 := make_admin_script accounts in
    let l := login check_password_hash accounts1 cookie "hany@hany.com" password in
    let m := make_admin accounts1 (cookie_after l) target in
    cookie_after l = Some (Account.id a) /\
    auth_reply l = AuthUser (Account.id a) (Account.username a) (Some true) /\
    auth_reply m = AuthSuccess /\
    exists t',
      get_account target (accounts_after m) = Some t' /\
      Account.is_admin t' = true /\
      Account.username t' = Account.username t.
Proof.
  intros accounts cookie a password target t (Hid & _ & _) Fa Hpw Gt.
  cbv zeta.
  set (accounts1 := make_admin_script accounts).
  assert (Fl : find (fun x => String.eqb (Account.email x) "hany@hany.com") accounts1
               = Some (Account.set_is_admin true a)).
  { subst accounts1. unfold make_admin_script.
    rewrite find_update_first_same by reflexivity. now rewrite Fa. }
  assert (El : login check_password_hash accounts1 cookie "hany@hany.com" password
               = mkAuth accounts1 (Some (Account.id a))
                   (AuthUser (Account.id a) (Account.username a) (Some true))).
  { unfold login. rewrite Fl. simpl. now rewrite Hpw. }
  assert (Hid1 : NoDup (map Account.id accounts1)).
  { subst accounts1. unfold make_admin_script. now rewrite map_update_first. }
  assert (Gme : get_account (Account.id a) accounts1 = Some (Account.set_is_admin true a)).
  { change (Account.id a) with (Account.id (Account.set_is_admin true a)).
    apply get_account_unique; [exact Hid1|].
    subst accounts1. unfold make_admin_script. now apply In_update_first_found. }
  assert (G1 : exists t1, get_account target accounts1 = Some t1 /\
                          (t1 = t \/ t1 = Account.set_is_admin true t)).
  { subst accounts1. unfold make_admin_script, get_account.
    apply find_update_first_other; [reflexivity | exact Gt]. }
  destruct G1 as (t1 & G1 & Ht1).
  rewrite El. simpl. unfold make_admin. rewrite Gme. simpl. rewrite G1. simpl.
  repeat split.
  exists (Account.set_is_admin true t1). unfold get_account.
  rewrite find_update_first_same by reflexivity.
  unfold get_account in G1. rewrite G1. simpl.
  repeat split. destruct Ht1 as [-> | ->]; reflexivity.
Qed.

End AuthFlows.

Lemma accounts_stay_unique_witness :
  accounts_unique
    (accounts_after
       (auth_step demo_generate demo_check
          [Account.mk 1 "hany" "hany@hany.com" "pw$s" false] None
          (Register "bob" "bob@example.org" "secret" "salt"))).
Proof.
  destruct (accounts_stay_unique demo_generate demo_check) as [H _].
  apply H. repeat split; repeat constructor; simpl; tauto.
Defined.

Lemma no_admin_arises_through_the_api_witness :
  Forall (fun a => Account.is_admin a = false)
    (auth_run demo_generate demo_check
       [Account.mk 1 "hany" "hany@hany.com" "pw$s" false]
       [(None, Register "bob" "bob@example.org" "secret" "salt");
        (Some 2, MakeAdmin 2); (Some 1, MakeAdmin 1)]).
Proof.
  apply no_admin_arises_through_the_api. repeat constructor.
Defined.

Lemma demo_check_generate password salt :
  demo_check (demo_generate password salt) password = true.
Proof.
  unfold demo_check, demo_generate. rewrite <- append_assoc. apply prefix_append.
Qed.

Lemma register_then_login_witness :
  cookie_after
    (login demo_check
       (accounts_after (register demo_generate [] None "bob" "bob@example.org" "secret" "salt"))
       None "bob@example.org" "secret")
  = Some 1.
Proof.
  rewrite (@register_then_login demo_generate demo_check demo_check_generate
             [] None None "bob" "bob@example.org" "secret" "salt" eq_refl).
  reflexivity.
Defined.

Lemma deleted_account_is_locked_out_witness :
  get_account 2
    (accounts_after
       (delete_user [Account.mk 1 "hany" "hany@hany.com" "pw$s" true;
                     Account.mk 2 "bob" "bob@example.org" "secret$salt" false] (Some 1) 2))
  = None.
Proof.
  destruct (@deleted_account_is_locked_out demo_check
              [Account.mk 1 "hany" "hany@hany.com" "pw$s" true;
               Account.mk 2 "bob" "bob@example.org" "secret$salt" false] (Some 1) 2
              (Account.mk 2 "bob" "bob@example.org" "secret$salt" false)) as (H & _).
  - repeat split; repeat constructor; simpl; intuition discriminate.
  - reflexivity.
  - reflexivity.
  - exact H.
Defined.

Lemma script_then_promotion_witness :
  auth_reply
    (make_admin
       (make_admin_script [Account.mk 1 "hany" "hany@hany.com" "pw$s" false;
                           Account.mk 2 "bob" "bob@example.org" "secret$salt" false])
       (Some 1) 2)
  = AuthSuccess.
Proof.
  destruct (@script_then_promotion demo_check
              [Account.mk 1 "hany" "hany@hany.com" "pw$s" false;
               Account.mk 2 "bob" "bob@example.org" "secret$salt" false] None
              (Account.mk 1 "hany" "hany@hany.com" "pw$s" false) "pw" 2
              (Account.mk 2 "bob" "bob@example.org" "secret$salt" false))
    as (_ & _ & H & _).
  - repeat split; repeat constructor; simpl; intuition discriminate.
  - reflexivity.
  - reflexivity.
  - reflexivity.
  - exact H.
Defined.

(** * The file tree *)

Lemma Entry_nested_ind (P : Entry -> Prop) :
  (forall n, P (FileEntry n)) ->
  (forall n readable entries, Forall P entries -> P (DirEntry n readable entries)) ->
  forall e, P e.
Proof.
  intros Hf Hd. fix IH 1. intros [n | n readable entries].
  - apply Hf.
  - apply Hd. induction entries as [|x rest IHrest]; constructor.
    + apply IH.
    + exact IHrest.
Qed.

Lemma in_insert_sorted {A} (leb : A -> A -> bool) a l x :
  In x (insert_sorted leb a l) <-> x = a \/ In x l.
Proof.
  induction l as [|y rest IH]; simpl.
  - intuition.
  - destruct (leb a y); simpl; [intuition | rewrite IH; intuition].
Qed.

Lemma in_sorted_by {A} (leb : A -> A -> bool) l x :
  In x (sorted_by leb l) <-> In x l.
Proof.
  induction l as [|y rest IH]; simpl; [tauto|].
  rewrite in_insert_sorted, IH. intuition.
Qed.

Lemma insert_sorted_perm {A} (leb : A -> A -> bool) a l :
  Permutation (insert_sorted leb a l) (a :: l).
Proof.
  induction l as [|y rest IH]; simpl; auto.
  destruct (leb a y); auto.
  eapply perm_trans; [apply perm_skip, IH | apply perm_swap].
Qed.

Lemma sorted_by_perm {A} (leb : A -> A -> bool) l : Permutation (sorted_by leb l) l.
Proof.
  induction l as [|y rest IH]; simpl; auto.
  eapply perm_trans; [apply insert_sorted_perm | now apply perm_skip].
Qed.

Lemma filter_perm {A} (p : A -> bool) l l' :
  Permutation l l' -> Permutation (filter p l) (filter p l').
Proof.
  induction 1 as [|x l l' H IH|x y l|l l' l'' H1 IH1 H2 IH2]; simpl; auto.
  - destruct (p x); auto.
  - destruct (p x), (p y); auto. apply perm_swap.
  - eapply perm_trans; eauto.
Qed.

(** Sorting with a total, transitive comparison gives a sorted list. *)
Lemma sorted_by_sorted {A} (leb : A -> A -> bool) l :
  (forall a b, leb a b = true \/ leb b a = true) ->
  (forall a b c, leb a b = true -> leb b c = true -> leb a c = true) ->
  StronglySorted (fun a b => leb a b = true) (sorted_by leb l).
Proof.
  intros Htot Htrans. induction l as [|x rest IH]; simpl; [constructor|].
  induction IH as [|y l Hl IHl Hy]; simpl.
  - repeat constructor.
  - destruct (leb x y) eqn:E.
    + constructor; [now constructor|].
      constructor; auto.
      eapply Forall_impl; [|exact Hy]. intros z Hz. eapply Htrans; eauto.
    + constructor; auto.
      apply Forall_forall. intros z Hz. apply in_insert_sorted in Hz.
      destruct Hz as [-> | Hz].
      * destruct (Htot x y); congruence.
      * rewrite Forall_forall in Hy. auto.
Qed.

Lemma filter_sorted {A} (R : A -> A -> Prop) (p : A -> bool) l :
  StronglySorted R l -> StronglySorted R (filter p l).
Proof.
  induction 1 as [|x l Hl IH Hx]; simpl; [constructor|].
  destruct (p x); auto.
  constructor; auto.
  apply Forall_forall. intros y Hy. apply filter_In in Hy.
  rewrite Forall_forall in Hx. apply Hx. tauto.
Qed.

Lemma string_leb_trans a : forall b c,
  String.leb a b = true -> String.leb b c = true -> String.leb a c = true.
Proof.
  unfold String.leb.
  induction a as [|x a IH]; intros [|y b] [|z c]; simpl; auto; try discriminate.
  unfold Ascii.compare.
  destruct (N.compare_spec (N_of_ascii x) (N_of_ascii y)) as [Exy | Lxy | Gxy];
    destruct (N.compare_spec (N_of_ascii y) (N_of_ascii z)) as [Eyz | Lyz | Gyz];
    destruct (N.compare_spec (N_of_ascii x) (N_of_ascii z)) as [Exz | Lxz | Gxz];
    try discriminate; auto; try lia.
  apply IH.
Qed.

Section FileTreeProperties.

Variable lower : string -> string.

Lemma key_leb_total d1 n1 d2 n2 :
  key_leb lower d1 n1 d2 n2 = true \/ key_leb lower d2 n2 d1 n1 = true.
Proof.
  unfold key_leb. destruct d1, d2; simpl; auto; apply String.leb_total.
Qed.

Lemma key_leb_trans d1 n1 d2 n2 d3 n3 :
  key_leb lower d1 n1 d2 n2 = true -> key_leb lower d2 n2 d3 n3 = true ->
  key_leb lower d1 n1 d3 n3 = true.
Proof.
  unfold key_leb. destruct d1, d2, d3; simpl; auto; try discriminate;
    apply string_leb_trans.
Qed.

Lemma listing_sorted items :
  StronglySorted (fun a b => item_leb lower a b = true) (listing lower items).
Proof.
  unfold listing. apply filter_sorted. apply sorted_by_sorted.
  - intros a b. apply key_leb_total.
  - intros a b c. apply key_leb_trans.
Qed.

Lemma listing_in items i :
  In i (listing lower items) <->
  In i items /\ startswith_dot (item_name i) = false.
Proof.
  unfold listing. rewrite filter_In, in_sorted_by, negb_true_iff. tauto.
Qed.

Lemma item_of_name e : item_name (item_of lower e) = entry_name e.
Proof. now destruct e. Qed.

Lemma item_of_is_dir e : item_is_dir (item_of lower e) = entry_is_dir e.
Proof. now destruct e. Qed.

Lemma insert_sorted_map {A B} (f : A -> B) (leb : A -> A -> bool) (leb' : B -> B -> bool) x l :
  (forall a b, leb' (f a) (f b) = leb a b) ->
  insert_sorted leb' (f x) (map f l) = map f (insert_sorted leb x l).
Proof.
  intros H. induction l as [|y rest IH]; simpl; auto.
  rewrite H. destruct (leb x y); simpl; auto. now rewrite IH.
Qed.

Lemma sorted_by_map {A B} (f : A -> B) (leb : A -> A -> bool) (leb' : B -> B -> bool) l :
  (forall a b, leb' (f a) (f b) = leb a b) ->
  sorted_by leb' (map f l) = map f (sorted_by leb l).
Proof.
  intros H. induction l as [|y rest IH]; simpl; auto.
  rewrite IH. now apply insert_sorted_map.
Qed.

Lemma filter_map_commute {A B} (f : A -> B) (p : B -> bool) l :
  filter p (map f l) = map f (filter (fun a => p (f a)) l).
Proof.
  induction l as [|y rest IH]; simpl; auto.
  destruct (p (f y)); simpl; now rewrite IH.
Qed.

(** The model builds the items, then sorts and filters them; the code
    sorts the entries, skips the hidden ones, then builds the items.  The
    two orders give the same list. *)
Lemma listing_follows_the_loop entries :
  listing lower (map (item_of lower) entries)
  = map (item_of lower)
      (filter (fun e => negb (startswith_dot (entry_name e)))
         (sorted_by (entry_leb lower) entries)).
Proof.
  unfold listing.
  rewrite (sorted_by_map (item_of lower) (entry_leb lower)).
  - rewrite filter_map_commute. f_equal. apply filter_ext.
    intros e. now rewrite item_of_name.
  - intros a b. unfold item_leb, entry_leb.
    now rewrite !item_of_name, !item_of_is_dir.
Qed.

Lemma item_of_tidy e : tidy_below lower (item_of lower e).
Proof.
  induction e as [n | n readable entries IH] using Entry_nested_ind.
  - split.
    + intros i [<- | []]. now left.
    + intros i children [<- | []]. discriminate.
  - set (cs := if readable then listing lower (map (item_of lower) entries) else []).
    assert (Hcs : forall c, In c cs ->
                            startswith_dot (item_name c) = false /\
                            exists e, In e entries /\ c = item_of lower e).
    { intros c Hc. subst cs. destruct readable; [|contradiction].
      apply listing_in in Hc. destruct Hc as [Hm Hv]. split; auto.
      apply in_map_iff in Hm. destruct Hm as (e & <- & He). eauto. }
    assert (Hsorted : StronglySorted (fun a b => item_leb lower a b = true) cs).
    { subst cs. destruct readable; [apply listing_sorted | constructor]. }
    rewrite Forall_forall in IH.
    change (item_of lower (DirEntry n readable entries))
      with (mkItem n (slashed n) true (Some cs)).
    split.
    + intros i [<- | Hi]; [now left|]. right.
      apply in_flat_map in Hi. destruct Hi as (c & Hc & Hi).
      destruct (Hcs c Hc) as (Hv & e & He & ->).
      destruct (IH e He) as [H1 _]. destruct (H1 i Hi) as [-> | H]; auto.
    + intros i children [<- | Hi] Hch.
      * simpl in Hch. injection Hch as <-. exact Hsorted.
      * apply in_flat_map in Hi. destruct Hi as (c & Hc & Hi).
        destruct (Hcs c Hc) as (_ & e & He & ->).
        destruct (IH e He) as [_ H2]. eauto.
Qed.

(** X23: [get_file_tree] never lists an entry whose name starts with a
    dot, at any depth: neither the entry nor anything below a hidden
    directory appears in the tree. *)
Theorem hidden_entries_are_never_listed :
  forall readable entries i,
    In i (flat_map items_below (get_file_tree lower readable entries)) ->
    startswith_dot (item_name i) = false.
Proof.
  intros readable entries i Hi.
  destruct (item_of_tidy (DirEntry "top" readable entries)) as [H _].
  destruct (H i) as [-> | Hv]; auto.
  right. exact Hi.
Qed.

(** X24: every list of the tree, the top one and the children of every
    directory at any depth, is sorted by [(not is_dir, name.lower())]:
    directories come before files, and within each group the lower-cased
    names are in order. *)
Theorem every_listing_is_sorted :
  forall readable entries,
    let sorted := StronglySorted (fun a b => item_leb lower a b = true) in
    sorted (get_file_tree lower readable entries) /\
    (forall i children,
        In i (flat_map items_below (get_file_tree lower readable entries)) ->
        item_children i = Some children ->
        sorted children) /\
    (forall a b,
        item_leb lower a b = true ->
        (item_is_dir b = true -> item_is_dir a = true) /\
        (item_is_dir a = item_is_dir b ->
         String.leb (lower (item_name a)) (lower (item_name b)) = true)).
Proof.
  intros readable entries sorted. subst sorted.
  destruct (item_of_tidy (DirEntry "top" readable entries)) as [_ H].
  split; [|split].
  - apply (H (item_of lower (DirEntry "top" readable entries))); [now left | reflexivity].
  - intros i children Hi Hc. apply (H i); auto. right. exact Hi.
  - intros a b. unfold item_leb, key_leb.
    destruct (item_is_dir a), (item_is_dir b); simpl; intros E; split; auto; discriminate.
Qed.

(** X25: the top list holds exactly the entries whose name does not
    start with a dot, each once (the names are a permutation of theirs); it
    is the list the loop of the code builds; and it is empty for a
    directory that cannot be scanned. *)
Theorem listing_holds_the_visible_entries :
  forall entries,
    Permutation (map item_name (get_file_tree lower true entries))
                (map entry_name
                   (filter (fun e => negb (startswith_dot (entry_name e))) entries)) /\
    get_file_tree lower true entries
    = map (item_of lower)
        (filter (fun e => negb (startswith_dot (entry_name e)))
           (sorted_by (entry_leb lower) entries)) /\
    get_file_tree lower false entries = [].
Proof.
  intros entries. unfold get_file_tree. rewrite listing_follows_the_loop.
  repeat split.
  rewrite map_map.
  rewrite (map_ext _ entry_name) by (intros e; apply item_of_name).
  apply Permutation_map, filter_perm, sorted_by_perm.
Qed.

End FileTreeProperties.

Lemma hidden_entries_are_never_listed_witness :
  map item_name (flat_map items_below (get_file_tree demo_lower true demo_entries))
  = ["locked"; "src"; "a.py"; "Z.py"; "b.py"; "README.md"] /\
  Forall (fun i => startswith_dot (item_name i) = false)
         (flat_map items_below (get_file_tree demo_lower true demo_entries)).
Proof.
  split; [reflexivity|].
  apply Forall_forall. intros i Hi.
  exact (@hidden_entries_are_never_listed demo_lower true demo_entries i Hi).
Defined.

Lemma every_listing_is_sorted_witness :
  item_leb demo_lower (mkItem "src" "src" true None) (mkItem "a.py" "a.py" false None) = true /\
  (item_is_dir (mkItem "a.py" "a.py" false None) = true ->
   item_is_dir (mkItem "src" "src" true None) = true).
Proof.
  destruct (@every_listing_is_sorted demo_lower true demo_entries) as (_ & _ & H).
  split; [reflexivity|].
  apply (H (mkItem "src" "src" true None) (mkItem "a.py" "a.py" false None)). reflexivity.
Defined.

(** * Who may broadcast *)

Lemma update_first_none {A} (p : A -> bool) f l :
  find p l = None -> update_first p f l = l.
Proof.
  induction l as [|x l IH]; simpl; auto.
  destruct (p x); [discriminate|]. intros H. now rewrite IH.
Qed.

(** X26: of the four relaying handlers only [cursor_move] looks the
    caller up in the roster.  [file_change], [chat_message] and [file_open]
    emit to the room named in the payload for any caller, in the roster or
    not, whether or not the session exists; a [file_open] from a caller
    who is not in the roster changes nothing. *)
Theorem relays_need_no_membership :
  forall w rq session_id,
    (forall position file,
        emits (handle_cursor_move w rq session_id position file) <> [] <->
        user_by_sid (req_sid rq) (roster w session_id) <> None) /\
    (forall changes file version,
        handle_file_change w rq session_id changes file version
        = mkResult w [emit_others rq session_id
                        (content_update (req_sid rq) changes file version)] Done) /\
    (forall username message data_color timestamp,
        exists color,
          handle_chat_message w rq session_id username message data_color timestamp
          = mkResult w [emit_room session_id (chat_message username color message timestamp)]
                     Done) /\
    (forall file_path,
        emits (handle_file_open w rq session_id file_path)
        = [emit_room session_id (user_file_change (req_sid rq) file_path)] /\
        (user_by_sid (req_sid rq) (roster w session_id) = None ->
         world (handle_file_open w rq session_id file_path) = w)).
Proof.
  intros w rq session_id. split; [|split; [|split]].
  - intros position file. unfold handle_cursor_move, roster, reg_get_or_new.
    destruct (reg_get session_id (active_sessions w)) as [sd|]; simpl.
    + destruct (user_by_sid (req_sid rq) (users sd)); simpl; split; congruence.
    + split; congruence.
  - reflexivity.
  - intros username message data_color timestamp. unfold handle_chat_message. eauto.
  - intros file_path. split; [reflexivity|].
    unfold handle_file_open, roster, reg_get_or_new.
    destruct (reg_get session_id (active_sessions w)) as [sd|] eqn:G; auto.
    intros H. simpl. unfold user_by_sid in H. rewrite (update_first_none _ _ _ H).
    destruct sd as [us ps]. simpl. rewrite (reg_set_same _ _ G). now destruct w.
Qed.

Lemma relays_need_no_membership_witness :
  world (handle_file_open Demo.w_joined (mkRequest "conn-x" None) Demo.s1 "main.py")
  = Demo.w_joined.
Proof.
  destruct (@relays_need_no_membership Demo.w_joined (mkRequest "conn-x" None) Demo.s1)
    as (_ & _ & _ & H).
  destruct (H "main.py") as [_ H2]. apply H2. reflexivity.
Defined.

(** * The dashboard counters *)

Lemma active_count_deactivate s ps p :
  find (fun x => String.eqb (Project.session_id x) s) ps = Some p ->
  (List.length (filter Project.active (deactivate s ps)) + (if Project.active p then 1 else 0)
   = List.length (filter Project.active ps))%nat.
Proof.
  unfold deactivate. induction ps as [|x ps IH]; simpl; [discriminate|].
  destruct (String.eqb (Project.session_id x) s) eqn:E.
  - intros [= ->]. simpl. destruct (Project.active p); simpl; lia.
  - intros H. simpl. destruct (Project.active x); simpl; rewrite <- (IH H); lia.
Qed.

(** X27: the dashboard's [active_sessions] counter counts project rows
    flagged active, not sessions in memory: a successful [close_session]
    on an active project lowers it by exactly one, a second close leaves
    it, and the other counters and lists do not move. *)
Theorem close_session_lowers_the_active_count :
  forall accounts w cookie uid session_id project nu np na users sessions,
    find_project w session_id = Some project ->
    reply (close_session w uid session_id) = Http 200 "status" "success" ->
    admin_dashboard accounts w cookie = Dashboard nu np na users sessions ->
    admin_dashboard accounts (world (close_session w uid session_id)) cookie
    = Dashboard nu np (na - (if Project.active project then 1 else 0)) users sessions.
Proof.
  intros accounts w cookie uid session_id project nu np na users sessions P Hok D.
  apply close_session_success in Hok. destruct Hok as [Hc _]. rewrite Hc. simpl.
  unfold admin_dashboard in *.
  destruct cookie as [me|]; [|discriminate].
  destruct (get_account me accounts) as [user|]; [|discriminate].
  destruct (negb (Account.is_admin user)); [discriminate|].
  injection D as <- <- <- <- <-. simpl.
  pose proof (active_count_deactivate session_id (projects w) P) as Hn.
  unfold deactivate at 1 3. rewrite update_first_length.
  rewrite map_update_first by reflexivity.
  f_equal. lia.
Qed.

Lemma close_session_lowers_the_active_count_witness :
  admin_dashboard [Account.mk 1 "hany" "hany@hany.com" "pw$s" true] Demo.w_closed (Some 1)
  = Dashboard 1 1 0 [(1, "hany", "hany@hany.com")] ["s1"].
Proof.
  apply (@close_session_lowers_the_active_count
           [Account.mk 1 "hany" "hany@hany.com" "pw$s" true] Demo.w_joined (Some 1) (Some 1)
           Demo.s1 Demo.project1 1%nat 1%nat 1%nat [(1, "hany", "hany@hany.com")] ["s1"]
           eq_refl eq_refl eq_refl).
Defined.

(** * Colors *)

Lemma assign_color_in_palette draw : In (assign_color draw) user_colors.
Proof.
  unfold assign_color. apply nth_In. apply Nat.mod_upper_bound. discriminate.
Qed.

Lemma colors_from_refl us : colors_from us us.
Proof. intros u Hu. left. eauto. Qed.

Lemma colors_from_update p f us :
  (forall u, UserData.color (f u) = UserData.color u) ->
  colors_from us (update_first p f us).
Proof.
  intros H u' Hu. apply In_update_first in Hu.
  destruct Hu as [Hu | (y & Hy & ->)]; left; eauto.
Qed.

Lemma colors_from_filter q us : colors_from us (filter q us).
Proof. intros u Hu. apply filter_In in Hu. left. exists u. tauto. Qed.

Lemma colors_from_snoc us x :
  In (UserData.color x) user_colors -> colors_from us (us ++ [x]).
Proof.
  intros H u Hu. apply in_app_or in Hu.
  destruct Hu as [Hu | [<- | []]]; [left; eauto | now right].
Qed.

Lemma disconnect_loop_colors k rq reg :
  colors_from (users (reg_get_or_new k reg))
    (users (reg_get_or_new k (fst (disconnect_loop rq reg)))).
Proof.
  induction reg as [|[k0 sd0] rest IH]; simpl.
  - apply colors_from_refl.
  - destruct (user_by_sid (req_sid rq) (users sd0)) as [u|].
    + simpl. unfold reg_get_or_new. simpl.
      destruct (String.eqb k0 k); [apply colors_from_filter | apply colors_from_refl].
    + destruct (disconnect_loop rq rest) as [rest' es]. simpl in *.
      unfold reg_get_or_new in *. simpl.
      destruct (String.eqb k0 k); [apply colors_from_refl | exact IH].
Qed.

Ltac at_key_colors s k :=
  rewrite ?reg_set_ensure, reg_get_or_new_set_if;
  let E := fresh "E" in
  destruct (String.eqb s k) eqn:E;
  [apply String.eqb_eq in E; subst k; simpl | apply colors_from_refl].

Lemma step_colors w e k :
  colors_from (users (reg_get_or_new k (active_sessions w)))
    (users (reg_get_or_new k (active_sessions (world (step w e))))).
Proof.
  destruct e; simpl.
  - unfold save_file.
    destruct (find_project w session_id) as [project|]; [|apply colors_from_refl].
    destruct (is_project_admin uid project).
    + repeat break_match; apply colors_from_refl.
    + simpl. at_key_colors session_id k. apply colors_from_refl.
  - unfold kick_user.
    destruct uid as [u|]; [|apply colors_from_refl].
    destruct (find_project w session_id) as [project|]; [|apply colors_from_refl].
    destruct (negb (u =? Project.admin_id project)); [apply colors_from_refl|].
    destruct (reg_get session_id (active_sessions w)) as [sd|] eqn:G;
      [|apply colors_from_refl].
    destruct (user_by_sid sid (users sd)); [|apply colors_from_refl].
    simpl. at_key_colors session_id k. rewrite (reg_get_or_new_some _ _ G).
    apply colors_from_filter.
  - unfold close_session. repeat break_match; apply colors_from_refl.
  - unfold handle_join_session.
    destruct (find_project w session_id) as [project|] eqn:P; [|apply colors_from_refl].
    destruct (negb (Project.active project)); [apply colors_from_refl|].
    set (sd := reg_get_or_new session_id (active_sessions w)).
    destruct (find (pending_join user_session_id) (pending_approvals sd)) eqn:FP.
    { simpl. at_key_colors session_id k. apply colors_from_refl. }
    destruct (find (same_identity user_session_id) (users sd)) eqn:FU.
    { simpl. at_key_colors session_id k. apply colors_from_update.
      intros u. destruct (is_project_admin (req_user_id rq) project); reflexivity. }
    destruct (is_project_admin (req_user_id rq) project);
      destruct (len_ge (users sd) (Project.max_users project)); simpl;
      try (rewrite reg_get_or_new_ensure; apply colors_from_refl);
      at_key_colors session_id k.
    + apply colors_from_snoc. apply assign_color_in_palette.
    + apply colors_from_refl.
  - unfold handle_join_approval_response.
    destruct (reg_get session_id (active_sessions w)) as [sd|] eqn:G;
      [|apply colors_from_refl].
    destruct (find _ (pending_approvals sd)) as [[?|i u an ident s]|];
      try apply colors_from_refl.
    destruct approved.
    + destruct (find_project w session_id) as [project|]; [|apply colors_from_refl].
      destruct (len_ge (users sd) (Project.max_users project));
        [|destruct connected]; simpl;
        at_key_colors session_id k; rewrite (reg_get_or_new_some _ _ G).
      * apply colors_from_refl.
      * apply colors_from_snoc. apply assign_color_in_palette.
      * apply colors_from_snoc. apply assign_color_in_palette.
    + simpl. at_key_colors session_id k. rewrite (reg_get_or_new_some _ _ G).
      apply colors_from_refl.
  - unfold handle_leave_session.
    destruct (reg_get session_id (active_sessions w)) as [sd|] eqn:G;
      [|apply colors_from_refl].
    destruct (user_by_sid (req_sid rq) (users sd)); simpl;
      at_key_colors session_id k; rewrite (reg_get_or_new_some _ _ G);
      apply colors_from_filter.
  - unfold handle_cursor_move. repeat break_match; apply colors_from_refl.
  - apply colors_from_refl.
  - unfold handle_file_open.
    destruct (reg_get session_id (active_sessions w)) as [sd|] eqn:G;
      [|apply colors_from_refl].
    simpl. at_key_colors session_id k. rewrite (reg_get_or_new_some _ _ G).
    now apply colors_from_update.
  - apply colors_from_refl.
  - unfold handle_approval_response.
    destruct (reg_get session_id (active_sessions w)) as [sd|] eqn:G;
      [|apply colors_from_refl].
    destruct (find _ (pending_approvals sd)) as [approval|]; [|apply colors_from_refl].
    assert (T : forall w1,
               active_sessions w1 = active_sessions w ->
               colors_from (users (reg_get_or_new k (active_sessions w)))
                 (users (reg_get_or_new k
                    (active_sessions
                       (set_sessions
                          (reg_set session_id
                             (mkSession (users sd)
                                (remove_approval approval_id (pending_approvals sd)))
                             (active_sessions w1)) w1))))).
    { intros w1 ->. simpl. at_key_colors session_id k.
      rewrite (reg_get_or_new_some _ _ G). apply colors_from_refl. }
    destruct approval as [i p c u | i u an ident s].
    + destruct approved; [|now apply T].
      destruct (find_project w session_id) as [project|]; [|apply colors_from_refl].
      destruct (negb (is_safe_path _ _ _)); [apply colors_from_refl|].
      destruct io; now apply T.
    + now apply T.
  - unfold handle_disconnect.
    pose proof (disconnect_loop_colors k rq (active_sessions w)) as H.
    destruct (disconnect_loop rq (active_sessions w)) as [reg' es]. exact H.
Qed.

Lemma act_palette w a : palette_colors w -> palette_colors (act w a).
Proof.
  intros H. destruct a as [e | uid name url token clone].
  - intros k sd' u' G Hu. simpl in G.
    pose proof (step_colors w e k) as C.
    rewrite (reg_get_or_new_some _ _ G) in C.
    destruct (C u' Hu) as [(u & Hin & ->) | Hp]; auto.
    unfold reg_get_or_new in Hin.
    destruct (reg_get k (active_sessions w)) as [sd|] eqn:G0; [|contradiction].
    eapply H; eauto.
  - simpl.
    destruct (create_project_world w uid name url token clone)
      as [[Es _] | (u & fs & _ & E)]; intros k sd u' G Hu.
    + rewrite Es in G. eapply H; eauto.
    + rewrite E in G. simpl in G. rewrite reg_get_set in G.
      destruct (String.eqb token k).
      * injection G as <-. contradiction.
      * eapply H; eauto.
Qed.

(** X28: every participant's color is one of the eight of
    [user_colors], along every run from boot: a color is drawn when a
    participant enters a roster and no handler rewrites it afterwards. *)
Theorem colors_stay_in_the_palette :
  forall ps fs dir acts session_id sd u,
    reg_get session_id (active_sessions (play (boot ps fs dir) acts)) = Some sd ->
    In u (users sd) ->
    In (UserData.color u) user_colors.
Proof.
  intros ps fs dir acts.
  assert (G : forall w, palette_colors w -> palette_colors (play w acts)).
  { induction acts as [|a rest IH]; simpl; auto.
    intros w H. apply IH. now apply act_palette. }
  apply G. intros k sd u Hk. discriminate.
Qed.

Lemma colors_stay_in_the_palette_witness :
  Forall (fun u => In (UserData.color u) user_colors) (roster Demo.w_joined Demo.s1).
Proof.
  apply Forall_forall. intros u Hu.
  apply (@colors_stay_in_the_palette [Demo.project1] [] "/srv/app"
           [Core Demo.alice_joins; Core Demo.bob_asks; Core Demo.alice_lets_bob_in]
           Demo.s1 (reg_get_or_new Demo.s1 (active_sessions Demo.w_joined)) u eq_refl Hu).
Defined.

(** * An approval for a connection that has gone *)

(** X29: approving a join whose requester is no longer connected leaves
    the session half-updated.  With room left in the roster, the handler
    appends the participant, then [enter_room] raises: nothing is emitted,
    no room changes, and the approval is still pending, so the identity is
    at once in the roster and waiting to join.  Approving the same entry
    again, room permitting, appends a further record with the same sid and
    identity. *)
Theorem approval_for_a_gone_connection :
  forall w rq session_id approval_id draw sd project i a_username an ident s,
    reg_get session_id (active_sessions w) = Some sd ->
    find (fun a => (String.eqb (Approval.id a) approval_id && Approval.is_join a)%bool)
         (pending_approvals sd) = Some (Approval.Join i a_username an ident s) ->
    find_project w session_id = Some project ->
    Z.of_nat (List.length (users sd)) < Project.max_users project ->
    let r := handle_join_approval_response w rq session_id approval_id true draw false in
    let user_data := UserData.mk s a_username (assign_color draw) None an ident false in
    reply r = Raised "KeyError" /\
    emits r = [] /\
    rooms (world r) = rooms w /\
    roster (world r) session_id = users sd ++ [user_data] /\
    pending (world r) session_id = pending_approvals sd /\
    ~ sess_exclusive (reg_get_or_new session_id (active_sessions (world r))) /\
    (Z.of_nat (List.length (users sd)) + 1 < Project.max_users project ->
     forall rq' draw' connected',
       let r' := handle_join_approval_response (world r) rq' session_id approval_id true draw'
                   connected' in
       roster (world r') session_id
       = users sd ++ [user_data; UserData.mk s a_username (assign_color draw') None an ident false]).
Proof.
  intros w rq session_id approval_id draw sd project i a_username an ident s G F P L r user_data.
  assert (Hfull : len_ge (users sd) (Project.max_users project) = false).
  { unfold len_ge. apply Z.leb_gt. exact L. }
  assert (E : r = mkResult
                    (set_sessions
                       (reg_set session_id
                          (mkSession (users sd ++ [user_data]) (pending_approvals sd))
                          (active_sessions w)) w)
                    [] (Raised "KeyError")).
  { subst r. unfold handle_join_approval_response. now rewrite G, F, P, Hfull. }
  rewrite E. unfold roster, pending. simpl. rewrite !reg_get_or_new_set. simpl.
  split; [reflexivity|]. split; [reflexivity|]. split; [reflexivity|].
  split; [reflexivity|]. split; [reflexivity|]. split.
  - intros HX. apply find_some in F. destruct F as [Hin _].
    apply (HX (Approval.Join i a_username an ident s) user_data); simpl; auto.
    apply in_or_app. right. now left.
  - intros L2 rq' draw' connected'. unfold handle_join_approval_response. simpl.
    rewrite reg_get_set_same. simpl. rewrite F.
    rewrite find_project_set_sessions, P.
    assert (Hfull2 : len_ge (users sd ++ [user_data]) (Project.max_users project) = false).
    { unfold len_ge. apply Z.leb_gt. rewrite length_app. simpl. lia. }
    rewrite Hfull2.
    destruct connected'; simpl; rewrite reg_set_set, reg_get_or_new_set; simpl;
      now rewrite <- app_assoc.
Qed.

Lemma approval_for_a_gone_connection_witness :
  map UserData.sessionId (roster Demo.w_half_joined Demo.s1) = [Some "tab-a"; Some "tab-b2"] /\
  pending Demo.w_half_joined Demo.s1 = [Approval.Join "j2" "bob" true (Some "tab-b2") "conn-b"].
Proof.
  destruct (@approval_for_a_gone_connection
              Demo.w_bob_gone Demo.alice Demo.s1 "j2" 3%nat
              (reg_get_or_new Demo.s1 (active_sessions Demo.w_bob_gone))
              Demo.project1 "j2" "bob" true (Some "tab-b2") "conn-b"
              eq_refl eq_refl eq_refl) as (_ & _ & _ & Hr & Hp & _).
  - vm_compute. reflexivity.
  - split; [exact (f_equal (map UserData.sessionId) Hr) | exact Hp].
Defined.
